(** * Shop aggregation over the Ruten marketplace

    A shallow embedding of [GetShopListByRutenService]
    (libs/ruten-apis/src/services/getShopListByRutenService.ts) and the
    properties of its four stages: metadata resolution, offer discovery,
    cross-sell probing and shipping incentives. *)

From Stdlib Require Import ZArith String Ascii List Lia Bool.
From stdpp Require Import base list strings pretty.

Open Scope string_scope.
Open Scope Z_scope.
Open Scope list_scope.

(** ** JavaScript strings

    Titles, carrier codes and product names are JavaScript strings.  Every
    pattern the service searches for is a literal of ASCII characters, so a
    search over the bytes of the string finds the same occurrences as the
    search over its code units. *)

Module Js.

(** [s.split(sep)] for a one-character separator. *)
Fixpoint split (sep : ascii) (s : string) : list string :=
  match s with
  | EmptyString => [EmptyString]
  | String c s' =>
      if Ascii.eqb c sep then EmptyString :: split sep s'
      else match split sep s' with
           | [] => [String c EmptyString]
           | h :: t => String c h :: t
           end
  end.

(** [s.includes(pat)]; also [/pat/.test(s)] for a literal [pat]. *)
Fixpoint includes (pat s : string) : bool :=
  if String.prefix pat s then true
  else match s with
       | EmptyString => false
       | String _ s' => includes pat s'
       end.

Fixpoint drop (n : nat) (s : string) : string :=
  match n, s with
  | O, _ => s
  | S n', String _ s' => drop n' s'
  | S _, EmptyString => EmptyString
  end.

(** [s.replace(pat, rep)] with a string pattern: the first occurrence only. *)
Fixpoint replace (pat rep s : string) : string :=
  if String.prefix pat s then rep +:+ drop (String.length pat) s
  else match s with
       | EmptyString => EmptyString
       | String c s' => String c (replace pat rep s')
       end.

(** A value used as a condition: the empty string and [undefined] are falsy. *)
Definition truthy (s : option string) : bool :=
  match s with
  | Some EmptyString | None => false
  | Some _ => true
  end.

(** A value interpolated in a template string. *)
Definition show (s : option string) : string :=
  match s with
  | Some s => s
  | None => "undefined"
  end.

(** ** Objects used as mappings

    An object with string keys keeps its keys in insertion order (none of
    the keys written by the service is an array index), and an assignment
    to a key that is present replaces the value where it stands. *)
Section Obj.
Context {V : Type}.

Fixpoint set (k : string) (v : V) (o : list (string * V)) : list (string * V) :=
  match o with
  | [] => [(k, v)]
  | (k', v') :: o' =>
      if String.eqb k' k then (k, v) :: o' else (k', v') :: set k v o'
  end.

Fixpoint get (k : string) (o : list (string * V)) : option V :=
  match o with
  | [] => None
  | (k', v') :: o' => if String.eqb k' k then Some v' else get k o'
  end.

Definition keys (o : list (string * V)) : list string := map fst o.

(** A sequence of assignments [o[k] = v], as a loop over entries makes
    them. *)
Definition set_all (kept o : list (string * V)) : list (string * V) :=
  fold_left (fun acc (e : string * V) => set (fst e) (snd e) acc) kept o.
End Obj.

(** [arr.includes(x)] on an array of strings. *)
Definition mem (x : string) (l : list string) : bool :=
  existsb (String.eqb x) l.

End Js.

(** ** Data model *)

(** [ProductRequest] of bestPlanByRutenService. *)
Record ProductRequest := {
  productName : string;
  count : Z
}.

Record ProductRequestExtended := {
  ext_productName : string;
  ext_count : Z;
  rarities : list string;
  card_id : string;
  card_name : string;
  card_number : string
}.

(** What the data layer stores for a card, under the projection
    [{ rarity: 1, name: 1, number: 1 }]. *)
Record CardsDataType := {
  cd_name : string;
  cd_number : string;
  cd_rarity : list string
}.

(** A record of [RutenProductDetailListResponse.data]. *)
Record RutenProductDetail := {
  rp_name : string;
  goods_price : Z;
  num : Z;
  rp_id : string;
  user : string;
  rp_deliver_way : list (string * Z)
}.

Record ProdDetail := {
  price : Z;
  qtl : Z;
  id : string;
  shopId : string;
  deliver_way : list (string * Z)
}.

(** The value stored per product in a shop. *)
Record ProductEntry := {
  pe_id : string;
  pe_price : Z;
  pe_qtl : Z
}.

Record Shop := {
  shop_id : string;
  products : list (string * ProductEntry);
  shipPrices : list (string * Z);
  freeShip : list (string * Z)
}.

(** ** The constructor: the purchase limit *)

Definition clamp (x : ProductRequest) : ProductRequest :=
  {| productName := productName x; count := Z.min (count x) 3 |}.

Definition constructor_shoppingList (shoppingList : list ProductRequest) : list ProductRequest :=
  map clamp shoppingList.

(** ** extractShipPrices *)

Definition is_store_carrier (way : string) : bool :=
  Js.includes "SEVEN" way || Js.includes "FAMI" way || Js.includes "HILIFE" way.

Definition carrier_key (way : string) : string :=
  Js.replace "FAMI" "FAMILY" (Js.replace "_COD" "" way).

Definition extractShipPrices (deliverWay : list (string * Z)) : list (string * Z) :=
  fold_left
    (fun shipPrices '(way, fee) =>
       if is_store_carrier way then Js.set (carrier_key way) fee shipPrices
       else shipPrices)
    deliverWay [].


(** ** Collaborators

    The listing heuristics of [../utils] decide on a title; the service only
    combines their verdicts. *)

Class ListingHeuristics := {
  containsAllKeywords : string -> string -> bool;
  isIllegalProductChar : string -> bool;
  isFanMode : string -> bool;
  isUnopenedPackProduct : string -> bool;
  notContainsAnotherRarity : string -> string -> nat -> bool
}.

(** What is thrown, and what the error accumulator holds ([any[]]: thrown
    values and descriptive strings). *)
Inductive Exn :=
| Error (message : string)
| TypeError (message : string)
| Rejected (reason : string).

Inductive Logged :=
| LogExn (e : Exn)
| LogStr (s : string).

Inductive result (A : Type) :=
| Ok (a : A)
| Throw (e : Exn).
Arguments Ok {A} a.
Arguments Throw {A} e.

(** The body of a marketplace response, by the type it is read at.  An [Id]
    that is missing from a row is the empty string: both are falsy, and both
    join as the empty string. *)
Inductive Payload :=
| RutenShipListResponse (Rows : list string)
| RutenProductDetailListResponse (data : list RutenProductDetail)
| RutenStoreDetailResponse (user_id : string)
| ShipInfoResponse (discount_conditions : list (string * Z)).

(** The data layer and the marketplace.  Both answer from a state of their
    own, which every call may change; [None] is a request that fails. *)
Class Remote := {
  World : Type;
  dataAccess_find : World -> string -> option string -> World * result (list CardsDataType);
  axios_get : World -> string -> World * option Payload
}.

Record Service := {
  shoppingList : list ProductRequest;
  shoppingListExtended : list ProductRequestExtended;
  shopList : list Shop;
  errorHandler : list Logged
}.

Definition GetShopListByRutenService (shoppingList : list ProductRequest) : Service :=
  {| shoppingList := constructor_shoppingList shoppingList;
     shoppingListExtended := [];
     shopList := [];
     errorHandler := [] |}.

Definition set_shoppingListExtended (v : list ProductRequestExtended) (this : Service) : Service :=
  {| shoppingList := shoppingList this;
     shoppingListExtended := v;
     shopList := shopList this;
     errorHandler := errorHandler this |}.

Definition set_shopList (v : list Shop) (this : Service) : Service :=
  {| shoppingList := shoppingList this;
     shoppingListExtended := shoppingListExtended this;
     shopList := v;
     errorHandler := errorHandler this |}.

Definition push_error (e : Logged) (this : Service) : Service :=
  {| shoppingList := shoppingList this;
     shoppingListExtended := shoppingListExtended this;
     shopList := shopList this;
     errorHandler := errorHandler this ++ [e] |}.

Definition set_products (v : list (string * ProductEntry)) (s : Shop) : Shop :=
  {| shop_id := shop_id s; products := v;
     shipPrices := shipPrices s; freeShip := freeShip s |}.

Definition set_freeShip (v : list (string * Z)) (s : Shop) : Shop :=
  {| shop_id := shop_id s; products := products s;
     shipPrices := shipPrices s; freeShip := v |}.

(** ** getRutenApis *)

Inductive RutenApisType :=
| PROD_LIST (queryString : string)
| PROD_DETAIL_LIST (productId : string)
| SHOP_SHIP_INFO (shopId : string)
| SHOP_INFO (shopId : string)
| SHOP_PROD_LIST (shopId : string) (limit : Z) (targetProduct : string).

Definition baseApiUrl : string := "https://rtapi.ruten.com.tw/api".
Definition baseRapiUrl : string := "https://rapi.ruten.com.tw/api".

Definition getRutenApis (apiKeyWords : RutenApisType) : string :=
  match apiKeyWords with
  | PROD_LIST queryString =>
      baseApiUrl +:+ "/search/v3/index.php/core/prod?q=" +:+ queryString
        +:+ "&type=direct&sort=prc%2Fac&offset=1&limit=100"
  | PROD_DETAIL_LIST productId =>
      baseRapiUrl +:+ "/items/v2/list?gno=" +:+ productId +:+ "&level=simple"
  | SHOP_SHIP_INFO shopId =>
      baseRapiUrl +:+ "/shippingfee/v1/seller/" +:+ shopId +:+ "/event/discount"
  | SHOP_INFO shopId =>
      baseRapiUrl +:+ "/users/v1/index.php/" +:+ shopId +:+ "/storeinfo"
  | SHOP_PROD_LIST shopId limit targetProduct =>
      baseApiUrl +:+ "/search/v3/index.php/core/seller/" +:+ shopId
        +:+ "/prod?sort=prc/ac&limit=" +:+ pretty (Z.min limit 50)
        +:+ "&q=" +:+ targetProduct
  end.

(** ** filterProdDetail *)

Definition toProdDetail (x : RutenProductDetail) : ProdDetail :=
  {| price := goods_price x; qtl := num x; id := rp_id x;
     shopId := user x; deliver_way := rp_deliver_way x |}.

Section Filter.
Context `{ListingHeuristics}.

(** The four filters applied to every response. *)
Definition filterTitle (productName : string) (data : list RutenProductDetail)
  : list RutenProductDetail :=
  List.filter (fun x => isUnopenedPackProduct (rp_name x))
    (List.filter (fun x => isFanMode (rp_name x))
       (List.filter (fun x => isIllegalProductChar (rp_name x))
          (List.filter (fun x => containsAllKeywords (rp_name x) productName) data))).

(** The other known rarities: [rarities.filter(x => x !== nowRarity)]. *)
Definition otherRarities (rarities : list string) (nowRarity : string) : list string :=
  List.filter (fun x => negb (String.eqb x nowRarity)) rarities.

(** The loop over the other rarities. *)
Definition filterRarity (rarities : list string) (nowRarity : string)
    (survivors : list RutenProductDetail) : list RutenProductDetail :=
  fold_left
    (fun survivors rar =>
       List.filter
         (fun x => notContainsAnotherRarity (rp_name x) rar (length rarities))
         survivors)
    (otherRarities rarities nowRarity) survivors.

Definition filterProdDetail (shoppingListExtended : list ProductRequestExtended)
    (data : list RutenProductDetail) (productName : string) : list ProdDetail :=
  let rarities :=
    option_map rarities
      (List.find (fun x => String.eqb (ext_productName x) productName)
         shoppingListExtended) in
  let nowRarity := nth_error (Js.split "+" productName) 1 in
  let survivors := filterTitle productName data in
  let survivors :=
    match rarities, nowRarity with
    | Some rarities, Some nowRarity =>
        if Js.truthy (Some nowRarity) && (0 <? length rarities)%nat
        then filterRarity rarities nowRarity survivors
        else survivors
    | _, _ => survivors
    end in
  firstn 10 (map toProdDetail survivors).
End Filter.

(** ** addOrUpdateShop *)

Fixpoint findIndex_from {A : Type} (p : A -> bool) (l : list A) (i : Z) : Z :=
  match l with
  | [] => -1
  | x :: l' => if p x then i else findIndex_from p l' (i + 1)
  end.

Definition findIndex {A : Type} (p : A -> bool) (l : list A) : Z :=
  findIndex_from p l 0.

Definition productEntry (prodDetail : ProdDetail) : ProductEntry :=
  {| pe_id := id prodDetail; pe_price := price prodDetail; pe_qtl := qtl prodDetail |}.

(** Reading [shopList[idx]] at an index that holds nothing gives [undefined],
    and reading a property of it throws. *)
Definition addOrUpdateShop (shopList : list Shop) (prod : ProductRequestExtended)
    (prodDetail : ProdDetail) : result (Z * Shop) :=
  let idx := findIndex (fun x => String.eqb (shop_id x) (shopId prodDetail)) shopList in
  if idx =? -1 then
    Ok (idx,
        {| shop_id := shopId prodDetail;
           products := [(ext_productName prod, productEntry prodDetail)];
           shipPrices := extractShipPrices (deliver_way prodDetail);
           freeShip := [] |})
  else
    match shopList !! Z.to_nat idx with
    | Some shop =>
        Ok (idx,
            set_products
              (Js.set (ext_productName prod) (productEntry prodDetail) (products shop))
              shop)
    | None => Throw (TypeError "Cannot read properties of undefined (reading 'products')")
    end.

(** The caller's use of the answer: push a new shop, or replace the one at
    [idx]. *)
Definition putShop (shopList : list Shop) (idx : Z) (shop : Shop) : list Shop :=
  if idx =? -1 then shopList ++ [shop] else <[Z.to_nat idx := shop]> shopList.

(** ** setDefaultFreeShip *)

Definition sentinel : Z := 99999.

Definition setDefaultFreeShip (shopList : list Shop) (shopIdx : nat)
    : result (list (string * Z)) :=
  match shopList !! shopIdx with
  | Some shop => Ok [(Js.show (head (Js.keys (shipPrices shop))), sentinel)]
  | None => Throw (TypeError "Cannot read properties of undefined (reading 'shipPrices')")
  end.

Definition is_freeShip_carrier (freeShipType : string) : bool :=
  Js.includes "SEVEN" freeShipType || Js.includes "FAMILY" freeShipType
  || Js.includes "HILIFE" freeShipType.

(** The loop of getShipInfo over [Object.keys(discount_conditions)]. *)
Definition extractFreeShip (discount_conditions : list (string * Z)) : list (string * Z) :=
  fold_left
    (fun freeShip '(freeShipType, arrival_amount) =>
       if is_freeShip_carrier freeShipType
       then Js.set freeShipType arrival_amount freeShip
       else freeShip)
    discount_conditions [].

(** ** The service's methods

    An asynchronous method is a computation over the state of the remote
    world and the fields of the service, which ends with a value or with a
    thrown exception.  [await delay(150)] changes neither and is left out. *)

Section Aggregator.
Context `{Remote} `{ListingHeuristics}.

Definition St : Type := World * Service.
Definition M (A : Type) : Type := St -> result A * St.

Definition ret {A : Type} (a : A) : M A := fun st => (Ok a, st).

Definition bind {A B : Type} (m : M A) (f : A -> M B) : M B :=
  fun st =>
    match m st with
    | (Ok a, st') => f a st'
    | (Throw e, st') => (Throw e, st')
    end.

Definition throw {A : Type} (e : Exn) : M A := fun st => (Throw e, st).

Definition lift {A : Type} (r : result A) : M A := fun st => (r, st).

Definition try_catch {A : Type} (m : M A) (handler : Exn -> M A) : M A :=
  fun st =>
    match m st with
    | (Ok a, st') => (Ok a, st')
    | (Throw e, st') => handler e st'
    end.

Definition this : M Service := fun st => (Ok (snd st), st).

Definition update (f : Service -> Service) : M unit :=
  fun st => (Ok tt, (fst st, f (snd st))).

Definition await_axios_get (url : string) : M Payload :=
  fun st =>
    let (w, r) := axios_get (fst st) url in
    (match r with
     | Some p => Ok p
     | None => Throw (Rejected "axios: request failed")
     end, (w, snd st)).

Definition await_find (card_id : string) (rarity : option string)
  : M (list CardsDataType) :=
  fun st =>
    let (w, r) := dataAccess_find (fst st) card_id rarity in (r, (w, snd st)).

Local Notation "x <- m ;; k" := (bind m (fun x => k))
  (at level 100, m at next level, right associativity).
Local Notation "m ;;; k" := (bind m (fun _ => k))
  (at level 100, right associativity).

Fixpoint for_each {A : Type} (l : list A) (body : A -> M unit) : M unit :=
  match l with
  | [] => ret tt
  | x :: l' => body x ;;; for_each l' body
  end.

(** A loop that assigns to a local variable. *)
Fixpoint for_fold {A B : Type} (l : list A) (acc : B) (body : B -> A -> M B) : M B :=
  match l with
  | [] => ret acc
  | x :: l' => acc' <- body acc x ;; for_fold l' acc' body
  end.

(** [arr.entries()]. *)
Definition entries {A : Type} (l : list A) : list (nat * A) :=
  combine (seq 0 (length l)) l.

(** [Promise.allSettled]: every task runs to its end and its outcome is
    kept.  The tasks are started in index order; each has one request and
    is modelled as completing before the next one starts. *)
Fixpoint allSettled {A : Type} (tasks : list (M A)) : M (list (result A)) :=
  match tasks with
  | [] => ret []
  | task :: tasks' =>
      fun st =>
        let (r, st') := task st in
        (rs <- allSettled tasks' ;; ret (r :: rs)) st'
  end.

(** A response read at the type of one endpoint. *)
Definition Rows (p : Payload) : M (list string) :=
  match p with
  | RutenShipListResponse rows => ret rows
  | _ => throw (TypeError "Rows")
  end.

Definition data (p : Payload) : M (list RutenProductDetail) :=
  match p with
  | RutenProductDetailListResponse d => ret d
  | _ => throw (TypeError "data")
  end.

Definition store_user_id (p : Payload) : M string :=
  match p with
  | RutenStoreDetailResponse u => ret u
  | _ => throw (TypeError "user_id")
  end.

Definition discount_conditions (p : Payload) : M (list (string * Z)) :=
  match p with
  | ShipInfoResponse d => ret d
  | _ => throw (TypeError "discount_conditions")
  end.

(** *** Stage A: getProductRequestExtended *)

Definition extend (x : ProductRequest) : ProductRequestExtended :=
  {| ext_productName := productName x;
     ext_count := count x;
     rarities := [];
     card_id := default "" (head (Js.split "+" (productName x)));
     card_name := "";
     card_number := "" |}.

Definition resolved (prod : ProductRequestExtended) (cardData : CardsDataType)
  : ProductRequestExtended :=
  {| ext_productName := ext_productName prod;
     ext_count := ext_count prod;
     rarities := cd_rarity cardData;
     card_id := card_id prod;
     card_name := cd_name cardData;
     card_number := cd_number cardData |}.

(** One turn of the loop; [shopListExtend[p]] still is [prod] when it is
    spread. *)
Definition resolveProduct (shopListExtend : list ProductRequestExtended)
    (entry : nat * ProductRequestExtended) : M (list ProductRequestExtended) :=
  let '(p, prod) := entry in
  let rarity := nth_error (Js.split "+" (ext_productName prod)) 1 in
  found <- await_find (card_id prod) rarity ;;
  match head found with
  | None =>
      throw (Error ("Card data not found for " +:+ card_id prod +:+ " "
                      +:+ Js.show rarity))
  | Some cardData => ret (<[p := resolved prod cardData]> shopListExtend)
  end.

Definition getProductRequestExtended : M (list ProductRequestExtended) :=
  t <- this ;;
  let shopListExtend := map extend (shoppingList t) in
  for_fold (entries shopListExtend) shopListExtend resolveProduct.

(** *** Stage B: findProductList *)

Definition findProductList (prod : ProductRequestExtended) : M (list ProdDetail) :=
  try_catch
    (res <- await_axios_get (getRutenApis (PROD_LIST (ext_productName prod))) ;;
     prodListRes <- Rows res ;;
     if (length prodListRes =? 0)%nat then ret []
     else
       res' <- await_axios_get
                 (getRutenApis (PROD_DETAIL_LIST (String.concat "," prodListRes))) ;;
       prodDetailListRes <- data res' ;;
       t <- this ;;
       ret (filterProdDetail (shoppingListExtended t) prodDetailListRes
              (ext_productName prod)))
    (fun _ =>
       throw (Error ("Error while getting product list for " +:+ ext_productName prod))).

(** The body of the loop over [prodList]. *)
Definition mergeProdDetail (prod : ProductRequestExtended) (prodDetail : ProdDetail)
  : M unit :=
  t <- this ;;
  r <- lift (addOrUpdateShop (shopList t) prod prodDetail) ;;
  update (set_shopList (putShop (shopList t) (fst r) (snd r))).

Definition discoverOffers (prod : ProductRequestExtended) : M unit :=
  try_catch
    (prodList <- findProductList prod ;;
     for_each prodList (mergeProdDetail prod))
    (fun error => update (push_error (LogExn error))).

(** *** Stage C: findShopHasAnotherProduct *)

Record SopIdList := { sop_name : string; sop_id : string }.

Definition getShopId (shopName : string) : M string :=
  try_catch
    (res <- await_axios_get (getRutenApis (SHOP_INFO shopName)) ;;
     store_user_id res)
    (fun _ => throw (Error ("Error while getting product list for " +:+ shopName))).

Definition getShopOtherProductInfo (shopId targetProduct : string) : M ProductEntry :=
  try_catch
    (res <- await_axios_get (getRutenApis (SHOP_PROD_LIST shopId 50 targetProduct)) ;;
     prodInfoRes <- Rows res ;;
     match prodInfoRes with
     | [] => ret {| pe_id := ""; pe_price := 0; pe_qtl := 0 |}
     | prod_id :: _ =>
         if negb (Js.truthy (Some prod_id))
         then ret {| pe_id := ""; pe_price := 0; pe_qtl := 0 |}
         else
           res' <- await_axios_get (getRutenApis (PROD_DETAIL_LIST prod_id)) ;;
           details <- data res' ;;
           match head details with
           | Some prodDetailRes =>
               ret {| pe_id := rp_id prodDetailRes;
                      pe_price := goods_price prodDetailRes;
                      pe_qtl := num prodDetailRes |}
           | None => throw (TypeError "Cannot read properties of undefined (reading 'id')")
           end
     end)
    (fun _ =>
       throw (Error ("Error while getting other product info for " +:+ shopId
                       +:+ " " +:+ targetProduct))).

(** The inner loop: one missing product of the shop at [idx] of the local
    copy of the shop list. *)
Definition addOtherProduct (idx : nat) (shopId : string) (copy : list Shop)
    (prod : string) : M (list Shop) :=
  try_catch
    (prodDetail <- getShopOtherProductInfo shopId prod ;;
     if negb (String.eqb (pe_id prodDetail) "") then
       match copy !! idx with
       | Some shop =>
           ret (<[idx := set_products (Js.set prod prodDetail (products shop)) shop]>
                  copy)
       | None =>
           throw (TypeError "Cannot read properties of undefined (reading 'products')")
       end
     else ret copy)
    (fun error => update (push_error (LogExn error)) ;;; ret copy).

(** The products still to look for in a shop: those of the shopping list
    that [this.shopList] does not hold for the shop of that name. *)
Definition targetProducts (t : Service) (shopName : string) : list string :=
  let shopHasProdList :=
    Js.keys
      (match List.find (fun x => String.eqb (shop_id x) shopName) (shopList t) with
       | Some x => products x
       | None => []
       end) in
  List.filter (fun x => negb (Js.mem x shopHasProdList))
    (map productName (shoppingList t)).

(** The outer loop: one shop.  The canonical seller id is stored in
    [shopIdList[idx].id] and read back in the inner loop only. *)
Definition probeShop (copy : list Shop) (entry : nat * SopIdList) : M (list Shop) :=
  let '(idx, shop) := entry in
  fun st =>
    match getShopId (sop_name shop) st with
    | (Throw error, st') => (update (push_error (LogExn error)) ;;; ret copy) st'
    | (Ok seller, st') =>
        (t <- this ;;
         let targetProduct := targetProducts t (sop_name shop) in
         if negb (length targetProduct =? 0)%nat
         then for_fold targetProduct copy (addOtherProduct idx seller)
         else ret copy) st'
    end.

(** [shopList] is a deep copy of [this.shopList]: the loop writes to the
    copy and reads the products a shop already has from [this.shopList]. *)
Definition findShopHasAnotherProduct (shopIdList : list SopIdList) : M (list Shop) :=
  t <- this ;;
  for_fold (entries shopIdList) (shopList t) probeShop.

(** *** Stage D: getShipInfo *)

Definition getShipInfo (shop : Shop) (idx : nat) : M (list (string * Z)) :=
  try_catch
    (res <- await_axios_get (getRutenApis (SHOP_SHIP_INFO (shop_id shop))) ;;
     conditions <- discount_conditions res ;;
     let freeShip := extractFreeShip conditions in
     if (length (Js.keys freeShip) =? 0)%nat
     then t <- this ;; lift (setDefaultFreeShip (shopList t) idx)
     else ret freeShip)
    (fun _ =>
       update (push_error
                 (LogStr ("Error while getting ships info for " +:+ shop_id shop))) ;;;
       t <- this ;;
       lift (setDefaultFreeShip (shopList t) idx)).

(** [this.shopList[idx].freeShip = value]. *)
Definition assignFreeShip (idx : nat) (value : list (string * Z)) : M unit :=
  t <- this ;;
  match shopList t !! idx with
  | Some shop => update (set_shopList (<[idx := set_freeShip value shop]> (shopList t)))
  | None => throw (TypeError "Cannot set properties of undefined (setting 'freeShip')")
  end.

(** The callback of [shopResults.forEach]. *)
Definition settleShop (entry : nat * result (list (string * Z))) : M unit :=
  let '(idx, r) := entry in
  match r with
  | Ok value => assignFreeShip idx value
  | Throw reason =>
      t <- this ;;
      value <- lift (setDefaultFreeShip (shopList t) idx) ;;
      assignFreeShip idx value ;;;
      update (push_error (LogExn reason))
  end.

Definition shippingIncentives : M unit :=
  t <- this ;;
  shopResults <-
    allSettled (map (fun '(idx, shop) => getShipInfo shop idx) (entries (shopList t))) ;;
  for_each (entries shopResults) settleShop.

(** *** getShopList *)

Definition crossSell : M unit :=
  t <- this ;;
  let shopIdList := map (fun x => {| sop_name := shop_id x; sop_id := "" |}) (shopList t) in
  found <- findShopHasAnotherProduct shopIdList ;;
  update (set_shopList found).

Definition getShopList : M (list Shop) :=
  fun st =>
    match getProductRequestExtended st with
    | (Throw error, st') => (update (push_error (LogExn error)) ;;; ret []) st'
    | (Ok extended, st') =>
        (update (set_shoppingListExtended extended) ;;;
         t <- this ;;
         for_each (shoppingListExtended t) discoverOffers ;;;
         crossSell ;;;
         shippingIncentives ;;;
         t <- this ;;
         ret (shopList t)) st'
    end.
End Aggregator.

(** ** Reading the filter and the carrier table as specifications *)

(** The entries of a fee mapping that extractShipPrices looks at, each under
    its normalised key. *)
Definition keptShipPrices (deliverWay : list (string * Z)) : list (string * Z) :=
  map (fun e => (carrier_key (fst e), snd e))
    (List.filter (fun e => is_store_carrier (fst e)) deliverWay).

Section FilterSpec.
Context `{ListingHeuristics}.

(** The rarity stage of filterProdDetail, on the survivors of the four
    title filters. *)
Definition disambiguate (shoppingListExtended : list ProductRequestExtended)
    (productName : string) (survivors : list RutenProductDetail)
  : list RutenProductDetail :=
  match
    option_map rarities
      (List.find (fun x => String.eqb (ext_productName x) productName)
         shoppingListExtended),
    nth_error (Js.split "+" productName) 1
  with
  | Some rarities, Some nowRarity =>
      if Js.truthy (Some nowRarity) && (0 <? length rarities)%nat
      then filterRarity rarities nowRarity survivors
      else survivors
  | _, _ => survivors
  end.

(** The verdict of the rarity stage on one listing. *)
Definition rarityOk (shoppingListExtended : list ProductRequestExtended)
    (productName : string) (x : RutenProductDetail) : bool :=
  match
    option_map rarities
      (List.find (fun x => String.eqb (ext_productName x) productName)
         shoppingListExtended),
    nth_error (Js.split "+" productName) 1
  with
  | Some rarities, Some nowRarity =>
      if Js.truthy (Some nowRarity) && (0 <? length rarities)%nat
      then forallb
             (fun rar => notContainsAnotherRarity (rp_name x) rar (length rarities))
             (otherRarities rarities nowRarity)
      else true
  | _, _ => true
  end.

(** A listing survives when it passes the five stages, in their order. *)
Definition survives (shoppingListExtended : list ProductRequestExtended)
    (productName : string) (x : RutenProductDetail) : bool :=
  containsAllKeywords (rp_name x) productName
  && isIllegalProductChar (rp_name x)
  && isFanMode (rp_name x)
  && isUnopenedPackProduct (rp_name x)
  && rarityOk shoppingListExtended productName x.
End FilterSpec.

(** ** Relations between shop lists

    What a later state of the shop list keeps of an earlier one. *)

(** The same shop, holding at least the products it held. *)
Definition shop_le (s s' : Shop) : Prop :=
  shop_id s' = shop_id s
  /\ shipPrices s' = shipPrices s
  /\ forall k, k ∈ Js.keys (products s) -> k ∈ Js.keys (products s').

(** Every shop of [l] is still in [l']. *)
Definition covers (l l' : list Shop) : Prop :=
  forall s, s ∈ l -> exists s', s' ∈ l' /\ shop_le s s'.

(** The same shop but for its free-shipping thresholds. *)
Definition same_offers (s s' : Shop) : Prop :=
  shop_id s' = shop_id s /\ products s' = products s /\ shipPrices s' = shipPrices s.

(** A later state of the service: the lists of requests are the same, the
    error accumulator has only grown, every shop is still there, and unique
    ids have stayed unique. *)
Definition grows (t t' : Service) : Prop :=
  shoppingList t' = shoppingList t
  /\ shoppingListExtended t' = shoppingListExtended t
  /\ (exists more, errorHandler t' = errorHandler t ++ more)
  /\ covers (shopList t) (shopList t')
  /\ (NoDup (map shop_id (shopList t)) -> NoDup (map shop_id (shopList t'))).

(** A state of the service that differs from an earlier one by what was
    pushed on the error accumulator only. *)
Definition logs_only (t t' : Service) : Prop :=
  shoppingList t' = shoppingList t
  /\ shoppingListExtended t' = shoppingListExtended t
  /\ shopList t' = shopList t
  /\ exists more, errorHandler t' = errorHandler t ++ more.

(** A shop after the cross-sell probe: the same shop, with products added
    under names the probe was looking for. *)
Definition probed (t : Service) (s s' : Shop) : Prop :=
  shop_id s' = shop_id s
  /\ shipPrices s' = shipPrices s
  /\ freeShip s' = freeShip s
  /\ exists added,
       products s' = Js.set_all added (products s)
       /\ Forall (fun e => fst e ∈ targetProducts t (shop_id s)) added.

(** An extended request carries the name and the count of its request. *)
Definition extends_request (x : ProductRequest) (e : ProductRequestExtended) : Prop :=
  ext_productName e = productName x /\ ext_count e = count x.

(** The fallback of a shop, and what Stage D can leave in [freeShip]: the
    fallback, or thresholds of recognised carriers, at least one. *)
Definition defaultFreeShip (s : Shop) : list (string * Z) :=
  [(Js.show (head (Js.keys (shipPrices s))), sentinel)].

Definition recognizedFreeShip (r : option Payload) : list (string * Z) :=
  match r with
  | Some (ShipInfoResponse conditions) => extractFreeShip conditions
  | _ => []
  end.

Definition fetched (r : option Payload) : bool :=
  match r with
  | Some (ShipInfoResponse _) => true
  | _ => false
  end.

Definition settledFreeShip (s : Shop) (v : list (string * Z)) : Prop :=
  v = defaultFreeShip s
  \/ (v <> [] /\ Forall (fun k => is_freeShip_carrier k = true) (Js.keys v)).

(** ** A marketplace of tables

    A world without state: the data layer answers from a table of cards, the
    marketplace from a table of pages; what is in neither fails. *)

Module Tables.

(** A card answers a query when it has the id and one of its rarities is
    the rarity asked for. *)
Definition find_card (cards : list (string * CardsDataType)) (card_id : string)
    (rarity : option string) : result (list CardsDataType) :=
  Ok (map snd
        (List.filter
           (fun c => String.eqb (fst c) card_id
                     && existsb (String.eqb (Js.show rarity)) (cd_rarity (snd c)))
           cards)).

Definition remote (cards : list (string * CardsDataType))
    (pages : list (string * Payload)) : Remote :=
  {| World := unit;
     dataAccess_find := fun w card_id rarity => (w, find_card cards card_id rarity);
     axios_get := fun w url => (w, Js.get url pages) |}.

(** Heuristics that read a title the simplest way: the card id must occur
    in it, and another rarity must not. *)
Definition heuristics : ListingHeuristics :=
  {| containsAllKeywords := fun name productName =>
       forallb (fun kw => Js.includes kw name) (Js.split "+" productName);
     isIllegalProductChar := fun _ => true;
     isFanMode := fun _ => true;
     isUnopenedPackProduct := fun _ => true;
     notContainsAnotherRarity := fun name rar _ => negb (Js.includes rar name) |}.

Definition cards : list (string * CardsDataType) :=
  [("12345", {| cd_name := "X"; cd_number := "001"; cd_rarity := ["UR"; "SR"] |});
   ("777", {| cd_name := "Y"; cd_number := "002"; cd_rarity := ["N"] |});
   ("999", {| cd_name := "Z"; cd_number := "003"; cd_rarity := ["N"] |})].

Definition L1 : RutenProductDetail :=
  {| rp_name := "12345 UR single"; goods_price := 100; num := 2; rp_id := "L1";
     user := "shopA";
     rp_deliver_way := [("SEVEN", 60); ("SEVEN_COD", 65); ("POST", 80)] |}.

Definition L2 : RutenProductDetail :=
  {| rp_name := "12345 UR SR set"; goods_price := 120; num := 1; rp_id := "L2";
     user := "shopB"; rp_deliver_way := [("FAMI", 60)] |}.

Definition L3 : RutenProductDetail :=
  {| rp_name := "777 N"; goods_price := 10; num := 9; rp_id := "L3";
     user := "shopC"; rp_deliver_way := [("POST", 80)] |}.

Definition pages : list (string * Payload) :=
  [(getRutenApis (PROD_LIST "12345+UR"), RutenShipListResponse ["L1"; "L2"]);
   (getRutenApis (PROD_DETAIL_LIST "L1,L2"), RutenProductDetailListResponse [L1; L2]);
   (getRutenApis (PROD_LIST "777+N"), RutenShipListResponse ["L3"]);
   (getRutenApis (PROD_DETAIL_LIST "L3"), RutenProductDetailListResponse [L3]);
   (getRutenApis (SHOP_INFO "shopA"), RutenStoreDetailResponse "1001");
   (getRutenApis (SHOP_PROD_LIST "1001" 50 "777+N"), RutenShipListResponse ["L4"]);
   (getRutenApis (SHOP_SHIP_INFO "shopA"),
    ShipInfoResponse [("SEVEN", 1500); ("POST", 3000)])].

(** Three shopping lists: one whose second item has no search page, one
    whose second item is not a card, and one whose only listing declares
    no convenience-store carrier. *)
Definition partial : list ProductRequest :=
  [{| productName := "12345+UR"; count := 5 |}; {| productName := "999+N"; count := 1 |}].

Definition unresolved : list ProductRequest :=
  [{| productName := "12345+UR"; count := 5 |}; {| productName := "888+N"; count := 1 |}].

Definition postOnly : list ProductRequest :=
  [{| productName := "777+N"; count := 1 |}].

(** Whether the data layer has a card for an item. *)
Definition resolves (x : ProductRequest) : bool :=
  match find_card cards (card_id (extend x))
          (nth_error (Js.split "+" (productName x)) 1) with
  | Ok (_ :: _) => true
  | _ => false
  end.

Definition extendedUR : ProductRequestExtended :=
  {| ext_productName := "12345+UR"; ext_count := 3; rarities := ["UR"; "SR"];
     card_id := "12345"; card_name := "X"; card_number := "001" |}.

Definition shopA : Shop :=
  {| shop_id := "shopA";
     products := [("12345+UR", {| pe_id := "L1"; pe_price := 100; pe_qtl := 2 |})];
     shipPrices := [("SEVEN", 65)];
     freeShip := [] |}.

(** The service after Stage B on the first item. *)
Definition discovered : Service :=
  {| shoppingList := constructor_shoppingList partial;
     shoppingListExtended := [];
     shopList := [shopA];
     errorHandler := [] |}.

Definition run (cards : list (string * CardsDataType)) (pages : list (string * Payload))
    (shoppingList : list ProductRequest) : result (list Shop) * Service :=
  let r := @getShopList (remote cards pages) heuristics
             (tt, GetShopListByRutenService shoppingList) in
  (fst r, snd (snd r)).

End Tables.


(** ** The loops of the service as functions of the shop list *)

(** The body of the loop of Stage B over the listings of one item: the shop
    list after addOrUpdateShop and the caller's push or replacement. *)
Definition mergeListing (prod : ProductRequestExtended) (l : list Shop) (d : ProdDetail)
  : list Shop :=
  match addOrUpdateShop l prod d with
  | Ok r => putShop l (fst r) (snd r)
  | Throw _ => l
  end.

Definition mergeListings (prod : ProductRequestExtended) (ds : list ProdDetail)
    (l : list Shop) : list Shop :=
  fold_left (mergeListing prod) ds l.

(** The shop that addOrUpdateShop makes for a listing of a new shop. *)
Definition newShop (prod : ProductRequestExtended) (d : ProdDetail) : Shop :=
  {| shop_id := shopId d;
     products := [(ext_productName prod, productEntry d)];
     shipPrices := extractShipPrices (deliver_way d);
     freeShip := [] |}.

(** ** More tables *)

Module Samples.

(** A second listing of shopA, a listing of another shop, and a listing the
    shop of seller 1001 has for the second item. *)
Definition again : ProdDetail :=
  {| price := 150; qtl := 1; id := "L9"; shopId := "shopA";
     deliver_way := [("FAMI", 60)] |}.

Definition other : ProdDetail :=
  {| price := 90; qtl := 4; id := "L8"; shopId := "shopB";
     deliver_way := [("HILIFE_COD", 55)] |}.

Definition L4 : RutenProductDetail :=
  {| rp_name := "777 N"; goods_price := 12; num := 3; rp_id := "L4";
     user := "shopA"; rp_deliver_way := [("SEVEN", 60)] |}.

(** Seller 1001 has the item 777+N and has no row for 999+N. *)
Definition pages : list (string * Payload) :=
  [(getRutenApis (SHOP_INFO "shopA"), RutenStoreDetailResponse "1001");
   (getRutenApis (SHOP_PROD_LIST "1001" 50 "777+N"), RutenShipListResponse ["L4"]);
   (getRutenApis (PROD_DETAIL_LIST "L4"), RutenProductDetailListResponse [L4]);
   (getRutenApis (SHOP_PROD_LIST "1001" 50 "999+N"), RutenShipListResponse []);
   (getRutenApis (PROD_LIST "999+N"), RutenShipListResponse []);
   (getRutenApis (SHOP_SHIP_INFO "shopA"),
    ShipInfoResponse [("SEVEN", 1500); ("POST", 3000); ("FAMILY", 1200)])].

Definition remote : Remote := Tables.remote Tables.cards pages.

(** A service whose only shop has the only item of its shopping list. *)
Definition stocked : Service :=
  {| shoppingList := [{| productName := "12345+UR"; count := 3 |}];
     shoppingListExtended := [Tables.extendedUR];
     shopList := [Tables.shopA];
     errorHandler := [] |}.

End Samples.

(** ** Occurrences of one pattern inside another *)

(** Two strings agree when one is a prefix of the other. *)
Fixpoint agrees (a b : string) : bool :=
  match a, b with
  | String x a', String y b' => Ascii.eqb x y && agrees a' b'
  | _, _ => true
  end.

(** The non-empty suffixes of a string. *)
Fixpoint suffixes (s : string) : list string :=
  match s with
  | EmptyString => []
  | String _ s' => s :: suffixes s'
  end.

(** No occurrence of [pat] starts inside an occurrence of [p]. *)
Definition apart (pat p : string) : bool :=
  forallb (fun q => negb (agrees pat q)) (suffixes p).

(** Two requests are for the same endpoint. *)
Definition sameEndpoint (a b : RutenApisType) : bool :=
  match a, b with
  | PROD_LIST _, PROD_LIST _
  | PROD_DETAIL_LIST _, PROD_DETAIL_LIST _
  | SHOP_SHIP_INFO _, SHOP_SHIP_INFO _
  | SHOP_INFO _, SHOP_INFO _
  | SHOP_PROD_LIST _ _ _, SHOP_PROD_LIST _ _ _ => true
  | _, _ => false
  end.

(** ** What the stages push on the error accumulator *)

(** The three kinds of entries of Stages B, C and D: the error of a search
    (of an item, or of a seller id, which has the same message), the error
    of a cross-sell fetch, and the string of a shipping fetch. *)
Definition stageError (e : Logged) : Prop :=
  (exists name, e = LogExn (Error ("Error while getting product list for " +:+ name)))
  \/ (exists seller prod,
        e = LogExn (Error ("Error while getting other product info for " +:+ seller
                             +:+ " " +:+ prod)))
  \/ (exists shop, e = LogStr ("Error while getting ships info for " +:+ shop)).

(** The accumulator of [t'] is the one of [t] with entries of these kinds
    after it. *)
Definition appends (t t' : Service) : Prop :=
  exists more, errorHandler t' = errorHandler t ++ more /\ Forall stageError more.

(** A shop whose products and fees are mappings: no name twice. *)
Definition wellKeyed (s : Shop) : Prop :=
  NoDup (Js.keys (products s)) /\ NoDup (Js.keys (shipPrices s)).

(** ** The loop of Stage C, shop by shop *)

(** The list of names that getShopList hands to findShopHasAnotherProduct. *)
Definition shopIdList (l : list Shop) : list SopIdList :=
  map (fun x => {| sop_name := shop_id x; sop_id := "" |}) l.

(** A later copy of the shop list in which only the shop at [idx] has
    changed, and only by products under the [names]: it holds every name it
    held and has the entries it had under every other name. *)
Definition grown_at (idx : nat) (names : list string) (copy copy' : list Shop) : Prop :=
  (forall j, j <> idx -> copy' !! j = copy !! j)
  /\ forall c, copy !! idx = Some c ->
       exists c', copy' !! idx = Some c'
                  /\ (forall k, k ∈ Js.keys (products c) -> k ∈ Js.keys (products c'))
                  /\ (forall k, k ∉ names ->
                        Js.get k (products c') = Js.get k (products c)).

(** ** Tactics for running the methods *)

Ltac unfold_m :=
  unfold bind, ret, throw, lift, try_catch, this, update, await_axios_get, await_find,
    Rows, data, store_user_id, discount_conditions in *.

Ltac break_match :=
  match goal with
  | H : context [match ?x with _ => _ end] |- _ => destruct x eqn:?
  | |- context [match ?x with _ => _ end] => destruct x eqn:?
  end.

Ltac inv_pair :=
  match goal with
  | H : (_, _) = (_, _) |- _ => inversion H; subst; clear H
  end.

(** ** Objects as mappings: assignment and lookup *)

Section ObjFacts.
Context {V : Type}.
Implicit Types (o kept : list (string * V)) (k : string) (v : V).

Lemma get_set_eq k v o : Js.get k (Js.set k v o) = Some v.
Proof.
  induction o as [|[k' v'] o IH]; simpl.
  - by rewrite String.eqb_refl.
  - destruct (String.eqb_spec k' k) as [->|Hne]; simpl.
    + by rewrite String.eqb_refl.
    + destruct (String.eqb_spec k' k); [done | exact IH].
Qed.

Lemma get_set_ne k k' v o : k <> k' -> Js.get k' (Js.set k v o) = Js.get k' o.
Proof.
  intros Hne. induction o as [|[k0 v0] o IH]; simpl.
  - destruct (String.eqb_spec k k'); [done | done].
  - destruct (String.eqb_spec k0 k) as [->|Hk0]; simpl.
    + destruct (String.eqb_spec k k'); [done | done].
    + destruct (String.eqb_spec k0 k'); [done | exact IH].
Qed.

Lemma get_Some_keys k o : is_Some (Js.get k o) <-> k ∈ Js.keys o.
Proof.
  induction o as [|[k0 v0] o IH]; simpl.
  - split; [intros [? ?]; done | intros Hin; inversion Hin].
  - destruct (String.eqb_spec k0 k) as [->|Hk0].
    + split; [intros _; left | intros _; eauto].
    + rewrite IH. split.
      * intros Hin; by right.
      * intros Hin. inversion Hin; subst; [done | done].
Qed.

Lemma get_None_keys k o : Js.get k o = None <-> k ∉ Js.keys o.
Proof.
  rewrite <- get_Some_keys. destruct (Js.get k o) as [v|].
  - split; [done|]. intros Hn. exfalso. apply Hn. eauto.
  - split; [|done]. intros _ [? ?]. done.
Qed.

Lemma get_app k o1 o2 :
  Js.get k (o1 ++ o2) =
    match Js.get k o1 with Some v => Some v | None => Js.get k o2 end.
Proof.
  induction o1 as [|[k0 v0] o1 IH]; simpl; [done|].
  destruct (String.eqb k0 k); [done | exact IH].
Qed.

Lemma set_present k v o : k ∈ Js.keys o -> Js.keys (Js.set k v o) = Js.keys o.
Proof.
  induction o as [|[k0 v0] o IH]; simpl; intros Hin.
  - inversion Hin.
  - destruct (String.eqb_spec k0 k) as [->|Hk0]; simpl; [done|].
    f_equal. apply IH. inversion Hin; subst; [done | done].
Qed.

Lemma set_absent k v o : k ∉ Js.keys o -> Js.set k v o = o ++ [(k, v)].
Proof.
  induction o as [|[k0 v0] o IH]; simpl; intros Hin; [done|].
  destruct (String.eqb_spec k0 k) as [->|Hk0].
  - exfalso. apply Hin. left.
  - f_equal. apply IH. intros Hk. apply Hin. by right.
Qed.

Lemma keys_set_mono k k' v o : k' ∈ Js.keys o -> k' ∈ Js.keys (Js.set k v o).
Proof.
  intros Hin. apply get_Some_keys. apply get_Some_keys in Hin.
  destruct (String.eqb_spec k k') as [->|Hne].
  - rewrite get_set_eq. eauto.
  - by rewrite get_set_ne.
Qed.

Lemma keys_set_in k v o : k ∈ Js.keys (Js.set k v o).
Proof. apply get_Some_keys. rewrite get_set_eq. eauto. Qed.

Lemma NoDup_keys_set k v o : NoDup (Js.keys o) -> NoDup (Js.keys (Js.set k v o)).
Proof.
  intros Hnd. destruct (decide (k ∈ Js.keys o)) as [Hin|Hout].
  - by rewrite set_present.
  - rewrite set_absent by done. unfold Js.keys. rewrite map_app. simpl.
    apply NoDup_app. split; [exact Hnd|]. split.
    + intros x Hx Hx'. apply list_elem_of_singleton in Hx'. subst. by apply Hout.
    + apply NoDup_singleton.
Qed.

Lemma head_keys_set k v o :
  head (Js.keys (Js.set k v o)) = head (Js.keys (o ++ [(k, v)])).
Proof.
  destruct o as [|[k0 v0] o]; simpl; [done|].
  destruct (String.eqb_spec k0 k) as [->|Hk0]; done.
Qed.

Lemma NoDup_keys_set_all kept o : NoDup (Js.keys o) -> NoDup (Js.keys (Js.set_all kept o)).
Proof.
  revert o. induction kept as [|[k v] kept IH]; intros o Hnd; simpl; [done|].
  apply IH. by apply NoDup_keys_set.
Qed.

Lemma get_set_all k kept o :
  Js.get k (Js.set_all kept o) =
    match Js.get k (rev kept) with Some v => Some v | None => Js.get k o end.
Proof.
  revert o. induction kept as [|[k0 v0] kept IH]; intros o; simpl; [done|].
  rewrite IH, get_app. destruct (Js.get k (rev kept)); [done|]. simpl.
  destruct (String.eqb_spec k0 k) as [->|Hne].
  - apply get_set_eq.
  - by apply get_set_ne.
Qed.

Lemma head_keys_set_all kept o :
  head (Js.keys (Js.set_all kept o)) = head (Js.keys (o ++ kept)).
Proof.
  revert o. induction kept as [|[k v] kept IH]; intros o; simpl.
  - by rewrite app_nil_r.
  - rewrite IH. unfold Js.keys. rewrite !map_app.
    pose proof (head_keys_set k v o) as Hh. unfold Js.keys in Hh.
    rewrite map_app in Hh. simpl in *.
    destruct (map fst (Js.set k v o)) as [|a l] eqn:E.
    + destruct o as [|[k0 v0] o]; simpl in E; [done|].
      destruct (String.eqb k0 k); done.
    + simpl in *. destruct (map fst o); simpl in *; congruence.
Qed.

Lemma set_all_distinct kept o :
  NoDup (Js.keys (o ++ kept)) -> Js.set_all kept o = o ++ kept.
Proof.
  revert o. induction kept as [|[k v] kept IH]; intros o Hnd; simpl.
  - by rewrite app_nil_r.
  - assert (Hk : k ∉ Js.keys o).
    { intros Hin. unfold Js.keys in *. rewrite map_app in Hnd.
      apply NoDup_app in Hnd as (_ & Hd & _). apply (Hd k Hin). simpl. left. }
    rewrite set_absent by done.
    rewrite IH; rewrite <- app_assoc; simpl; done.
Qed.
End ObjFacts.

(** ** The purchase limit *)

Lemma clamp_count (x : ProductRequest) :
  count (clamp x) = if 3 <? count x then 3 else count x.
Proof. unfold clamp; simpl. destruct (Z.ltb_spec 3 (count x)); lia. Qed.

(** ** extractShipPrices *)

Lemma extractShipPrices_set_all (deliverWay : list (string * Z)) :
  extractShipPrices deliverWay = Js.set_all (keptShipPrices deliverWay) [].
Proof.
  unfold extractShipPrices, keptShipPrices. generalize (@nil (string * Z)) as acc.
  induction deliverWay as [|[way fee] dw IH]; intros acc; simpl; [done|].
  destruct (is_store_carrier way); simpl; apply IH.
Qed.

(** C9, as the code has it: extractShipPrices looks at exactly the entries
    whose key contains SEVEN, FAMI or HILIFE, each under its normalised key
    (the first "_COD" removed, then the first "FAMI" replaced by "FAMILY"),
    and drops the others.  The result has each normalised key once; the fee
    under a key is the fee of the last entry that normalises to it; the first
    key is the one of the first entry kept; and when the normalised keys are
    pairwise distinct the result is these entries, in their order, each with
    its own fee. *)
Theorem extractShipPrices_merges (deliverWay : list (string * Z)) :
  NoDup (Js.keys (extractShipPrices deliverWay))
  /\ (forall k, Js.get k (extractShipPrices deliverWay)
                = Js.get k (rev (keptShipPrices deliverWay)))
  /\ head (Js.keys (extractShipPrices deliverWay))
     = head (Js.keys (keptShipPrices deliverWay))
  /\ (NoDup (Js.keys (keptShipPrices deliverWay)) ->
      extractShipPrices deliverWay = keptShipPrices deliverWay).
Proof.
  rewrite extractShipPrices_set_all. repeat split.
  - apply NoDup_keys_set_all. constructor.
  - intros k. rewrite get_set_all. by destruct (Js.get k (rev _)).
  - by rewrite head_keys_set_all.
  - intros Hnd. by rewrite set_all_distinct.
Qed.

Lemma extractShipPrices_merges_witness :
  extractShipPrices [("SEVEN", 60); ("POST", 80); ("FAMI_COD", 70)]
  = [("SEVEN", 60); ("FAMILY", 70)].
Proof.
  destruct (extractShipPrices_merges [("SEVEN", 60); ("POST", 80); ("FAMI_COD", 70)])
    as (_ & _ & _ & Heq).
  rewrite Heq; [reflexivity|].
  vm_compute. repeat constructor; intros Hin; inversion Hin; subst; inversion H1.
Defined.

(** C9, as stated, fails: an entry whose key is a recognised carrier is not
    always retained with its fee.  SEVEN and SEVEN_COD normalise to the same
    key, and the fee of the first is lost. *)
Lemma extractShipPrices_loses_entry :
  ~ (forall deliverWay way fee,
        (way, fee) ∈ deliverWay -> is_store_carrier way = true ->
        exists k, (k, fee) ∈ extractShipPrices deliverWay).
Proof.
  intros Hclaim.
  destruct (Hclaim [("SEVEN", 60); ("SEVEN_COD", 65)] "SEVEN" 60) as [k Hk].
  - left.
  - reflexivity.
  - vm_compute in Hk. apply list_elem_of_singleton in Hk. discriminate.
Qed.

(** ** The listing filter *)

Lemma filter_filter_andb {A : Type} (p q : A -> bool) (l : list A) :
  List.filter p (List.filter q l) = List.filter (fun x => q x && p x) l.
Proof.
  induction l as [|x l IH]; simpl; [done|].
  destruct (q x); simpl; [destruct (p x)|]; by rewrite IH.
Qed.

Lemma fold_left_filter {A R : Type} (f : R -> A -> bool) (rs : list R) (l : list A) :
  fold_left (fun l r => List.filter (f r) l) rs l
  = List.filter (fun x => forallb (fun r => f r x) rs) l.
Proof.
  revert l. induction rs as [|r rs IH]; intros l; simpl.
  - induction l as [|x l IHl]; simpl; [done | by rewrite <- IHl].
  - by rewrite IH, filter_filter_andb.
Qed.

Lemma filter_ext_bool {A : Type} (p q : A -> bool) (l : list A) :
  (forall x, p x = q x) -> List.filter p l = List.filter q l.
Proof. intros Hpq. induction l as [|x l IH]; simpl; [done|]. by rewrite Hpq, IH. Qed.

Lemma filter_true {A : Type} (l : list A) : List.filter (fun _ => true) l = l.
Proof. induction l as [|x l IH]; simpl; [done | by rewrite IH]. Qed.

Lemma filter_sublist {A : Type} (p : A -> bool) (l : list A) :
  sublist (List.filter p l) l.
Proof.
  induction l as [|x l IH]; simpl; [constructor|].
  destruct (p x); by constructor.
Qed.

Lemma elem_of_bool_filter {A : Type} (p : A -> bool) (l : list A) (x : A) :
  x ∈ List.filter p l <-> x ∈ l /\ p x = true.
Proof. rewrite !list_elem_of_In. apply filter_In. Qed.

Section FilterFacts.
Context `{ListingHeuristics}.

Lemma filterTitle_filter (productName : string) (data : list RutenProductDetail) :
  filterTitle productName data
  = List.filter
      (fun x => containsAllKeywords (rp_name x) productName
                && isIllegalProductChar (rp_name x)
                && isFanMode (rp_name x)
                && isUnopenedPackProduct (rp_name x)) data.
Proof.
  unfold filterTitle. rewrite !filter_filter_andb. apply filter_ext_bool.
  intros x. by rewrite !andb_assoc.
Qed.

Lemma filterRarity_filter (rarities : list string) (nowRarity : string)
    (survivors : list RutenProductDetail) :
  filterRarity rarities nowRarity survivors
  = List.filter
      (fun x => forallb
                  (fun rar => notContainsAnotherRarity (rp_name x) rar (length rarities))
                  (otherRarities rarities nowRarity)) survivors.
Proof.
  unfold filterRarity.
  apply (fold_left_filter
           (fun rar x => notContainsAnotherRarity (rp_name x) rar (length rarities))).
Qed.

Lemma disambiguate_filter (sle : list ProductRequestExtended) (productName : string)
    (survivors : list RutenProductDetail) :
  disambiguate sle productName survivors
  = List.filter (rarityOk sle productName) survivors.
Proof.
  unfold disambiguate, rarityOk.
  destruct (option_map _ _) as [rs|]; [|by rewrite filter_true].
  destruct (nth_error _ _) as [now|]; [|by rewrite filter_true].
  destruct (Js.truthy (Some now) && (0 <? length rs)%nat); [|by rewrite filter_true].
  apply filterRarity_filter.
Qed.

Lemma filterProdDetail_stages (sle : list ProductRequestExtended)
    (data : list RutenProductDetail) (productName : string) :
  filterProdDetail sle data productName
  = firstn 10 (map toProdDetail (disambiguate sle productName (filterTitle productName data))).
Proof.
  unfold filterProdDetail, disambiguate.
  destruct (option_map _ _) as [rs|]; [|done].
  destruct (nth_error _ _) as [now|]; done.
Qed.

Lemma elem_of_otherRarities (rs : list string) (now rar : string) :
  rar ∈ otherRarities rs now <-> rar ∈ rs /\ rar <> now.
Proof.
  unfold otherRarities. rewrite elem_of_bool_filter.
  destruct (String.eqb_spec rar now); simpl; split; intros [? ?]; done.
Qed.

(** C7: filterProdDetail returns the first ten survivors of the pipeline,
    in the order of the response: at most ten listings, a sublist of the
    response (so in ascending price when the response is), and the stages
    apply in the order keyword containment, illegal characters, fan-made,
    unopened pack, rarity, each to the survivors of the one before. *)
Theorem filterProdDetail_first_ten (sle : list ProductRequestExtended)
    (data : list RutenProductDetail) (productName : string) :
  filterProdDetail sle data productName
  = map toProdDetail (firstn 10 (List.filter (survives sle productName) data))
  /\ (length (filterProdDetail sle data productName) <= 10)%nat
  /\ sublist (filterProdDetail sle data productName) (map toProdDetail data)
  /\ (let s1 := List.filter (fun x => containsAllKeywords (rp_name x) productName) data in
      let s2 := List.filter (fun x => isIllegalProductChar (rp_name x)) s1 in
      let s3 := List.filter (fun x => isFanMode (rp_name x)) s2 in
      let s4 := List.filter (fun x => isUnopenedPackProduct (rp_name x)) s3 in
      let s5 := disambiguate sle productName s4 in
      filterProdDetail sle data productName = firstn 10 (map toProdDetail s5)).
Proof.
  assert (Heq : filterProdDetail sle data productName
                = map toProdDetail
                    (firstn 10 (List.filter (survives sle productName) data))).
  { rewrite filterProdDetail_stages, disambiguate_filter, filterTitle_filter.
    rewrite filter_filter_andb, <- firstn_map. done. }
  split; [exact Heq|]. split; [|split].
  - rewrite Heq, length_map, length_firstn. lia.
  - rewrite Heq. apply (fmap_sublist toProdDetail).
    etrans; [apply sublist_take | apply filter_sublist].
  - apply filterProdDetail_stages.
Qed.

(** C4: when the product is known with more than one rarity and a rarity
    was requested, every listing that filterProdDetail returns comes from
    a listing of the response whose title indicates none of the other
    known rarities, and the rarity stage excludes no listing of which that
    is true. *)
Theorem filterProdDetail_rarity (sle : list ProductRequestExtended)
    (data : list RutenProductDetail) (productName nowRarity : string)
    (item : ProductRequestExtended)
    (Hitem : List.find (fun x => String.eqb (ext_productName x) productName) sle
             = Some item)
    (Hnow : nth_error (Js.split "+" productName) 1 = Some nowRarity)
    (Hrequested : nowRarity <> "")
    (Hmany : (1 < length (rarities item))%nat) :
  (forall d, d ∈ filterProdDetail sle data productName ->
     exists x, x ∈ data /\ d = toProdDetail x /\
       forall rar, rar ∈ rarities item -> rar <> nowRarity ->
         notContainsAnotherRarity (rp_name x) rar (length (rarities item)) = true)
  /\ (forall x, x ∈ filterTitle productName data ->
        (forall rar, rar ∈ rarities item -> rar <> nowRarity ->
           notContainsAnotherRarity (rp_name x) rar (length (rarities item)) = true) ->
        x ∈ filterRarity (rarities item) nowRarity (filterTitle productName data)).
Proof.
  assert (Hstage : forall l,
             disambiguate sle productName l = filterRarity (rarities item) nowRarity l).
  { intros l. unfold disambiguate. rewrite Hitem, Hnow. simpl.
    destruct nowRarity; [done|]. simpl.
    destruct (Nat.ltb_spec 0 (length (rarities item))); [done | lia]. }
  split.
  - intros d Hd. rewrite filterProdDetail_stages, Hstage in Hd.
    apply (fun H => elem_of_sublist _ _ _ H (sublist_take _ _)) in Hd.
    apply (list_elem_of_fmap toProdDetail) in Hd as (x & -> & Hx).
    rewrite filterRarity_filter in Hx. apply elem_of_bool_filter in Hx as [Hx Hall].
    exists x. split; [|split; [done|]].
    + rewrite filterTitle_filter in Hx. by apply elem_of_bool_filter in Hx as [Hx _].
    + intros rar Hrar Hne. rewrite forallb_forall in Hall. apply Hall.
      apply list_elem_of_In, elem_of_otherRarities. done.
  - intros x Hx Hnone. rewrite filterRarity_filter. apply elem_of_bool_filter.
    split; [done|]. apply forallb_forall. intros rar Hrar.
    apply list_elem_of_In, elem_of_otherRarities in Hrar as [Hrar Hne]. by apply Hnone.
Qed.
End FilterFacts.

(** ** addOrUpdateShop and the uniqueness of shop ids *)

Lemma findIndex_from_spec {A : Type} (p : A -> bool) (l : list A) (i : Z) :
  0 <= i ->
  (findIndex_from p l i = -1 /\ Forall (fun x => p x = false) l)
  \/ (exists (n : nat) (x : A),
        findIndex_from p l i = i + Z.of_nat n /\ l !! n = Some x /\ p x = true
        /\ forall (j : nat) (y : A), (j < n)%nat -> l !! j = Some y -> p y = false).
Proof.
  revert i. induction l as [|a l IH]; intros i Hi; simpl.
  - left. split; [done | constructor].
  - destruct (p a) eqn:Hpa.
    + right. exists 0%nat, a. repeat split; [lia | done |]. intros j y Hj. lia.
    + destruct (IH (i + 1)) as [[Heq Hall]|(n & x & Heq & Hx & Hpx & Hbefore)]; [lia | |].
      * left. split; [done | by constructor].
      * right. exists (S n), x. repeat split; [lia | done | done |].
        intros [|j] y Hj Hy; simpl in Hy; [by inversion Hy; subst|].
        apply (Hbefore j); [lia | done].
Qed.

Lemma findIndex_spec {A : Type} (p : A -> bool) (l : list A) :
  (findIndex p l = -1 /\ Forall (fun x => p x = false) l)
  \/ (exists (n : nat) (x : A),
        findIndex p l = Z.of_nat n /\ l !! n = Some x /\ p x = true
        /\ forall (j : nat) (y : A), (j < n)%nat -> l !! j = Some y -> p y = false).
Proof.
  destruct (findIndex_from_spec p l 0) as [?|(n & x & ? & ?)]; [lia | by left |].
  right. exists n, x. by rewrite Z.add_0_l in *.
Qed.

Lemma shop_le_refl (s : Shop) : shop_le s s.
Proof. by repeat split. Qed.

Lemma shop_le_trans (s1 s2 s3 : Shop) : shop_le s1 s2 -> shop_le s2 s3 -> shop_le s1 s3.
Proof.
  intros (? & ? & H12) (? & ? & H23). repeat split; [congruence | congruence |].
  intros k Hk. by apply H23, H12.
Qed.

Lemma covers_refl (l : list Shop) : covers l l.
Proof. intros s Hs. exists s. split; [done | apply shop_le_refl]. Qed.

Lemma covers_trans (l1 l2 l3 : list Shop) : covers l1 l2 -> covers l2 l3 -> covers l1 l3.
Proof.
  intros H12 H23 s Hs. destruct (H12 s Hs) as (s2 & Hs2 & Hle2).
  destruct (H23 s2 Hs2) as (s3 & Hs3 & Hle3). exists s3.
  split; [done | by eapply shop_le_trans].
Qed.

Lemma Forall2_shop_le_covers (l l' : list Shop) : Forall2 shop_le l l' -> covers l l'.
Proof.
  intros Hall s Hs. apply list_elem_of_lookup in Hs as [i Hi].
  destruct (Forall2_lookup_l _ _ _ _ _ Hall Hi) as (s' & Hs' & Hle).
  exists s'. split; [|done]. apply list_elem_of_lookup. eauto.
Qed.

Lemma Forall2_shop_le_ids (l l' : list Shop) :
  Forall2 shop_le l l' -> map shop_id l' = map shop_id l.
Proof.
  induction 1 as [|s s' l l' (Hid & _) _ IH]; simpl; [done|]. by rewrite Hid, IH.
Qed.

Lemma same_offers_shop_le (s s' : Shop) : same_offers s s' -> shop_le s s'.
Proof. intros (? & Hp & ?). repeat split; [done | done |]. by rewrite Hp. Qed.

(** What addOrUpdateShop answers, whatever the shop list: it never throws,
    its shop carries the id of the listing and holds the product, and the
    index is -1 exactly when the id is new. *)
Lemma addOrUpdateShop_ok (l : list Shop) (prod : ProductRequestExtended) (d : ProdDetail) :
  exists idx shop,
    addOrUpdateShop l prod d = Ok (idx, shop)
    /\ shop_id shop = shopId d
    /\ ext_productName prod ∈ Js.keys (products shop)
    /\ ((idx = -1 /\ shopId d ∉ map shop_id l)
        \/ (exists old, 0 <= idx /\ l !! Z.to_nat idx = Some old
                        /\ shop_id old = shopId d /\ shop_le old shop)).
Proof.
  unfold addOrUpdateShop.
  destruct (findIndex_spec (fun x => String.eqb (shop_id x) (shopId d)) l)
    as [[-> Hall]|(n & x & -> & Hx & Hpx & _)].
  - simpl. eexists _, _. split; [done|]. simpl. split; [done|]. split; [left|].
    left. split; [done|]. intros Hin.
    apply (list_elem_of_fmap shop_id) in Hin as (y & Hy & Hin).
    rewrite Forall_forall in Hall. apply Hall in Hin.
    rewrite <- Hy, String.eqb_refl in Hin. done.
  - destruct (Z.eqb_spec (Z.of_nat n) (-1)) as [Hneg|_]; [lia|].
    rewrite Nat2Z.id, Hx. apply String.eqb_eq in Hpx.
    eexists _, _. split; [done|]. simpl. split; [done|]. split; [apply keys_set_in|].
    right. exists x. split; [lia|]. rewrite Nat2Z.id. split; [done|]. split; [done|].
    repeat split. intros k Hk. simpl. by apply keys_set_mono.
Qed.

(** The caller's step keeps every shop, adds or keeps the shop of the
    listing, and keeps the ids unique. *)
Lemma putShop_step (l : list Shop) (prod : ProductRequestExtended) (d : ProdDetail) :
  exists idx shop,
    addOrUpdateShop l prod d = Ok (idx, shop)
    /\ covers l (putShop l idx shop)
    /\ (exists s, s ∈ putShop l idx shop /\ shop_id s = shopId d
                  /\ ext_productName prod ∈ Js.keys (products s))
    /\ (NoDup (map shop_id l) -> NoDup (map shop_id (putShop l idx shop))).
Proof.
  destruct (addOrUpdateShop_ok l prod d)
    as (idx & shop & Heq & Hid & Hkey & [[-> Hnew]|(old & Hpos & Hold & Hoid & Hle)]).
  - exists (-1), shop. split; [done|]. unfold putShop. simpl. split; [|split].
    + intros s Hs. exists s. split; [|apply shop_le_refl].
      apply elem_of_app. by left.
    + exists shop. split; [|done]. apply elem_of_app. right. left.
    + intros Hnd. rewrite map_app. simpl. apply NoDup_app. split; [done|]. split.
      * intros x Hx Hx'. apply list_elem_of_singleton in Hx'. subst. by rewrite Hid in Hx.
      * apply NoDup_singleton.
  - exists idx, shop. split; [done|]. unfold putShop.
    destruct (Z.eqb_spec idx (-1)) as [?|_]; [lia|].
    assert (Hlt : (Z.to_nat idx < length l)%nat) by (eapply lookup_lt_Some; eauto).
    split; [|split].
    + intros s Hs. apply list_elem_of_lookup in Hs as [j Hj].
      destruct (decide (j = Z.to_nat idx)) as [->|Hne].
      * exists shop. split.
        -- apply list_elem_of_lookup. exists (Z.to_nat idx).
           by apply list_lookup_insert_eq.
        -- rewrite Hold in Hj. by inversion Hj; subst.
      * exists s. split; [|apply shop_le_refl]. apply list_elem_of_lookup. exists j.
        by rewrite list_lookup_insert_ne.
    + exists shop. split; [|done]. apply list_elem_of_lookup. exists (Z.to_nat idx).
      by apply list_lookup_insert_eq.
    + intros Hnd. replace (map shop_id (<[Z.to_nat idx:=shop]> l)) with (map shop_id l);
        [done|].
      change (shop_id <$> l = shop_id <$> <[Z.to_nat idx:=shop]> l).
      rewrite list_fmap_insert. symmetry. apply list_insert_id.
      rewrite list_lookup_fmap, Hold. simpl. congruence.
Qed.

(** ** Running the methods *)

Lemma grows_refl (t : Service) : grows t t.
Proof.
  repeat split; [|apply covers_refl|done]. exists []. by rewrite app_nil_r.
Qed.

Lemma grows_trans (t1 t2 t3 : Service) : grows t1 t2 -> grows t2 t3 -> grows t1 t3.
Proof.
  intros (? & ? & [m1 Hm1] & Hc1 & Hn1) (? & ? & [m2 Hm2] & Hc2 & Hn2).
  repeat split; [congruence | congruence | | by eapply covers_trans | by auto].
  exists (m1 ++ m2). by rewrite Hm2, Hm1, app_assoc.
Qed.

Lemma grows_push_error (e : Logged) (t : Service) : grows t (push_error e t).
Proof. repeat split; [by exists [e] | apply covers_refl | done]. Qed.

Section Runs.
Context `{Remote} `{ListingHeuristics}.

Lemma for_each_app {A : Type} (l1 l2 : list A) (body : A -> M unit) (st : St) :
  for_each (l1 ++ l2) body st
  = match for_each l1 body st with
    | (Ok _, st') => for_each l2 body st'
    | (Throw e, st') => (Throw e, st')
    end.
Proof.
  revert st. induction l1 as [|x l1 IH]; intros st; simpl; [done|].
  unfold bind. destruct (body x st) as [[[]|e] st1]; [apply IH | done].
Qed.

Lemma for_fold_app {A B : Type} (l1 l2 : list A) (acc : B) (body : B -> A -> M B)
    (st : St) :
  for_fold (l1 ++ l2) acc body st
  = match for_fold l1 acc body st with
    | (Ok acc', st') => for_fold l2 acc' body st'
    | (Throw e, st') => (Throw e, st')
    end.
Proof.
  revert acc st. induction l1 as [|x l1 IH]; intros acc st; simpl; [done|].
  unfold bind. destruct (body acc x st) as [[acc1|e] st1]; [apply IH | done].
Qed.

(** *** Stage B *)

(** findProductList leaves the service as it is, and what it throws is its
    own error. *)
Lemma findProductList_frame (prod : ProductRequestExtended) (st : St)
    (r : result (list ProdDetail)) (st' : St) :
  findProductList prod st = (r, st') ->
  snd st' = snd st
  /\ forall e, r = Throw e ->
       e = Error ("Error while getting product list for " +:+ ext_productName prod).
Proof.
  unfold findProductList. unfold_m. destruct st as [w t]. simpl.
  intros Hrun.
  repeat (break_match; unfold_m; simpl in *; try inv_pair; try discriminate);
    (split; [done | intros e' He'; by inversion He']).
Qed.

Lemma mergeProdDetail_run (prod : ProductRequestExtended) (d : ProdDetail) (st : St) :
  exists l',
    mergeProdDetail prod d st = (Ok tt, (fst st, set_shopList l' (snd st)))
    /\ covers (shopList (snd st)) l'
    /\ (exists s, s ∈ l' /\ shop_id s = shopId d
                  /\ ext_productName prod ∈ Js.keys (products s))
    /\ (NoDup (map shop_id (shopList (snd st))) -> NoDup (map shop_id l')).
Proof.
  destruct (putShop_step (shopList (snd st)) prod d)
    as (idx & shop & Heq & Hcov & Hin & Hnd).
  exists (putShop (shopList (snd st)) idx shop). split; [|done].
  unfold mergeProdDetail. unfold_m. simpl. by rewrite Heq.
Qed.

Lemma mergeAll_run (prod : ProductRequestExtended) (ds : list ProdDetail) (st : St) :
  exists l',
    for_each ds (mergeProdDetail prod) st = (Ok tt, (fst st, set_shopList l' (snd st)))
    /\ covers (shopList (snd st)) l'
    /\ (forall d, d ∈ ds ->
          exists s, s ∈ l' /\ shop_id s = shopId d
                    /\ ext_productName prod ∈ Js.keys (products s))
    /\ (NoDup (map shop_id (shopList (snd st))) -> NoDup (map shop_id l')).
Proof.
  revert st. induction ds as [|d ds IH]; intros [w t]; simpl.
  - exists (shopList t). split; [by destruct t|]. split; [apply covers_refl|].
    split; [|done]. intros d Hd. inversion Hd.
  - destruct (mergeProdDetail_run prod d (w, t)) as (l1 & Hrun & Hcov & Hin & Hnd).
    destruct (IH (w, set_shopList l1 t)) as (l2 & Hrun2 & Hcov2 & Hin2 & Hnd2).
    exists l2. unfold bind. rewrite Hrun. simpl in *. rewrite Hrun2.
    split; [done|]. split; [by eapply covers_trans|]. split; [|by auto].
    intros d' Hd'. apply elem_of_cons in Hd' as [->|Hd']; [|by apply Hin2].
    destruct Hin as (s & Hs & Hid & Hkey). destruct (Hcov2 s Hs) as (s' & Hs' & Hle).
    exists s'. destruct Hle as (Hid' & _ & Hkeys).
    split; [done|]. split; [congruence | by apply Hkeys].
Qed.

(** One item of Stage B: a failure is caught and pushed, and the loop body
    ends normally either way. *)
Lemma discoverOffers_run (prod : ProductRequestExtended) (st : St) :
  match findProductList prod st with
  | (Throw e, st1) =>
      discoverOffers prod st = (Ok tt, (fst st1, push_error (LogExn e) (snd st)))
  | (Ok ds, st1) =>
      exists l',
        discoverOffers prod st = (Ok tt, (fst st1, set_shopList l' (snd st)))
        /\ covers (shopList (snd st)) l'
        /\ (forall d, d ∈ ds ->
              exists s, s ∈ l' /\ shop_id s = shopId d
                        /\ ext_productName prod ∈ Js.keys (products s))
        /\ (NoDup (map shop_id (shopList (snd st))) -> NoDup (map shop_id l'))
  end.
Proof.
  destruct (findProductList prod st) as [[ds|e] st1] eqn:Hfind;
    destruct (findProductList_frame _ _ _ _ Hfind) as [Hframe _];
    unfold discoverOffers, try_catch, bind; rewrite Hfind.
  - destruct (mergeAll_run prod ds st1) as (l' & Hrun & Hrest).
    rewrite Hframe in Hrun, Hrest. exists l'. by rewrite Hrun.
  - unfold update. simpl. by rewrite Hframe.
Qed.

Lemma discoverOffers_grows (prod : ProductRequestExtended) (st : St) :
  exists st', discoverOffers prod st = (Ok tt, st') /\ grows (snd st) (snd st').
Proof.
  pose proof (discoverOffers_run prod st) as Hrun.
  destruct (findProductList prod st) as [[ds|e] st1].
  - destruct Hrun as (l' & -> & Hcov & _ & Hnd). eexists. split; [done|].
    simpl. repeat split; [|done|done]. exists []. by rewrite app_nil_r.
  - rewrite Hrun. eexists. split; [done|]. apply grows_push_error.
Qed.

Lemma discoverAll_grows (l : list ProductRequestExtended) (st : St) :
  exists st', for_each l discoverOffers st = (Ok tt, st') /\ grows (snd st) (snd st').
Proof.
  revert st. induction l as [|prod l IH]; intros st; simpl.
  - exists st. split; [done | apply grows_refl].
  - destruct (discoverOffers_grows prod st) as (st1 & Hrun & Hg).
    destruct (IH st1) as (st2 & Hrun2 & Hg2).
    exists st2. unfold bind. rewrite Hrun. split; [done | by eapply grows_trans].
Qed.

(** *** Stage A *)

Lemma entries_lookup_from {A : Type} (l : list A) (n i : nat) :
  combine (seq n (length l)) l !! i = (fun x => ((n + i)%nat, x)) <$> l !! i.
Proof.
  revert n i. induction l as [|x l IH]; intros n i; simpl; [done|].
  destruct i as [|i]; simpl; [by rewrite Nat.add_0_r|].
  rewrite IH. by rewrite Nat.add_succ_r.
Qed.

Lemma entries_lookup {A : Type} (l : list A) (i : nat) :
  entries l !! i = (fun x => (i, x)) <$> l !! i.
Proof. unfold entries. by rewrite entries_lookup_from. Qed.

Lemma elem_of_entries {A : Type} (l : list A) (i : nat) (x : A) :
  (i, x) ∈ entries l <-> l !! i = Some x.
Proof.
  rewrite list_elem_of_lookup. split.
  - intros [j Hj]. rewrite entries_lookup in Hj.
    destruct (l !! j) eqn:E; simpl in Hj; inversion Hj; by subst.
  - intros Hi. exists i. by rewrite entries_lookup, Hi.
Qed.

(** One item of Stage A: it fails when the data layer rejects the query
    or finds no card, and otherwise writes the card's data at the item's
    index. *)
Lemma resolveProduct_run (acc : list ProductRequestExtended) (p : nat)
    (prod : ProductRequestExtended) (st : St) :
  resolveProduct acc (p, prod) st
  = let (w, r) := dataAccess_find (fst st) (card_id prod)
                    (nth_error (Js.split "+" (ext_productName prod)) 1) in
    (match r with
     | Throw e => Throw e
     | Ok [] =>
         Throw (Error ("Card data not found for " +:+ card_id prod +:+ " "
                         +:+ Js.show (nth_error (Js.split "+" (ext_productName prod)) 1)))
     | Ok (cardData :: _) => Ok (<[p := resolved prod cardData]> acc)
     end, (w, snd st)).
Proof.
  unfold resolveProduct. unfold_m.
  destruct (dataAccess_find _ _ _) as [w [[|cd found]|e]]; done.
Qed.

Lemma resolveAll_run (acc0 : list ProductRequest)
    (es : list (nat * ProductRequestExtended)) (acc : list ProductRequestExtended)
    (st : St) :
  Forall2 extends_request acc0 acc ->
  Forall (fun e => exists x, acc0 !! fst e = Some x /\ extends_request x (snd e)) es ->
  exists r st',
    for_fold es acc resolveProduct st = (r, st')
    /\ snd st' = snd st
    /\ forall acc', r = Ok acc' -> Forall2 extends_request acc0 acc'.
Proof.
  revert acc st. induction es as [|[p prod] es IH]; intros acc st Hacc Hes;
    cbn [for_fold].
  - eexists _, _. split; [done|]. split; [done|]. intros acc' Hr. by inversion Hr; subst.
  - inversion Hes as [|? ? (x & Hx & Hname & Hcount) Hes']; subst. cbn [fst snd] in *.
    unfold bind. rewrite resolveProduct_run.
    destruct (dataAccess_find _ _ _) as [w [[|cd found]|e]].
    + eexists _, _. split; [done|]. split; [done|]. intros acc' Hr. inversion Hr.
    + destruct (IH (<[p := resolved prod cd]> acc) (w, snd st)) as (r & st' & Hrun & Hfr & Hok);
        [|done|].
      * rewrite <- (list_insert_id acc0 p x Hx). apply Forall2_insert; [done|].
        by split.
      * eexists _, _. split; [exact Hrun|]. split; [done | done].
    + eexists _, _. split; [done|]. split; [done|]. intros acc' Hr. inversion Hr.
Qed.

(** Stage A leaves the service as it is, and the requests it extends keep
    their names and their counts, in the order of the shopping list. *)
Lemma getProductRequestExtended_run (st : St) :
  exists r st',
    getProductRequestExtended st = (r, st')
    /\ snd st' = snd st
    /\ forall exts, r = Ok exts -> Forall2 extends_request (shoppingList (snd st)) exts.
Proof.
  unfold getProductRequestExtended. unfold bind, this. simpl.
  apply resolveAll_run.
  - apply Forall2_fmap_r, Forall_Forall2_diag, Forall_forall. intros x _. by split.
  - apply Forall_forall. intros [p e] Hin. apply elem_of_entries in Hin.
    rewrite list_lookup_fmap in Hin. simpl.
    destruct (shoppingList (snd st) !! p) as [x|] eqn:Hx; [|done].
    inversion Hin; subst. exists x. split; [done | by split].
Qed.


(** *** Stage D *)

Lemma Forall_keys_set {V : Type} (P : string -> Prop) (k : string) (v : V)
    (o : list (string * V)) :
  P k -> Forall P (Js.keys o) -> Forall P (Js.keys (Js.set k v o)).
Proof.
  intros Hk Ho. destruct (decide (k ∈ Js.keys o)) as [Hin|Hout].
  - by rewrite set_present.
  - rewrite set_absent by done. unfold Js.keys. rewrite map_app.
    apply Forall_app. split; [done|]. simpl. by constructor.
Qed.

Lemma extractFreeShip_recognized (conditions : list (string * Z)) :
  Forall (fun k => is_freeShip_carrier k = true) (Js.keys (extractFreeShip conditions)).
Proof.
  unfold extractFreeShip.
  assert (Hnil : Forall (fun k => is_freeShip_carrier k = true) (Js.keys (@nil (string * Z))))
    by constructor.
  revert Hnil. generalize (@nil (string * Z)) as acc.
  induction conditions as [|[k v] dc IH]; intros acc Hacc; simpl; [done|].
  apply IH. destruct (is_freeShip_carrier k) eqn:Hk; [|done].
  by apply Forall_keys_set.
Qed.

(** getShipInfo on a shop that stands at [idx]: it fulfills; the value is
    what the endpoint gave for recognised carriers, or the fallback when
    that is nothing or the request failed; a failure is pushed as a
    string. *)
Lemma getShipInfo_run (shop s : Shop) (idx : nat) (st : St) :
  shopList (snd st) !! idx = Some s ->
  getShipInfo shop idx st
  = let (w, r) := axios_get (fst st) (getRutenApis (SHOP_SHIP_INFO (shop_id shop))) in
    (Ok (match recognizedFreeShip r with
         | [] => defaultFreeShip s
         | v => v
         end),
     (w, if fetched r then snd st
         else push_error (LogStr ("Error while getting ships info for " +:+ shop_id shop))
                (snd st))).
Proof.
  intros Hs. unfold getShipInfo, setDefaultFreeShip. unfold_m. simpl.
  destruct (axios_get _ _) as [w [[rows|d|u|dc]|]]; simpl; rewrite ?Hs; try done.
  destruct (extractFreeShip dc) as [|e v]; simpl; by rewrite ?Hs.
Qed.

Lemma settledFreeShip_run (s : Shop) (r : option Payload) :
  settledFreeShip s
    (match recognizedFreeShip r with [] => defaultFreeShip s | v => v end).
Proof.
  destruct (recognizedFreeShip r) as [|e v] eqn:Hr; [by left|]. right.
  split; [done|]. rewrite <- Hr. unfold recognizedFreeShip.
  destruct r as [[rows|d|u|dc]|]; try constructor. apply extractFreeShip_recognized.
Qed.

Lemma logs_only_refl (t : Service) : logs_only t t.
Proof. repeat split. exists []. by rewrite app_nil_r. Qed.

Lemma logs_only_trans (t1 t2 t3 : Service) :
  logs_only t1 t2 -> logs_only t2 t3 -> logs_only t1 t3.
Proof.
  intros (? & ? & ? & [m1 Hm1]) (? & ? & ? & [m2 Hm2]).
  repeat split; [congruence | congruence | congruence |].
  exists (m1 ++ m2). by rewrite Hm2, Hm1, app_assoc.
Qed.

Lemma logs_only_push_error (e : Logged) (t : Service) : logs_only t (push_error e t).
Proof. repeat split. by exists [e]. Qed.

Lemma logs_only_grows (t t' : Service) : logs_only t t' -> grows t t'.
Proof.
  intros (? & ? & Hl & ?). repeat split; [done | done | done | |]; rewrite Hl;
    [apply covers_refl | done].
Qed.

(** The settle-all join: every task fulfills. *)
Lemma allSettled_ships (es : list (nat * Shop)) (st : St) :
  Forall (fun e => shopList (snd st) !! fst e = Some (snd e)) es ->
  exists vs st',
    allSettled (map (fun '(idx, shop) => getShipInfo shop idx) es) st
    = (Ok (map Ok vs), st')
    /\ logs_only (snd st) (snd st')
    /\ Forall2 settledFreeShip (map snd es) vs.
Proof.
  revert st. induction es as [|[idx shop] es IH]; intros st Hes; cbn [map allSettled].
  - exists [], st. split; [done|]. split; [apply logs_only_refl | constructor].
  - inversion Hes as [|? ? Hhere Hes']; subst. cbn [fst snd] in *.
    rewrite (getShipInfo_run shop shop idx st Hhere).
    destruct (axios_get _ _) as [w r].
    set (t1 := if fetched r then snd st else push_error _ (snd st)).
    assert (Hlog : logs_only (snd st) t1).
    { unfold t1. destruct (fetched r);
        [apply logs_only_refl | apply logs_only_push_error]. }
    destruct (IH (w, t1)) as (vs & st' & Hrun & Hlog' & Hvs).
    { cbn [snd]. destruct Hlog as (_ & _ & -> & _). done. }
    eexists (_ :: vs), st'. unfold bind, ret. rewrite Hrun. split; [done|].
    split; [by eapply logs_only_trans|]. constructor; [|done].
    apply settledFreeShip_run.
Qed.

Lemma map_snd_entries {A : Type} (l : list A) : map snd (entries l) = l.
Proof.
  apply list_eq. intros i. change (map snd (entries l)) with (snd <$> entries l).
  rewrite list_lookup_fmap, entries_lookup. by destruct (l !! i).
Qed.

Lemma length_entries {A : Type} (l : list A) : length (entries l) = length l.
Proof. rewrite <- (map_snd_entries l) at 2. by rewrite length_map. Qed.

(** The loop over the outcomes, when all are fulfilled: each value is
    written to the shop at its index, and nothing is thrown. *)
Lemma settleAll_run (vs : list (list (string * Z))) (done rest : list Shop)
    (w : World) (t : Service) :
  length vs = length rest ->
  shopList t = done ++ rest ->
  for_each (combine (seq (length done) (length (map (@Ok (list (string * Z))) vs)))
              (map Ok vs)) settleShop (w, t)
  = (Ok tt,
     (w, set_shopList (done ++ zip_with (fun s v => set_freeShip v s) rest vs) t)).
Proof.
  revert done rest t. induction vs as [|v vs IH]; intros done rest t Hlen Ht.
  - destruct rest; [|done]. simpl. rewrite <- Ht. by destruct t.
  - destruct rest as [|s rest]; [done|]. cbn [map length seq combine for_each].
    unfold bind at 1. cbn [settleShop]. unfold assignFreeShip. unfold_m. cbn [snd fst].
    rewrite Ht, list_lookup_middle by done. cbn [fst snd].
    specialize (IH (done ++ [set_freeShip v s]) rest
                  (set_shopList (<[length done:=set_freeShip v s]> (done ++ s :: rest)) t)).
    rewrite length_app in IH. simpl in IH. rewrite Nat.add_1_r in IH.
    rewrite IH.
    + simpl. by rewrite <- app_assoc.
    + simpl in Hlen. lia.
    + simpl. rewrite insert_app_r_alt by done. rewrite Nat.sub_diag. simpl.
      by rewrite <- app_assoc.
Qed.

Lemma zip_with_set_freeShip (l : list Shop) (vs : list (list (string * Z))) :
  Forall2 settledFreeShip l vs ->
  Forall2 same_offers l (zip_with (fun s v => set_freeShip v s) l vs)
  /\ Forall (fun s' => settledFreeShip s' (freeShip s'))
       (zip_with (fun s v => set_freeShip v s) l vs).
Proof.
  induction 1 as [|s v l vs Hsv _ [IH1 IH2]]; simpl; [by split; constructor|].
  split; constructor; try done.
Qed.

(** Stage D never throws: it changes the free-shipping thresholds only,
    and leaves each shop with the fallback or with recognised thresholds. *)
Lemma shippingIncentives_run (st : St) :
  exists st',
    shippingIncentives st = (Ok tt, st')
    /\ shoppingList (snd st') = shoppingList (snd st)
    /\ shoppingListExtended (snd st') = shoppingListExtended (snd st)
    /\ (exists more, errorHandler (snd st') = errorHandler (snd st) ++ more)
    /\ Forall2 same_offers (shopList (snd st)) (shopList (snd st'))
    /\ Forall (fun s' => settledFreeShip s' (freeShip s')) (shopList (snd st')).
Proof.
  destruct (allSettled_ships (entries (shopList (snd st))) st)
    as (vs & [w1 t1] & Hrun & (Hsl & Hsle & Hl & Herr) & Hvs).
  { apply Forall_forall. intros [i s] Hin. by apply elem_of_entries in Hin. }
  rewrite map_snd_entries in Hvs. cbn [snd] in *.
  unfold shippingIncentives. unfold bind at 1. unfold this at 1. cbn [snd].
  unfold bind at 1. rewrite Hrun. unfold entries.
  pose proof (Forall2_length _ _ _ Hvs) as Hlen.
  pose proof (settleAll_run vs [] (shopList t1) w1 t1) as Hsettle.
  cbn [length app] in Hsettle. rewrite Hsettle by (rewrite ?Hl; done).
  destruct (zip_with_set_freeShip _ _ Hvs) as [Hsame Hsettled].
  eexists. split; [done|]. cbn [snd]. simpl. rewrite Hl. done.
Qed.


(** *** Stage C *)

Lemma getShopId_frame (shopName : string) (st : St) (r : result string) (st' : St) :
  getShopId shopName st = (r, st') ->
  snd st' = snd st
  /\ forall e, r = Throw e ->
       e = Error ("Error while getting product list for " +:+ shopName).
Proof.
  unfold getShopId. unfold_m. destruct st as [w t]. simpl. intros Hrun.
  repeat (break_match; unfold_m; simpl in *; try inv_pair; try discriminate);
    (split; [done | intros e' He'; by inversion He']).
Qed.

Lemma getShopOtherProductInfo_frame (shopId targetProduct : string) (st : St)
    (r : result ProductEntry) (st' : St) :
  getShopOtherProductInfo shopId targetProduct st = (r, st') ->
  snd st' = snd st
  /\ forall e, r = Throw e ->
       e = Error ("Error while getting other product info for " +:+ shopId
                    +:+ " " +:+ targetProduct).
Proof.
  unfold getShopOtherProductInfo. unfold_m. destruct st as [w t]. simpl. intros Hrun.
  repeat (break_match; unfold_m; simpl in *; try inv_pair; try discriminate);
    (split; [done | intros e' He'; by inversion He']).
Qed.

(** One missing product: the copy is unchanged or gains the product at
    [idx], and a failed fetch leaves it unchanged and is pushed. *)
Lemma addOtherProduct_run (idx : nat) (seller : string) (copy : list Shop)
    (prod : string) (st : St) :
  exists copy' st',
    addOtherProduct idx seller copy prod st = (Ok copy', st')
    /\ logs_only (snd st) (snd st')
    /\ (copy' = copy
        \/ exists shop prodDetail,
             copy !! idx = Some shop
             /\ copy' = <[idx := set_products (Js.set prod prodDetail (products shop)) shop]>
                          copy)
    /\ (forall e st1, getShopOtherProductInfo seller prod st = (Throw e, st1) ->
          copy' = copy /\ st' = (fst st1, push_error (LogExn e) (snd st))).
Proof.
  unfold addOtherProduct, try_catch, bind.
  destruct (getShopOtherProductInfo seller prod st) as [[pd|e] st1] eqn:Hget;
    destruct (getShopOtherProductInfo_frame _ _ _ _ _ Hget) as [Hframe _].
  - destruct (negb (String.eqb (pe_id pd) "")).
    + destruct (copy !! idx) as [shop|] eqn:Hshop; unfold_m; simpl.
      * eexists _, _. split; [done|]. simpl. rewrite Hframe.
        split; [apply logs_only_refl|]. split; [right; eauto | done].
      * eexists _, _. split; [done|]. simpl. rewrite Hframe.
        split; [apply logs_only_push_error|]. split; [by left | done].
    + unfold_m. eexists _, _. split; [done|]. simpl. rewrite Hframe.
      split; [apply logs_only_refl|]. split; [by left | done].
  - unfold_m. simpl. eexists _, _. split; [done|]. simpl. rewrite Hframe.
    split; [apply logs_only_push_error|]. split; [by left|].
    intros e' st1' Heq. by inversion Heq; subst.
Qed.

Lemma set_all_snoc {V : Type} (added : list (string * V)) (k : string) (v : V)
    (o : list (string * V)) :
  Js.set_all (added ++ [(k, v)]) o = Js.set k v (Js.set_all added o).
Proof. unfold Js.set_all. by rewrite fold_left_app. Qed.

Lemma probed_refl (t : Service) (s : Shop) : probed t s s.
Proof. repeat split. exists []. split; [done | constructor]. Qed.

Lemma probed_add (t : Service) (s c : Shop) (prod : string) (pd : ProductEntry) :
  probed t s c -> prod ∈ targetProducts t (shop_id s) ->
  probed t s (set_products (Js.set prod pd (products c)) c).
Proof.
  intros (Hid & Hsp & Hfs & added & Hp & Hadded) Hprod. repeat split; [done..|].
  exists (added ++ [(prod, pd)]). simpl. rewrite set_all_snoc, Hp. split; [done|].
  apply Forall_app. split; [done|]. by constructor.
Qed.

Lemma addOthers_run (t : Service) (l : list Shop) (idx : nat) (s : Shop)
    (seller : string) (targets : list string) (copy : list Shop) (st : St) :
  l !! idx = Some s ->
  Forall (fun k => k ∈ targetProducts t (shop_id s)) targets ->
  Forall2 (probed t) l copy ->
  exists copy' st',
    for_fold targets copy (addOtherProduct idx seller) st = (Ok copy', st')
    /\ logs_only (snd st) (snd st')
    /\ Forall2 (probed t) l copy'.
Proof.
  intros Hs. revert copy st.
  induction targets as [|prod targets IH]; intros copy st Htargets Hcopy; simpl.
  - exists copy, st. split; [done|]. split; [apply logs_only_refl | done].
  - inversion Htargets as [|? ? Hprod Htargets']; subst.
    destruct (addOtherProduct_run idx seller copy prod st)
      as (copy1 & st1 & Hrun & Hlog & Hcases & _).
    assert (Hcopy1 : Forall2 (probed t) l copy1).
    { destruct Hcases as [->|(c & pd & Hc & ->)]; [done|].
      rewrite <- (list_insert_id l idx s Hs). apply Forall2_insert; [done|].
      apply probed_add; [|done].
      destruct (Forall2_lookup_l _ _ _ _ _ Hcopy Hs) as (c' & Hc' & Hprobed).
      rewrite Hc in Hc'. by inversion Hc'; subst. }
    destruct (IH copy1 st1 Htargets' Hcopy1) as (copy2 & st2 & Hrun2 & Hlog2 & Hcopy2).
    exists copy2, st2. unfold bind. rewrite Hrun.
    split; [done|]. split; [by eapply logs_only_trans | done].
Qed.

Lemma targetProducts_logs_only (t t' : Service) (shopName : string) :
  logs_only t t' -> targetProducts t' shopName = targetProducts t shopName.
Proof. intros (Hsl & _ & Hl & _). unfold targetProducts. by rewrite Hsl, Hl. Qed.

(** One shop of Stage C: when its seller id does not resolve, the error
    is pushed and the copy is unchanged. *)
Lemma probeShop_run (t : Service) (l copy : list Shop) (idx : nat) (e : SopIdList)
    (s : Shop) (st : St) :
  logs_only t (snd st) ->
  l !! idx = Some s -> sop_name e = shop_id s ->
  Forall2 (probed t) l copy ->
  exists copy' st',
    probeShop copy (idx, e) st = (Ok copy', st')
    /\ logs_only (snd st) (snd st')
    /\ Forall2 (probed t) l copy'
    /\ (forall err st1, getShopId (sop_name e) st = (Throw err, st1) ->
          copy' = copy /\ st' = (fst st1, push_error (LogExn err) (snd st))).
Proof.
  intros Ht Hs Hname Hcopy. unfold probeShop.
  destruct (getShopId (sop_name e) st) as [[seller|err] st1] eqn:Hget;
    destruct (getShopId_frame _ _ _ _ Hget) as [Hframe _].
  - unfold bind at 1. unfold this at 1. cbn [snd].
    destruct (negb _).
    + destruct (addOthers_run t l idx s seller (targetProducts (snd st1) (sop_name e))
                  copy st1 Hs) as (copy' & st' & Hrun & Hlog & Hcopy'); [|done|].
      * rewrite Hframe, (targetProducts_logs_only t (snd st)) by done.
        rewrite Hname. apply Forall_forall. done.
      * exists copy', st'. split; [done|]. rewrite <- Hframe. done.
    + unfold ret. exists copy, st1. split; [done|]. rewrite Hframe.
      split; [apply logs_only_refl|]. done.
  - unfold_m. simpl. eexists _, _. split; [done|]. simpl. rewrite Hframe.
    split; [apply logs_only_push_error|]. split; [done|].
    intros err' st1' Heq. by inversion Heq; subst.
Qed.

Lemma probeAll_run (t : Service) (l : list Shop) (es : list (nat * SopIdList))
    (copy : list Shop) (st : St) :
  logs_only t (snd st) ->
  Forall (fun e => exists s, l !! fst e = Some s /\ sop_name (snd e) = shop_id s) es ->
  Forall2 (probed t) l copy ->
  exists copy' st',
    for_fold es copy probeShop st = (Ok copy', st')
    /\ logs_only (snd st) (snd st')
    /\ Forall2 (probed t) l copy'.
Proof.
  revert copy st. induction es as [|[idx e] es IH]; intros copy st Ht Hes Hcopy;
    cbn [for_fold].
  - exists copy, st. split; [done|]. split; [apply logs_only_refl | done].
  - inversion Hes as [|? ? (s & Hs & Hname) Hes']; subst. cbn [fst snd] in *.
    destruct (probeShop_run t l copy idx e s st Ht Hs Hname Hcopy)
      as (copy1 & st1 & Hrun & Hlog & Hcopy1 & _).
    destruct (IH copy1 st1) as (copy2 & st2 & Hrun2 & Hlog2 & Hcopy2);
      [by eapply logs_only_trans | done | done |].
    exists copy2, st2. unfold bind. rewrite Hrun.
    split; [done|]. split; [by eapply logs_only_trans | done].
Qed.

(** Stage C never throws: every shop stays at its index, with products
    added under the names the probe looked for. *)
Lemma crossSell_run (st : St) :
  exists st',
    crossSell st = (Ok tt, st')
    /\ shoppingList (snd st') = shoppingList (snd st)
    /\ shoppingListExtended (snd st') = shoppingListExtended (snd st)
    /\ (exists more, errorHandler (snd st') = errorHandler (snd st) ++ more)
    /\ Forall2 (probed (snd st)) (shopList (snd st)) (shopList (snd st')).
Proof.
  unfold crossSell, findShopHasAnotherProduct. unfold bind at 1. unfold this at 1.
  cbn [snd]. unfold bind at 1. unfold bind at 1. unfold this at 1. cbn [snd].
  destruct (probeAll_run (snd st) (shopList (snd st))
              (entries (map (fun x => {| sop_name := shop_id x; sop_id := "" |})
                          (shopList (snd st))))
              (shopList (snd st)) st) as (copy' & st' & Hrun & Hlog & Hcopy).
  - apply logs_only_refl.
  - apply Forall_forall. intros [idx e] Hin. apply elem_of_entries in Hin.
    change (map ?f ?l) with (f <$> l) in Hin. rewrite list_lookup_fmap in Hin.
    destruct (shopList (snd st) !! idx) as [s|] eqn:Hs; [|done].
    inversion Hin; subst. exists s. done.
  - apply Forall_Forall2_diag, Forall_forall. intros s _. apply probed_refl.
  - rewrite Hrun. unfold update. eexists. split; [done|]. cbn [snd fst].
    destruct Hlog as (Hsl & Hsle & _ & Herr). simpl. done.
Qed.


(** *** The whole run *)

Lemma keys_set_all_mono {V : Type} (added o : list (string * V)) (k : string) :
  k ∈ Js.keys o -> k ∈ Js.keys (Js.set_all added o).
Proof.
  rewrite <- !get_Some_keys, get_set_all. intros Hk.
  destruct (Js.get k (rev added)); [eauto | done].
Qed.

Lemma probed_shop_le (t : Service) (s s' : Shop) : probed t s s' -> shop_le s s'.
Proof.
  intros (Hid & Hsp & _ & added & Hp & _). repeat split; [done | done |].
  intros k Hk. rewrite Hp. by apply keys_set_all_mono.
Qed.

Lemma Forall2_shop_le_grows (t t' : Service) :
  shoppingList t' = shoppingList t ->
  shoppingListExtended t' = shoppingListExtended t ->
  (exists more, errorHandler t' = errorHandler t ++ more) ->
  Forall2 shop_le (shopList t) (shopList t') ->
  grows t t'.
Proof.
  intros Hsl Hsle Herr Hle. repeat split; [done | done | done | |].
  - by apply Forall2_shop_le_covers.
  - by rewrite (Forall2_shop_le_ids _ _ Hle).
Qed.

Lemma crossSell_grows (st : St) :
  exists st', crossSell st = (Ok tt, st') /\ grows (snd st) (snd st').
Proof.
  destruct (crossSell_run st) as (st' & Hrun & Hsl & Hsle & Herr & Hprobed).
  exists st'. split; [done|]. apply Forall2_shop_le_grows; [done..|].
  eapply Forall2_impl; [exact Hprobed|]. intros s s'. apply probed_shop_le.
Qed.

Lemma shippingIncentives_grows (st : St) :
  exists st', shippingIncentives st = (Ok tt, st') /\ grows (snd st) (snd st').
Proof.
  destruct (shippingIncentives_run st) as (st' & Hrun & Hsl & Hsle & Herr & Hsame & _).
  exists st'. split; [done|]. apply Forall2_shop_le_grows; [done..|].
  eapply Forall2_impl; [exact Hsame|]. intros s s'. apply same_offers_shop_le.
Qed.

(** getShopList never throws.  When Stage A throws it returns the empty
    list; otherwise it returns the shop list that Stages B, C and D leave,
    and every later stage keeps what Stage B found. *)
Lemma getShopList_run (st : St) :
  match getProductRequestExtended st with
  | (Throw e, stA) =>
      getShopList st = (Ok [], (fst stA, push_error (LogExn e) (snd st)))
  | (Ok exts, stA) =>
      exists stB stF,
        for_each exts discoverOffers (fst stA, set_shoppingListExtended exts (snd stA))
        = (Ok tt, stB)
        /\ getShopList st = (Ok (shopList (snd stF)), stF)
        /\ grows (set_shoppingListExtended exts (snd stA)) (snd stB)
        /\ grows (snd stB) (snd stF)
        /\ Forall (fun s' => settledFreeShip s' (freeShip s')) (shopList (snd stF))
  end.
Proof.
  destruct (getProductRequestExtended_run st) as (r & stA & HA & Hframe & _).
  unfold getShopList. rewrite HA. destruct r as [exts|e].
  - destruct (discoverAll_grows exts (fst stA, set_shoppingListExtended exts (snd stA)))
      as (stB & HB & HgB).
    destruct (crossSell_grows stB) as (stC & HC & HgC).
    destruct (shippingIncentives_run stC) as (stD & HD & Hsl & Hsle & Herr & Hsame & Hset).
    destruct (shippingIncentives_grows stC) as (stD' & HD' & HgD).
    rewrite HD in HD'. inversion HD'; subst stD'.
    exists stB, stD. split; [done|].
    unfold bind at 1. unfold update at 1. cbn [fst snd].
    unfold bind at 1. unfold this at 1. cbn [fst snd].
    unfold bind at 1. cbn [shoppingListExtended set_shoppingListExtended]. rewrite HB.
    unfold bind at 1. rewrite HC. unfold bind at 1. rewrite HD.
    unfold bind, this, ret. split; [done|]. split; [done|].
    split; [by eapply grows_trans | done].
  - unfold_m. simpl. by rewrite Hframe.
Qed.

(** What Stage B finds for an item is in the shop list when the loop over
    all the items ends, and a failure of an item is in the accumulator. *)
Lemma discovered_after_loop (pre post : list ProductRequestExtended)
    (prod : ProductRequestExtended) (st0 stB1 stB : St) :
  for_each pre discoverOffers st0 = (Ok tt, stB1) ->
  for_each (pre ++ prod :: post) discoverOffers st0 = (Ok tt, stB) ->
  match findProductList prod stB1 with
  | (Throw e, st2) =>
      for_each (pre ++ [prod]) discoverOffers st0
      = (Ok tt, (fst st2, push_error (LogExn e) (snd stB1)))
      /\ LogExn e ∈ errorHandler (snd stB)
      /\ covers (shopList (snd stB1)) (shopList (snd stB))
  | (Ok ds, st2) =>
      forall d, d ∈ ds ->
        exists s, s ∈ shopList (snd stB) /\ shop_id s = shopId d
                  /\ ext_productName prod ∈ Js.keys (products s)
  end.
Proof.
  intros Hpre Hall. rewrite for_each_app, Hpre in Hall. cbn [for_each] in Hall.
  unfold bind in Hall. pose proof (discoverOffers_run prod stB1) as Hrun.
  destruct (findProductList prod stB1) as [[ds|e] st2].
  - destruct Hrun as (l' & Hrun & _ & Hin & _). rewrite Hrun in Hall.
    destruct (discoverAll_grows post (fst st2, set_shopList l' (snd stB1)))
      as (stB' & Hpost & (_ & _ & _ & Hcov & _)).
    rewrite Hpost in Hall. inversion Hall; subst stB'. intros d Hd.
    destruct (Hin d Hd) as (s & Hs & Hid & Hkey).
    destruct (Hcov s Hs) as (s' & Hs' & Hid' & _ & Hkeys).
    exists s'. split; [done|]. split; [congruence | by apply Hkeys].
  - rewrite Hrun in Hall.
    destruct (discoverAll_grows post (fst st2, push_error (LogExn e) (snd stB1)))
      as (stB' & Hpost & (_ & _ & [more Herr] & Hcov & _)).
    rewrite Hpost in Hall. inversion Hall; subst stB'. split; [|split].
    + rewrite for_each_app, Hpre. cbn [for_each]. unfold bind. by rewrite Hrun.
    + rewrite Herr. simpl. apply elem_of_app. left. apply elem_of_app. right. left.
    + exact Hcov.
Qed.

(** When Stage A resolves every item, the list getShopList returns holds
    what Stage B finds for each of them. *)
Lemma found_in_result (st stA : St) (exts : list ProductRequestExtended) :
  getProductRequestExtended st = (Ok exts, stA) ->
  exists shops stF,
    getShopList st = (Ok shops, stF)
    /\ forall pre prod post stB1 ds st2,
         exts = pre ++ prod :: post ->
         for_each pre discoverOffers
           (fst stA, set_shoppingListExtended exts (snd stA))
         = (Ok tt, stB1) ->
         findProductList prod stB1 = (Ok ds, st2) ->
         forall d, d ∈ ds ->
           exists s, s ∈ shops /\ shop_id s = shopId d
                     /\ ext_productName prod ∈ Js.keys (products s).
Proof.
  intros HA. pose proof (getShopList_run st) as Hrun. rewrite HA in Hrun.
  destruct Hrun as (stB & stF & HB & Hrun & _ & (_ & _ & _ & Hcov & _) & _).
  exists (shopList (snd stF)), stF. split; [done|].
  intros pre prod post stB1 ds st2 Hsplit Hpre Hfind d Hd. subst exts.
  pose proof (discovered_after_loop pre post prod _ stB1 stB Hpre HB) as Hdisc.
  rewrite Hfind in Hdisc. destruct (Hdisc d Hd) as (s & Hs & Hid & Hkey).
  destruct (Hcov s Hs) as (s' & Hs' & Hid' & _ & Hkeys).
  exists s'. split; [done|]. split; [congruence | by apply Hkeys].
Qed.

(** *** Stage C on a list with unique ids *)

Lemma mem_elem_of (x : string) (l : list string) : Js.mem x l = true <-> x ∈ l.
Proof.
  unfold Js.mem. rewrite existsb_exists. split.
  - intros (y & Hy & Heq). apply String.eqb_eq in Heq. subst.
    by apply list_elem_of_In.
  - intros Hx. exists x. split; [by apply list_elem_of_In | apply String.eqb_refl].
Qed.

Lemma find_by_id (l : list Shop) (i : nat) (s : Shop) :
  NoDup (map shop_id l) -> l !! i = Some s ->
  List.find (fun x => String.eqb (shop_id x) (shop_id s)) l = Some s.
Proof.
  revert i. induction l as [|a l IH]; intros i Hnd Hi; [done|].
  simpl in Hnd. apply NoDup_cons in Hnd as [Ha Hnd].
  destruct i as [|i]; simpl in *.
  - inversion Hi; subst. by rewrite String.eqb_refl.
  - destruct (String.eqb_spec (shop_id a) (shop_id s)) as [Heq|_]; [|by eapply IH].
    exfalso. apply Ha. rewrite Heq. apply (list_elem_of_fmap_2 shop_id).
    apply list_elem_of_lookup. eauto.
Qed.

Lemma target_not_owned (t : Service) (i : nat) (s : Shop) (k : string) :
  NoDup (map shop_id (shopList t)) -> shopList t !! i = Some s ->
  k ∈ targetProducts t (shop_id s) -> k ∉ Js.keys (products s).
Proof.
  intros Hnd Hi Hk. unfold targetProducts in Hk. rewrite (find_by_id _ i s Hnd Hi) in Hk.
  apply elem_of_bool_filter in Hk as [_ Hk]. intros Hin.
  apply mem_elem_of in Hin. by rewrite Hin in Hk.
Qed.

Lemma probed_keeps (t : Service) (s s' : Shop) :
  (forall k, k ∈ targetProducts t (shop_id s) -> k ∉ Js.keys (products s)) ->
  probed t s s' ->
  forall k v, Js.get k (products s) = Some v -> Js.get k (products s') = Some v.
Proof.
  intros Htarget (_ & _ & _ & added & Hp & Hadded) k v Hk.
  rewrite Hp, get_set_all.
  destruct (Js.get k (rev added)) as [v'|] eqn:Hget; [|done]. exfalso.
  assert (Hin : k ∈ Js.keys (rev added)) by (apply get_Some_keys; eauto).
  unfold Js.keys in Hin. apply (list_elem_of_fmap fst) in Hin as ([k' v0] & -> & Hin).
  apply list_elem_of_In, in_rev, list_elem_of_In in Hin.
  rewrite Forall_forall in Hadded.
  apply Hadded in Hin. simpl in *. apply (Htarget _ Hin).
  apply get_Some_keys. eauto.
Qed.
End Runs.

(** ** Stage C, shop by shop *)

Lemma grown_at_refl (idx : nat) (names : list string) (copy : list Shop) :
  grown_at idx names copy copy.
Proof. split; [done|]. intros c Hc. exists c. done. Qed.

Lemma grown_at_trans (idx : nat) (names1 names2 : list string) (a b c : list Shop) :
  grown_at idx names1 a b -> grown_at idx names2 b c ->
  grown_at idx (names1 ++ names2) a c.
Proof.
  intros [Hab Hab'] [Hbc Hbc']. split.
  - intros j Hj. by rewrite Hbc, Hab.
  - intros x Hx. destruct (Hab' x Hx) as (y & Hy & Hkeys & Hget).
    destruct (Hbc' y Hy) as (z & Hz & Hkeys' & Hget'). exists z.
    split; [done|]. split; [by auto|].
    intros k Hk. rewrite Hget', Hget; [done | |]; intros Hin; apply Hk;
      apply elem_of_app; [by left | by right].
Qed.

Lemma entries_split {A : Type} (l : list A) (pre post : list (nat * A)) (idx : nat)
    (x : A) :
  entries l = pre ++ (idx, x) :: post ->
  idx = length pre /\ l !! idx = Some x
  /\ Forall (fun e => fst e <> idx) pre /\ Forall (fun e => fst e <> idx) post.
Proof.
  intros Hsplit.
  assert (Hat : forall i e, (pre ++ (idx, x) :: post) !! i = Some e ->
                  fst e = i /\ l !! i = Some (snd e)).
  { intros i e He. rewrite <- Hsplit, entries_lookup in He.
    destruct (l !! i) as [y|]; [|done]. simpl in He. by inversion He; subst. }
  destruct (Hat (length pre) (idx, x)) as [Hidx Hx]; [by apply list_lookup_middle|].
  simpl in *. subst idx. split; [done|]. split; [done|]. split.
  - apply Forall_lookup. intros i e He.
    destruct (Hat i e) as [Hi _]; [by apply lookup_app_l_Some|].
    apply lookup_lt_Some in He. lia.
  - apply Forall_lookup. intros i e He.
    destruct (Hat (length pre + S i)%nat e) as [Hi _]; [|lia].
    rewrite lookup_app_r by lia.
    replace (length pre + S i - length pre)%nat with (S i) by lia. done.
Qed.

Section StageC.
Context `{Remote} `{ListingHeuristics}.

Lemma addOtherProduct_grown (idx : nat) (seller : string) (copy : list Shop)
    (prod : string) (st : St) :
  exists copy' st',
    addOtherProduct idx seller copy prod st = (Ok copy', st')
    /\ logs_only (snd st) (snd st')
    /\ grown_at idx [prod] copy copy'.
Proof.
  destruct (addOtherProduct_run idx seller copy prod st)
    as (copy' & st' & Hrun & Hlog & Hcases & _).
  exists copy', st'. split; [done|]. split; [done|].
  destruct Hcases as [->|(shop & pd & Hshop & ->)]; [apply grown_at_refl|].
  assert (Hlt : (idx < length copy)%nat) by (eapply lookup_lt_Some; eauto). split.
  - intros j Hj. by rewrite list_lookup_insert_ne.
  - intros c Hc. rewrite Hshop in Hc. inversion Hc; subst c. eexists.
    split; [by apply list_lookup_insert_eq|]. simpl. split.
    + intros k Hk. by apply keys_set_mono.
    + intros k Hk. apply get_set_ne. intros ->. apply Hk. left.
Qed.

Lemma addOthers_grown (idx : nat) (seller : string) (targets : list string)
    (copy : list Shop) (st : St) :
  exists copy' st',
    for_fold targets copy (addOtherProduct idx seller) st = (Ok copy', st')
    /\ logs_only (snd st) (snd st')
    /\ grown_at idx targets copy copy'.
Proof.
  revert copy st. induction targets as [|prod targets IH]; intros copy st; simpl.
  - exists copy, st. split; [done|]. split; [apply logs_only_refl | apply grown_at_refl].
  - destruct (addOtherProduct_grown idx seller copy prod st)
      as (copy1 & st1 & Hrun & Hlog & Hgrown).
    destruct (IH copy1 st1) as (copy2 & st2 & Hrun2 & Hlog2 & Hgrown2).
    exists copy2, st2. unfold bind. rewrite Hrun. split; [done|].
    split; [by eapply logs_only_trans|].
    apply (grown_at_trans idx [prod] targets _ _ _ Hgrown Hgrown2).
Qed.

Lemma probeShop_exact (copy : list Shop) (idx : nat) (e : SopIdList) (seller : string)
    (st st2 : St) :
  getShopId (sop_name e) st = (Ok seller, st2) ->
  probeShop copy (idx, e) st
  = if negb (length (targetProducts (snd st) (sop_name e)) =? 0)%nat
    then for_fold (targetProducts (snd st) (sop_name e)) copy
           (addOtherProduct idx seller) st2
    else (Ok copy, st2).
Proof.
  intros Hget. destruct (getShopId_frame _ _ _ _ Hget) as [Hframe _].
  unfold probeShop. rewrite Hget. unfold bind, this. cbn [snd]. rewrite Hframe.
  by destruct (negb _).
Qed.

Lemma probeShop_failed (copy : list Shop) (idx : nat) (e : SopIdList) (err : Exn)
    (st st2 : St) :
  getShopId (sop_name e) st = (Throw err, st2) ->
  probeShop copy (idx, e) st = (Ok copy, (fst st2, push_error (LogExn err) (snd st))).
Proof.
  intros Hget. destruct (getShopId_frame _ _ _ _ Hget) as [Hframe _].
  unfold probeShop. rewrite Hget. unfold_m. simpl. by rewrite Hframe.
Qed.

Lemma probeShop_grown (copy : list Shop) (idx : nat) (e : SopIdList) (st : St) :
  exists copy' st',
    probeShop copy (idx, e) st = (Ok copy', st')
    /\ logs_only (snd st) (snd st')
    /\ forall j, j <> idx -> copy' !! j = copy !! j.
Proof.
  destruct (getShopId (sop_name e) st) as [[seller|err] st2] eqn:Hget;
    destruct (getShopId_frame _ _ _ _ Hget) as [Hframe _].
  - rewrite (probeShop_exact copy idx e seller st st2 Hget). destruct (negb _).
    + destruct (addOthers_grown idx seller (targetProducts (snd st) (sop_name e)) copy st2)
        as (copy' & st' & Hrun & Hlog & [Hother _]).
      exists copy', st'. split; [done|]. rewrite <- Hframe. done.
    + exists copy, st2. split; [done|]. rewrite Hframe. split; [apply logs_only_refl | done].
  - rewrite (probeShop_failed copy idx e err st st2 Hget). eexists _, _.
    split; [done|]. split; [apply logs_only_push_error | done].
Qed.

Lemma probeAll_grown (es : list (nat * SopIdList)) (copy : list Shop) (st : St) :
  exists copy' st',
    for_fold es copy probeShop st = (Ok copy', st')
    /\ logs_only (snd st) (snd st')
    /\ forall j, Forall (fun e => fst e <> j) es -> copy' !! j = copy !! j.
Proof.
  revert copy st. induction es as [|[idx e] es IH]; intros copy st; cbn [for_fold].
  - exists copy, st. split; [done|]. split; [apply logs_only_refl | done].
  - destruct (probeShop_grown copy idx e st) as (copy1 & st1 & Hrun & Hlog & Hother).
    destruct (IH copy1 st1) as (copy2 & st2 & Hrun2 & Hlog2 & Hother2).
    exists copy2, st2. unfold bind. rewrite Hrun. split; [done|].
    split; [by eapply logs_only_trans|].
    intros j Hj. inversion Hj as [|? ? Hne Hj']; subst. simpl in Hne.
    rewrite Hother2 by done. apply Hother. congruence.
Qed.

Lemma crossSell_exact (st : St) :
  crossSell st
  = match for_fold (entries (shopIdList (shopList (snd st)))) (shopList (snd st))
            probeShop st with
    | (Ok found, stF) => (Ok tt, (fst stF, set_shopList found (snd stF)))
    | (Throw e, stF) => (Throw e, stF)
    end.
Proof.
  unfold crossSell, findShopHasAnotherProduct, shopIdList.
  unfold bind at 1. unfold this at 1. cbn [snd]. unfold bind at 1. unfold bind at 1.
  unfold this at 1. cbn [snd].
  by destruct (for_fold _ _ probeShop st) as [[found|e] stF].
Qed.

Lemma addOtherProduct_stores (idx : nat) (seller prod : string) (copy : list Shop)
    (c : Shop) (pd : ProductEntry) (st st1 : St) :
  getShopOtherProductInfo seller prod st = (Ok pd, st1) ->
  pe_id pd <> "" ->
  copy !! idx = Some c ->
  addOtherProduct idx seller copy prod st
  = (Ok (<[idx := set_products (Js.set prod pd (products c)) c]> copy), (fst st1, snd st)).
Proof.
  intros Hget Hid Hc. destruct (getShopOtherProductInfo_frame _ _ _ _ _ Hget) as [Hframe _].
  unfold addOtherProduct, try_catch, bind. rewrite Hget.
  destruct (String.eqb_spec (pe_id pd) "") as [?|_]; [done|]. simpl.
  rewrite Hc. unfold ret. destruct st1. simpl in *. by subst.
Qed.

(** A seller id that fails for a shop of the loop: the loop goes on from
    the same copy and the error stays in the accumulator to the end. *)
Lemma probeAll_seller_failure (pre post : list (nat * SopIdList)) (idx : nat)
    (e : SopIdList) (l copy1 copyF : list Shop) (st st1 st2 stF : St) (err : Exn) :
  for_fold (pre ++ (idx, e) :: post) l probeShop st = (Ok copyF, stF) ->
  for_fold pre l probeShop st = (Ok copy1, st1) ->
  getShopId (sop_name e) st1 = (Throw err, st2) ->
  for_fold (pre ++ [(idx, e)]) l probeShop st
  = (Ok copy1, (fst st2, push_error (LogExn err) (snd st1)))
  /\ for_fold post copy1 probeShop (fst st2, push_error (LogExn err) (snd st1))
     = (Ok copyF, stF)
  /\ LogExn err ∈ errorHandler (snd stF).
Proof.
  intros Hfold Hpre Hget.
  pose proof (probeShop_failed copy1 idx e err st1 st2 Hget) as Hstep.
  rewrite for_fold_app, Hpre in Hfold. cbn [for_fold] in Hfold. unfold bind in Hfold.
  rewrite Hstep in Hfold. split; [|split; [exact Hfold|]].
  - rewrite for_fold_app, Hpre. cbn [for_fold]. unfold bind. by rewrite Hstep.
  - destruct (probeAll_grown post copy1 (fst st2, push_error (LogExn err) (snd st1)))
      as (c' & s' & Hpost & (_ & _ & _ & [more Hmore]) & _).
    rewrite Hpost in Hfold. inversion Hfold; subst. rewrite Hmore. simpl.
    apply elem_of_app. left. apply elem_of_app. right. left.
Qed.

(** A cross-sell fetch of the loop: a failure stays in the accumulator to
    the end and the loop goes on from the same copy; a product that is
    found is in the shop at its index at the end. *)
Lemma probeAll_fetch (pre post : list (nat * SopIdList)) (idx : nat) (e : SopIdList)
    (l copy1 copy2 copyF : list Shop) (st st1 st2 st3 stF : St) (seller prod : string)
    (tpre tpost : list string) :
  entries (shopIdList l) = pre ++ (idx, e) :: post ->
  for_fold (pre ++ (idx, e) :: post) l probeShop st = (Ok copyF, stF) ->
  for_fold pre l probeShop st = (Ok copy1, st1) ->
  getShopId (sop_name e) st1 = (Ok seller, st2) ->
  targetProducts (snd st1) (sop_name e) = tpre ++ prod :: tpost ->
  for_fold tpre copy1 (addOtherProduct idx seller) st2 = (Ok copy2, st3) ->
  match getShopOtherProductInfo seller prod st3 with
  | (Throw err, st4) =>
      for_fold (tpre ++ [prod]) copy1 (addOtherProduct idx seller) st2
      = (Ok copy2, (fst st4, push_error (LogExn err) (snd st3)))
      /\ LogExn err ∈ errorHandler (snd stF)
  | (Ok prodDetail, st4) =>
      pe_id prodDetail <> "" ->
      exists s', copyF !! idx = Some s'
                 /\ prod ∈ Js.keys (products s')
                 /\ (prod ∉ tpost -> Js.get prod (products s') = Some prodDetail)
  end.
Proof.
  intros Hsplit Hfold Hpre Hseller Htargets Htpre.
  destruct (entries_split _ _ _ _ _ Hsplit) as (Hidx & He & Hpre_ne & Hpost_ne).
  assert (Hs : exists s, l !! idx = Some s).
  { unfold shopIdList in He. change (map ?f l) with (f <$> l) in He.
    rewrite list_lookup_fmap in He. destruct (l !! idx) as [s|]; [eauto | done]. }
  destruct Hs as [s Hs].
  destruct (probeAll_grown pre l st) as (copy1' & st1' & Hpre' & _ & Hother1).
  rewrite Hpre in Hpre'. inversion Hpre'; subst copy1' st1'.
  assert (Hc1 : copy1 !! idx = Some s) by by rewrite Hother1.
  destruct (addOthers_grown idx seller tpre copy1 st2)
    as (copy2' & st3' & Htpre' & _ & [_ Hgrown2]).
  rewrite Htpre in Htpre'. inversion Htpre'; subst copy2' st3'.
  destruct (Hgrown2 s Hc1) as (c2 & Hc2 & _).
  rewrite for_fold_app, Hpre in Hfold. cbn [for_fold] in Hfold. unfold bind in Hfold.
  rewrite (probeShop_exact copy1 idx e seller st1 st2 Hseller), Htargets in Hfold.
  assert (Hlen : (length (tpre ++ prod :: tpost) =? 0)%nat = false).
  { apply Nat.eqb_neq. rewrite length_app. simpl. lia. }
  rewrite Hlen in Hfold. cbn [negb] in Hfold.
  rewrite for_fold_app, Htpre in Hfold. cbn [for_fold] in Hfold. unfold bind in Hfold.
  destruct (getShopOtherProductInfo seller prod st3) as [[pd|err] st4] eqn:Hget.
  - intros Hid.
    rewrite (addOtherProduct_stores idx seller prod copy2 c2 pd st3 st4 Hget Hid Hc2)
      in Hfold.
    set (c3 := set_products (Js.set prod pd (products c2)) c2) in Hfold.
    assert (Hc3 : <[idx := c3]> copy2 !! idx = Some c3).
    { apply list_lookup_insert_eq. eapply lookup_lt_Some; eauto. }
    destruct (addOthers_grown idx seller tpost (<[idx := c3]> copy2) (fst st4, snd st3))
      as (copy4 & st5 & Htpost & _ & [_ Hgrown4]).
    rewrite Htpost in Hfold.
    destruct (Hgrown4 c3 Hc3) as (c4 & Hc4 & Hkeys & Hgets).
    destruct (probeAll_grown post copy4 st5) as (copyF' & stF' & Hpost & _ & Hother).
    rewrite Hpost in Hfold. inversion Hfold; subst copyF' stF'.
    exists c4. split; [by rewrite Hother|]. split.
    + apply Hkeys. unfold c3. simpl. apply keys_set_in.
    + intros Hlater. rewrite (Hgets prod Hlater). unfold c3. simpl. apply get_set_eq.
  - destruct (addOtherProduct_run idx seller copy2 prod st3)
      as (copy3 & st4' & Hrun & _ & _ & Hfail).
    destruct (Hfail err st4 Hget) as [-> ->]. rewrite Hrun in Hfold. split.
    + rewrite for_fold_app, Htpre. cbn [for_fold]. unfold bind. by rewrite Hrun.
    + destruct (addOthers_grown idx seller tpost copy2
                  (fst st4, push_error (LogExn err) (snd st3)))
        as (copy4 & st5 & Htpost & (_ & _ & _ & [m1 Hm1]) & _).
      rewrite Htpost in Hfold.
      destruct (probeAll_grown post copy4 st5)
        as (copyF' & stF' & Hpost & (_ & _ & _ & [m2 Hm2]) & _).
      rewrite Hpost in Hfold. inversion Hfold; subst copyF' stF'.
      rewrite Hm2, Hm1. simpl. apply elem_of_app. left. apply elem_of_app. left.
      apply elem_of_app. right. left.
Qed.
End StageC.

(** ** The properties of the service *)

Section Claims.
Context `{Remote} `{ListingHeuristics}.

(** C6: the constructor keeps the length and the order of the shopping
    list and the name of every item, and replaces a count above 3 by 3 and
    no other; the extended requests of Stage A, which the later stages
    work on, carry that count. *)
Theorem count_clamped (shoppingList0 : list ProductRequest) (i : nat)
    (x : ProductRequest) (Hx : shoppingList0 !! i = Some x) :
  length (shoppingList (GetShopListByRutenService shoppingList0)) = length shoppingList0
  /\ (exists y, shoppingList (GetShopListByRutenService shoppingList0) !! i = Some y
                /\ productName y = productName x
                /\ count y = if 3 <? count x then 3 else count x)
  /\ (forall (w : World) exts stA,
        getProductRequestExtended (w, GetShopListByRutenService shoppingList0)
        = (Ok exts, stA) ->
        length exts = length shoppingList0
        /\ exists e, exts !! i = Some e
                     /\ ext_productName e = productName x
                     /\ ext_count e = if 3 <? count x then 3 else count x).
Proof.
  assert (Hy : shoppingList (GetShopListByRutenService shoppingList0) !! i
               = Some (clamp x)).
  { simpl. unfold constructor_shoppingList.
    change (map clamp shoppingList0) with (clamp <$> shoppingList0).
    by rewrite list_lookup_fmap, Hx. }
  split; [|split].
  - simpl. unfold constructor_shoppingList. by rewrite length_map.
  - exists (clamp x). split; [done|]. split; [done | apply clamp_count].
  - intros w exts stA HA.
    destruct (getProductRequestExtended_run (w, GetShopListByRutenService shoppingList0))
      as (r & st' & Hrun & _ & Hok).
    rewrite HA in Hrun. inversion Hrun; subst r st'.
    specialize (Hok exts eq_refl). cbn [snd] in Hok. split.
    + rewrite <- (Forall2_length _ _ _ Hok). simpl. unfold constructor_shoppingList.
      by rewrite length_map.
    + destruct (Forall2_lookup_l _ _ _ _ _ Hok Hy) as (e & He & Hname & Hcount).
      exists e. split; [done|]. split; [done|]. by rewrite Hcount, clamp_count.
Qed.

(** C5: on a shop list with one entry per id, addOrUpdateShop answers -1
    with a new shop exactly when the id of the listing is not in the list,
    and otherwise the index of the shop with that id, with a shop of the
    same id; the caller pushes in the first case and replaces at the index
    in the second, so the ids stay unique; and they are unique in the list
    that getShopList returns and leaves in the service. *)
Theorem shop_ids_unique (st : St) (prod : ProductRequestExtended) (prodDetail : ProdDetail)
    (Huniq : NoDup (map shop_id (shopList (snd st)))) :
  (exists idx shop,
      addOrUpdateShop (shopList (snd st)) prod prodDetail = Ok (idx, shop)
      /\ shop_id shop = shopId prodDetail
      /\ ((idx = -1 /\ (shopId prodDetail ∉ map shop_id (shopList (snd st)))
           /\ putShop (shopList (snd st)) idx shop = shopList (snd st) ++ [shop])
          \/ (exists old, 0 <= idx
                /\ shopList (snd st) !! Z.to_nat idx = Some old
                /\ shop_id old = shopId prodDetail
                /\ putShop (shopList (snd st)) idx shop
                   = <[Z.to_nat idx := shop]> (shopList (snd st))))
      /\ NoDup (map shop_id (putShop (shopList (snd st)) idx shop)))
  /\ (exists shops stF,
        getShopList st = (Ok shops, stF)
        /\ NoDup (map shop_id shops)
        /\ NoDup (map shop_id (shopList (snd stF)))).
Proof.
  split.
  - destruct (putShop_step (shopList (snd st)) prod prodDetail)
      as (idx & shop & Heq & _ & _ & Hnd).
    destruct (addOrUpdateShop_ok (shopList (snd st)) prod prodDetail)
      as (idx' & shop' & Heq' & Hid & _ & Hcases).
    rewrite Heq in Heq'. inversion Heq'; subst idx' shop'.
    exists idx, shop. split; [done|]. split; [done|]. split; [|by apply Hnd].
    destruct Hcases as [[-> Hnew]|(old & Hpos & Hold & Hoid & _)].
    + left. done.
    + right. exists old. unfold putShop.
      destruct (Z.eqb_spec idx (-1)) as [?|_]; [lia | done].
  - pose proof (getShopList_run st) as Hrun.
    destruct (getProductRequestExtended_run st) as (r & stA & HA & Hframe & _).
    rewrite HA in Hrun. destruct r as [exts|e].
    + destruct Hrun as (stB & stF & _ & Hrun & (_ & _ & _ & _ & HndB) & (_ & _ & _ & _ & HndF) & _).
      exists (shopList (snd stF)), stF. split; [done|].
      assert (NoDup (map shop_id (shopList (snd stF)))); [|done].
      apply HndF, HndB. simpl. by rewrite Hframe.
    + eexists _, _. split; [exact Hrun|]. split; [constructor | done].
Qed.

(** C1, as the code has it: getShopList returns the empty list, with the
    error pushed on the accumulator, as soon as Stage A fails for one item
    (the first one in the order of the list that does not resolve); when
    every item resolves, it returns a shop list that holds, for every item
    and every listing Stage B finds for it, the shop of the listing with a
    product under the item's name. *)
Theorem getShopList_all_or_nothing (st : St) :
  (forall pre x post acc1 st1 e st2,
      entries (map extend (shoppingList (snd st))) = pre ++ x :: post ->
      for_fold pre (map extend (shoppingList (snd st))) resolveProduct st
      = (Ok acc1, st1) ->
      resolveProduct acc1 x st1 = (Throw e, st2) ->
      getShopList st = (Ok [], (fst st2, push_error (LogExn e) (snd st))))
  /\ (forall exts stA,
        getProductRequestExtended st = (Ok exts, stA) ->
        Forall2 extends_request (shoppingList (snd st)) exts
        /\ exists shops stF,
             getShopList st = (Ok shops, stF)
             /\ forall pre prod post stB1 ds st2,
                  exts = pre ++ prod :: post ->
                  for_each pre discoverOffers
                    (fst stA, set_shoppingListExtended exts (snd stA))
                  = (Ok tt, stB1) ->
                  findProductList prod stB1 = (Ok ds, st2) ->
                  forall d, d ∈ ds ->
                    exists s, s ∈ shops /\ shop_id s = shopId d
                              /\ ext_productName prod ∈ Js.keys (products s)).
Proof.
  split.
  - intros pre x post acc1 st1 e st2 Hsplit Hpre Hfail.
    pose proof (getShopList_run st) as Hrun.
    assert (HA : getProductRequestExtended st = (Throw e, st2)).
    { unfold getProductRequestExtended. unfold bind at 1. unfold this at 1. cbn [snd].
      rewrite Hsplit, for_fold_app, Hpre. cbn [for_fold]. unfold bind.
      by rewrite Hfail. }
    by rewrite HA in Hrun.
  - intros exts stA HA. pose proof (getShopList_run st) as Hrun.
    destruct (getProductRequestExtended_run st) as (r & stA' & HA' & _ & Hok).
    rewrite HA in Hrun, HA'. inversion HA'; subst r stA'.
    split; [by apply Hok|]. by apply found_in_result.
Qed.

(** C2: when the discovery of offers fails for one item, the error is
    pushed on the accumulator and the loop goes on with the next item;
    getShopList still returns a list, the error is in the accumulator at
    the end, the shops found before are in the list, and so is the shop
    of every listing found for any other item. *)
Theorem discovery_failure_contained (st stA stB1 st2 : St)
    (exts pre post : list ProductRequestExtended) (prod : ProductRequestExtended)
    (e : Exn)
    (HA : getProductRequestExtended st = (Ok exts, stA))
    (Hsplit : exts = pre ++ prod :: post)
    (Hpre : for_each pre discoverOffers
              (fst stA, set_shoppingListExtended exts (snd stA)) = (Ok tt, stB1))
    (Hfail : findProductList prod stB1 = (Throw e, st2)) :
  for_each (pre ++ [prod]) discoverOffers
    (fst stA, set_shoppingListExtended exts (snd stA))
  = (Ok tt, (fst st2, push_error (LogExn e) (snd stB1)))
  /\ exists shops stF,
       getShopList st = (Ok shops, stF)
       /\ LogExn e ∈ errorHandler (snd stF)
       /\ covers (shopList (snd stB1)) shops
       /\ forall pre' prod' post' stB1' ds st2',
            exts = pre' ++ prod' :: post' ->
            for_each pre' discoverOffers
              (fst stA, set_shoppingListExtended exts (snd stA)) = (Ok tt, stB1') ->
            findProductList prod' stB1' = (Ok ds, st2') ->
            forall d, d ∈ ds ->
              exists s, s ∈ shops /\ shop_id s = shopId d
                        /\ ext_productName prod' ∈ Js.keys (products s).
Proof.
  pose proof (getShopList_run st) as Hrun. rewrite HA in Hrun.
  destruct Hrun as (stB & stF & HB & Hrun & _ & (_ & _ & [more Herr] & Hcov & _) & _).
  pose proof HB as HB'. rewrite Hsplit in HB' at 1.
  pose proof (discovered_after_loop pre post prod _ stB1 stB Hpre HB') as Hdisc.
  rewrite Hfail in Hdisc. destruct Hdisc as (Hloop & Hlogged & HcovB).
  split; [done|]. exists (shopList (snd stF)), stF. split; [done|].
  split; [|split].
  - rewrite Herr. apply elem_of_app. by left.
  - by eapply covers_trans.
  - destruct (found_in_result st stA exts HA) as (shops & stF' & Hrun' & Hfound).
    rewrite Hrun in Hrun'. inversion Hrun'; subst shops stF'. exact Hfound.
Qed.

(** C8: Stage C ends normally whatever its requests do.  It is the loop
    over the shops of the list, and its result is assigned to the list.
    When the seller id of a shop does not resolve, the loop goes on to the
    next shop from the same copy and the error is on the accumulator at
    the end of the stage.  When a cross-sell fetch fails, the loop goes on
    to the next product from the same copy and the error is on the
    accumulator at the end of the stage.  A product that a fetch finds is
    among the products of its shop at the end of the stage, under the
    entry found unless a later fetch of the same name replaces it,
    whatever failed before or after it.  The accumulator only grows, and
    on a list with unique ids every shop is at its index afterwards, with
    its id, its fees and every product it had.  A seller id that does not
    resolve, or a fetch that fails, is pushed and leaves the copy as it
    was. *)
Theorem crossSell_keeps_shops (st : St)
    (Huniq : NoDup (map shop_id (shopList (snd st)))) :
  (exists st',
      crossSell st = (Ok tt, st')
      /\ (exists more, errorHandler (snd st') = errorHandler (snd st) ++ more)
      /\ Forall2
           (fun s s' =>
              shop_id s' = shop_id s /\ shipPrices s' = shipPrices s
              /\ freeShip s' = freeShip s
              /\ forall k v, Js.get k (products s) = Some v ->
                             Js.get k (products s') = Some v)
           (shopList (snd st)) (shopList (snd st'))
      /\ (exists found stF,
            for_fold (entries (shopIdList (shopList (snd st)))) (shopList (snd st))
              probeShop st = (Ok found, stF)
            /\ st' = (fst stF, set_shopList found (snd stF)))
      /\ (forall pre idx e post copy1 st1 err st2,
            entries (shopIdList (shopList (snd st))) = pre ++ (idx, e) :: post ->
            for_fold pre (shopList (snd st)) probeShop st = (Ok copy1, st1) ->
            getShopId (sop_name e) st1 = (Throw err, st2) ->
            for_fold (pre ++ [(idx, e)]) (shopList (snd st)) probeShop st
            = (Ok copy1, (fst st2, push_error (LogExn err) (snd st1)))
            /\ LogExn err ∈ errorHandler (snd st'))
      /\ (forall pre idx e post copy1 st1 seller st2 tpre prod tpost copy2 st3 err st4,
            entries (shopIdList (shopList (snd st))) = pre ++ (idx, e) :: post ->
            for_fold pre (shopList (snd st)) probeShop st = (Ok copy1, st1) ->
            getShopId (sop_name e) st1 = (Ok seller, st2) ->
            targetProducts (snd st) (sop_name e) = tpre ++ prod :: tpost ->
            for_fold tpre copy1 (addOtherProduct idx seller) st2 = (Ok copy2, st3) ->
            getShopOtherProductInfo seller prod st3 = (Throw err, st4) ->
            for_fold (tpre ++ [prod]) copy1 (addOtherProduct idx seller) st2
            = (Ok copy2, (fst st4, push_error (LogExn err) (snd st3)))
            /\ LogExn err ∈ errorHandler (snd st'))
      /\ (forall pre idx e post copy1 st1 seller st2 tpre prod tpost copy2 st3
                 prodDetail st4,
            entries (shopIdList (shopList (snd st))) = pre ++ (idx, e) :: post ->
            for_fold pre (shopList (snd st)) probeShop st = (Ok copy1, st1) ->
            getShopId (sop_name e) st1 = (Ok seller, st2) ->
            targetProducts (snd st) (sop_name e) = tpre ++ prod :: tpost ->
            for_fold tpre copy1 (addOtherProduct idx seller) st2 = (Ok copy2, st3) ->
            getShopOtherProductInfo seller prod st3 = (Ok prodDetail, st4) ->
            pe_id prodDetail <> "" ->
            exists s', shopList (snd st') !! idx = Some s'
                       /\ prod ∈ Js.keys (products s')
                       /\ (prod ∉ tpost ->
                           Js.get prod (products s') = Some prodDetail)))
  /\ (forall copy idx e st0 err st1,
        getShopId (sop_name e) st0 = (Throw err, st1) ->
        probeShop copy (idx, e) st0
        = (Ok copy, (fst st1, push_error (LogExn err) (snd st0))))
  /\ (forall idx seller copy prod st0 err st1,
        getShopOtherProductInfo seller prod st0 = (Throw err, st1) ->
        addOtherProduct idx seller copy prod st0
        = (Ok copy, (fst st1, push_error (LogExn err) (snd st0)))).
Proof.
  split; [|split].
  - destruct (crossSell_run st) as (st' & Hrun & _ & _ & Herr & Hprobed).
    pose proof (crossSell_exact st) as Hexact. rewrite Hrun in Hexact.
    destruct (for_fold (entries (shopIdList (shopList (snd st)))) (shopList (snd st))
                probeShop st) as [[found|?] stF] eqn:Hloop; [|discriminate Hexact].
    assert (Hst' : st' = (fst stF, set_shopList found (snd stF))) by congruence.
    clear Hexact.
    assert (Htargets : forall pre copy1 st1 name,
              for_fold pre (shopList (snd st)) probeShop st = (Ok copy1, st1) ->
              targetProducts (snd st1) name = targetProducts (snd st) name).
    { intros pre copy1 st1 name Hpre.
      destruct (probeAll_grown pre (shopList (snd st)) st) as (c & s & Hpre' & Hlog & _).
      rewrite Hpre in Hpre'. inversion Hpre'; subst c s.
      by apply targetProducts_logs_only. }
    exists st'. split; [done|].
    split; [done|]. split; [|split; [by eauto|split; [|split]]].
    + apply Forall2_same_length_lookup. split; [by eapply Forall2_length|].
      intros i s s' Hs Hs'.
      destruct (Forall2_lookup_l _ _ _ _ _ Hprobed Hs) as (s'' & Hs'' & Hp).
      rewrite Hs' in Hs''. inversion Hs''; subst s''.
      pose proof Hp as (Hid & Hsp & Hfs & _). repeat split; [done..|].
      apply (probed_keeps (snd st)); [|done].
      intros k Hk. by eapply target_not_owned.
    + intros pre idx e post copy1 st1 err st2 Hsplit Hpre Hget.
      rewrite Hsplit in Hloop.
      destruct (probeAll_seller_failure _ _ _ _ _ _ _ _ _ _ _ _ Hloop Hpre Hget)
        as (Hstep & _ & Hin).
      split; [exact Hstep|]. rewrite Hst'. exact Hin.
    + intros pre idx e post copy1 st1 seller st2 tpre prod tpost copy2 st3 err st4
        Hsplit Hpre Hseller Htg Htpre Hget.
      rewrite Hsplit in Hloop. rewrite <- (Htargets _ _ _ _ Hpre) in Htg.
      pose proof (probeAll_fetch _ _ _ _ _ _ _ _ _ _ _ _ _ _ _ _ _
                    Hsplit Hloop Hpre Hseller Htg Htpre) as Hfetch.
      rewrite Hget in Hfetch. destruct Hfetch as [Hstep Hin].
      split; [exact Hstep|]. rewrite Hst'. exact Hin.
    + intros pre idx e post copy1 st1 seller st2 tpre prod tpost copy2 st3 pd st4
        Hsplit Hpre Hseller Htg Htpre Hget Hid.
      rewrite Hsplit in Hloop. rewrite <- (Htargets _ _ _ _ Hpre) in Htg.
      pose proof (probeAll_fetch _ _ _ _ _ _ _ _ _ _ _ _ _ _ _ _ _
                    Hsplit Hloop Hpre Hseller Htg Htpre) as Hfetch.
      rewrite Hget in Hfetch. rewrite Hst'. exact (Hfetch Hid).
  - intros copy idx e st0 err st1 Hget. by apply probeShop_failed.
  - intros idx seller copy prod st0 err st1 Hget.
    destruct (addOtherProduct_run idx seller copy prod st0)
      as (copy' & st' & Hrun & _ & _ & Hfail).
    destruct (Hfail err st1 Hget) as [-> ->]. exact Hrun.
Qed.


(** The fallback of Stage D, as the code has it: when the endpoint gives
    no threshold of a recognised carrier, or the request fails, the shop
    gets one entry, with the sentinel, under the first key of its
    shipPrices when it has one. *)
Lemma getShipInfo_fallback (st : St) (shop s : Shop) (idx : nat) :
  shopList (snd st) !! idx = Some s ->
  recognizedFreeShip
    (snd (axios_get (fst st) (getRutenApis (SHOP_SHIP_INFO (shop_id shop))))) = [] ->
  fst (getShipInfo shop idx st) = Ok (defaultFreeShip s)
  /\ length (defaultFreeShip s) = 1%nat
  /\ (forall k, head (Js.keys (shipPrices s)) = Some k ->
                defaultFreeShip s = [(k, 99999)]).
Proof.
  intros Hidx Hnone. rewrite (getShipInfo_run shop s idx st Hidx).
  destruct (axios_get _ _) as [w r]. simpl in *. rewrite Hnone.
  split; [done|]. split; [done|]. intros k Hk. unfold defaultFreeShip. by rewrite Hk.
Qed.
End Claims.

(** ** The properties on the marketplace of tables *)

(** The carrier codes of the marketplace under their normalised keys. *)
Example carrier_key_codes :
  map carrier_key ["SEVEN"; "SEVEN_COD"; "FAMI"; "FAMI_COD"; "HILIFE"; "HILIFE_COD"]
  = ["SEVEN"; "SEVEN"; "FAMILY"; "FAMILY"; "HILIFE"; "HILIFE"].
Proof. reflexivity. Qed.

(** One item with a count of 5: the count becomes 3, the listing that names
    another rarity is filtered out, and the shop of the other listing gets
    its fees from the listing and its thresholds from Stage D. *)
Example single_item_run :
  Tables.run Tables.cards Tables.pages [{| productName := "12345+UR"; count := 5 |}]
  = (Ok [set_freeShip [("SEVEN", 1500)] Tables.shopA],
     {| shoppingList := [{| productName := "12345+UR"; count := 3 |}];
        shoppingListExtended := [Tables.extendedUR];
        shopList := [set_freeShip [("SEVEN", 1500)] Tables.shopA];
        errorHandler := [] |}).
Proof. vm_compute. reflexivity. Qed.

Lemma count_clamped_witness :
  exists y, shoppingList (GetShopListByRutenService Tables.partial) !! 0%nat = Some y
            /\ productName y = "12345+UR" /\ count y = 3.
Proof.
  destruct (@count_clamped (Tables.remote Tables.cards Tables.pages) Tables.partial 0
              {| productName := "12345+UR"; count := 5 |} eq_refl) as (_ & Hy & _).
  exact Hy.
Defined.

Lemma shop_ids_unique_witness :
  exists shops stF,
    @getShopList (Tables.remote Tables.cards Tables.pages) Tables.heuristics
      (tt, GetShopListByRutenService Tables.partial) = (Ok shops, stF)
    /\ NoDup (map shop_id shops)
    /\ NoDup (map shop_id (shopList (snd stF))).
Proof.
  destruct (@shop_ids_unique (Tables.remote Tables.cards Tables.pages) Tables.heuristics
              (tt, GetShopListByRutenService Tables.partial)
              Tables.extendedUR (toProdDetail Tables.L1) (NoDup_nil_2 (A:=string))) as [_ Hrun].
  exact Hrun.
Defined.

Lemma filterProdDetail_rarity_witness :
  exists x, x ∈ [Tables.L1; Tables.L2] /\ toProdDetail Tables.L1 = toProdDetail x
            /\ forall rar, rar ∈ ["UR"; "SR"] -> rar <> "UR" ->
                 negb (Js.includes rar (rp_name x)) = true.
Proof.
  refine (proj1 (@filterProdDetail_rarity Tables.heuristics [Tables.extendedUR]
                   [Tables.L1; Tables.L2] "12345+UR" "UR" Tables.extendedUR
                   eq_refl eq_refl _ _) (toProdDetail Tables.L1) _).
  - discriminate.
  - simpl. lia.
  - vm_compute. left.
Defined.

Lemma getShopList_all_or_nothing_witness :
  @getShopList (Tables.remote Tables.cards Tables.pages) Tables.heuristics
    (tt, GetShopListByRutenService Tables.unresolved)
  = (Ok [],
     (tt, push_error (LogExn (Error "Card data not found for 888 N"))
            (GetShopListByRutenService Tables.unresolved))).
Proof.
  destruct (@getShopList_all_or_nothing (Tables.remote Tables.cards Tables.pages)
              Tables.heuristics (tt, GetShopListByRutenService Tables.unresolved))
    as [Hfail _].
  exact (Hfail [_] _ [] _ _ _ _ eq_refl eq_refl eq_refl).
Defined.

Lemma discovery_failure_contained_witness :
  exists shops stF,
    @getShopList (Tables.remote Tables.cards Tables.pages) Tables.heuristics
      (tt, GetShopListByRutenService Tables.partial) = (Ok shops, stF)
    /\ LogExn (Error "Error while getting product list for 999+N") ∈ errorHandler (snd stF)
    /\ covers [Tables.shopA] shops.
Proof.
  destruct (@discovery_failure_contained (Tables.remote Tables.cards Tables.pages)
              Tables.heuristics (tt, GetShopListByRutenService Tables.partial)
              _ _ _ _ [_] [] _ _ eq_refl eq_refl eq_refl eq_refl)
    as (_ & shops & stF & Hrun & Hlog & Hcov & _).
  exists shops, stF. split; [exact Hrun|]. split; [exact Hlog | exact Hcov].
Defined.

Lemma crossSell_keeps_shops_witness :
  exists st',
    @crossSell (Tables.remote Tables.cards Tables.pages) (tt, Tables.discovered)
    = (Ok tt, st')
    /\ Forall2
         (fun s s' =>
            shop_id s' = shop_id s /\ shipPrices s' = shipPrices s
            /\ freeShip s' = freeShip s
            /\ forall k v, Js.get k (products s) = Some v ->
                           Js.get k (products s') = Some v)
         [Tables.shopA] (shopList (snd st'))
    /\ LogExn (Error "Error while getting other product info for 1001 999+N")
       ∈ errorHandler (snd st').
Proof.
  destruct (@crossSell_keeps_shops (Tables.remote Tables.cards Tables.pages)
              (tt, Tables.discovered) (NoDup_singleton _))
    as [(st' & Hrun & _ & Hkept & _ & _ & Hfetch & _) _].
  exists st'. split; [exact Hrun|]. split; [exact Hkept|].
  exact (proj2 (Hfetch [] 0%nat {| sop_name := "shopA"; sop_id := "" |} []
                  [Tables.shopA] (tt, Tables.discovered) "1001" (tt, Tables.discovered)
                  [] "999+N" [] [Tables.shopA] (tt, Tables.discovered) _
                  (tt, Tables.discovered)
                  eq_refl eq_refl eq_refl eq_refl eq_refl eq_refl)).
Defined.


(** C1, as stated, fails: the run on a list whose first item resolves and
    whose second does not returns the empty list. *)
Lemma empty_though_one_item_resolves :
  ~ (forall shoppingList0,
        fst (Tables.run Tables.cards Tables.pages shoppingList0) = Ok [] ->
        forall x, x ∈ shoppingList0 -> Tables.resolves x = false).
Proof.
  intros Hclaim.
  specialize (Hclaim Tables.unresolved eq_refl {| productName := "12345+UR"; count := 5 |}).
  assert (Hin : {| productName := "12345+UR"; count := 5 |} ∈ Tables.unresolved) by left.
  apply Hclaim in Hin. vm_compute in Hin. discriminate.
Qed.

(** C3 at a shop whose only listing declares no convenience-store carrier:
    its shipPrices is empty, the request for its shipping information
    fails, and the single entry of its freeShip is keyed by the string
    "undefined", not by a carrier. *)
Lemma fallback_key_undefined :
  fst (Tables.run Tables.cards Tables.pages Tables.postOnly)
  = Ok [{| shop_id := "shopC";
           products := [("777+N", {| pe_id := "L3"; pe_price := 10; pe_qtl := 9 |})];
           shipPrices := [];
           freeShip := [("undefined", 99999)] |}].
Proof. vm_compute. reflexivity. Qed.

(** ** Stage B as a function of the shop list *)

Lemma mergeListing_spec (l : list Shop) (prod : ProductRequestExtended) (d : ProdDetail) :
  ((shopId d ∉ map shop_id l) /\ mergeListing prod l d = l ++ [newShop prod d])
  \/ (exists i s,
        l !! i = Some s /\ shop_id s = shopId d
        /\ (forall j y, (j < i)%nat -> l !! j = Some y -> shop_id y <> shopId d)
        /\ mergeListing prod l d
           = <[i := set_products
                      (Js.set (ext_productName prod) (productEntry d) (products s)) s]> l).
Proof.
  unfold mergeListing, addOrUpdateShop.
  destruct (findIndex_spec (fun x => String.eqb (shop_id x) (shopId d)) l)
    as [[-> Hall]|(n & x & -> & Hx & Hpx & Hbefore)].
  - left. simpl. split; [|done]. intros Hin.
    apply (list_elem_of_fmap shop_id) in Hin as (y & Hy & Hin).
    rewrite Forall_forall in Hall. apply Hall in Hin.
    rewrite <- Hy, String.eqb_refl in Hin. done.
  - right. destruct (Z.eqb_spec (Z.of_nat n) (-1)) as [Hneg|Hpos]; [lia|].
    rewrite Nat2Z.id, Hx. exists n, x. split; [done|].
    split; [by apply String.eqb_eq|]. split.
    + intros j y Hj Hy Heq. specialize (Hbefore j y Hj Hy).
      rewrite Heq, String.eqb_refl in Hbefore. done.
    + unfold putShop. simpl. destruct (Z.eqb_spec (Z.of_nat n) (-1)); [lia|].
      by rewrite Nat2Z.id.
Qed.

Lemma mergeListing_NoDup (l : list Shop) (prod : ProductRequestExtended) (d : ProdDetail) :
  NoDup (map shop_id l) -> NoDup (map shop_id (mergeListing prod l d)).
Proof.
  intros Hnd. destruct (putShop_step l prod d) as (idx & shop & Heq & _ & _ & Hstep).
  unfold mergeListing. rewrite Heq. by apply Hstep.
Qed.

Lemma mergeListings_NoDup (prod : ProductRequestExtended) (ds : list ProdDetail)
    (l : list Shop) :
  NoDup (map shop_id l) -> NoDup (map shop_id (mergeListings prod ds l)).
Proof.
  revert l. induction ds as [|d ds IH]; intros l Hnd; simpl; [done|].
  apply IH. by apply mergeListing_NoDup.
Qed.

Lemma mergeListings_app (prod : ProductRequestExtended) (ds1 ds2 : list ProdDetail)
    (l : list Shop) :
  mergeListings prod (ds1 ++ ds2) l = mergeListings prod ds2 (mergeListings prod ds1 l).
Proof. unfold mergeListings. by rewrite fold_left_app. Qed.

(** The entry of a shop under a name is untouched by a listing of another
    shop. *)
Lemma mergeListing_other_shop (l : list Shop) (prod : ProductRequestExtended)
    (d : ProdDetail) (sid : string) (P : Shop -> Prop) :
  shopId d <> sid ->
  (forall s, s ∈ l -> shop_id s = sid -> P s) ->
  forall s, s ∈ mergeListing prod l d -> shop_id s = sid -> P s.
Proof.
  intros Hne HP s Hs Hid.
  destruct (mergeListing_spec l prod d) as [[_ Heq]|(i & s0 & Hs0 & Hid0 & _ & Heq)];
    rewrite Heq in Hs.
  - apply elem_of_app in Hs as [Hs|Hs]; [by apply HP|].
    apply list_elem_of_singleton in Hs. subst s. simpl in Hid. done.
  - apply list_elem_of_lookup in Hs as [j Hj].
    destruct (decide (j = i)) as [->|Hji].
    + rewrite list_lookup_insert_eq in Hj by (eapply lookup_lt_Some; eauto).
      inversion Hj; subst s. simpl in Hid. congruence.
    + rewrite list_lookup_insert_ne in Hj by done.
      apply HP; [|done]. apply list_elem_of_lookup. eauto.
Qed.

Lemma NoDup_ids_unique (l : list Shop) (i j : nat) (s s' : Shop) :
  NoDup (map shop_id l) -> l !! i = Some s -> l !! j = Some s' ->
  shop_id s = shop_id s' -> i = j.
Proof.
  intros Hnd Hi Hj Heq. eapply NoDup_lookup; [exact Hnd | |].
  - change (map shop_id l) with (shop_id <$> l). by rewrite list_lookup_fmap, Hi.
  - change (map shop_id l) with (shop_id <$> l). rewrite list_lookup_fmap, Hj. simpl.
    by rewrite Heq.
Qed.

Section StageB.
Context `{Remote} `{ListingHeuristics}.

Lemma mergeProdDetail_exact (prod : ProductRequestExtended) (d : ProdDetail) (st : St) :
  mergeProdDetail prod d st
  = (Ok tt, (fst st, set_shopList (mergeListing prod (shopList (snd st)) d) (snd st))).
Proof.
  destruct (addOrUpdateShop_ok (shopList (snd st)) prod d) as (idx & shop & Heq & _).
  unfold mergeProdDetail, mergeListing. unfold_m. simpl. by rewrite Heq.
Qed.

Lemma mergeAll_exact (prod : ProductRequestExtended) (ds : list ProdDetail) (st : St) :
  for_each ds (mergeProdDetail prod) st
  = (Ok tt, (fst st, set_shopList (mergeListings prod ds (shopList (snd st))) (snd st))).
Proof.
  revert st. induction ds as [|d ds IH]; intros [w t]; simpl.
  - unfold ret. by destruct t.
  - unfold bind. rewrite mergeProdDetail_exact. simpl. by rewrite IH.
Qed.

(** X1: one listing merged into the shop list.  The shop of the listing is
    afterwards in the list with the listing's entry under the item's name,
    and every other position is as it was.  A shop that was in the list
    keeps its place, its fees, its thresholds and its other products, and
    the length does not change; a new shop is appended with that single
    product, the fees of the listing and no thresholds. *)
Theorem mergeProdDetail_round_trip (prod : ProductRequestExtended) (d : ProdDetail)
    (st : St) :
  exists l' i s',
    mergeProdDetail prod d st = (Ok tt, (fst st, set_shopList l' (snd st)))
    /\ l' !! i = Some s'
    /\ shop_id s' = shopId d
    /\ Js.get (ext_productName prod) (products s') = Some (productEntry d)
    /\ (forall j, j <> i -> l' !! j = shopList (snd st) !! j)
    /\ match shopList (snd st) !! i with
       | Some s =>
           shop_id s = shopId d
           /\ shipPrices s' = shipPrices s /\ freeShip s' = freeShip s
           /\ (forall k, k <> ext_productName prod ->
                 Js.get k (products s') = Js.get k (products s))
           /\ length l' = length (shopList (snd st))
       | None =>
           i = length (shopList (snd st))
           /\ (shopId d ∉ map shop_id (shopList (snd st)))
           /\ s' = newShop prod d
           /\ length l' = S (length (shopList (snd st)))
       end.
Proof.
  rewrite mergeProdDetail_exact. set (l := shopList (snd st)).
  exists (mergeListing prod l d).
  destruct (mergeListing_spec l prod d) as [[Hnew Heq]|(i & s & Hs & Hid & _ & Heq)];
    rewrite Heq.
  - exists (length l), (newShop prod d). split; [done|].
    split; [by rewrite list_lookup_middle|]. split; [done|].
    split; [simpl; by rewrite String.eqb_refl|]. split.
    + intros j Hj. destruct (decide (j < length l)%nat) as [Hlt|Hge].
      * by rewrite lookup_app_l.
      * rewrite lookup_app_r by lia. rewrite (lookup_ge_None_2 l) by lia.
        apply lookup_ge_None_2. simpl. lia.
    + rewrite (lookup_ge_None_2 l) by lia. rewrite length_app. simpl.
      repeat split; [done | lia].
  - assert (Hlt : (i < length l)%nat) by (eapply lookup_lt_Some; eauto).
    eexists i, _. split; [done|].
    split; [by apply list_lookup_insert_eq|]. split; [done|].
    split; [simpl; apply get_set_eq|]. split.
    + intros j Hj. by rewrite list_lookup_insert_ne.
    + rewrite Hs. simpl. repeat split; [done | | by rewrite length_insert].
      intros k Hk. by apply get_set_ne.
Qed.

(** X2: when the listings of one item hold several listings of one shop,
    the entry the shop keeps under the item's name is the one of the last
    of them (on a shop list with unique ids). *)
Theorem last_listing_wins (prod : ProductRequestExtended) (ds1 ds2 : list ProdDetail)
    (d : ProdDetail) (st : St)
    (Huniq : NoDup (map shop_id (shopList (snd st))))
    (Hlast : forall d', d' ∈ ds2 -> shopId d' <> shopId d) :
  exists l',
    for_each (ds1 ++ d :: ds2) (mergeProdDetail prod) st
    = (Ok tt, (fst st, set_shopList l' (snd st)))
    /\ (exists s, s ∈ l' /\ shop_id s = shopId d)
    /\ forall s, s ∈ l' -> shop_id s = shopId d ->
         Js.get (ext_productName prod) (products s) = Some (productEntry d).
Proof.
  rewrite mergeAll_exact. eexists. split; [done|].
  rewrite mergeListings_app. simpl.
  set (l1 := mergeListings prod ds1 (shopList (snd st))).
  assert (Hnd1 : NoDup (map shop_id l1)) by by apply mergeListings_NoDup.
  set (l2 := mergeListing prod l1 d).
  assert (Hl2 : (exists s, s ∈ l2 /\ shop_id s = shopId d)
                /\ forall s, s ∈ l2 -> shop_id s = shopId d ->
                     Js.get (ext_productName prod) (products s) = Some (productEntry d)).
  { assert (Hnd2 : NoDup (map shop_id l2)) by by apply mergeListing_NoDup.
    assert (Hhere : exists i s, l2 !! i = Some s /\ shop_id s = shopId d
              /\ Js.get (ext_productName prod) (products s) = Some (productEntry d)).
    { unfold l2.
      destruct (mergeListing_spec l1 prod d) as [[_ Heq]|(i & s & Hs & Hid & _ & Heq)];
        rewrite Heq.
      - exists (length l1), (newShop prod d). split; [by rewrite list_lookup_middle|].
        split; [done|]. simpl. by rewrite String.eqb_refl.
      - eexists i, _. split; [apply list_lookup_insert_eq; eapply lookup_lt_Some; eauto|].
        split; [done|]. simpl. apply get_set_eq. }
    destruct Hhere as (i & s & Hs & Hid & Hget). split.
    - exists s. split; [|done]. apply list_elem_of_lookup. eauto.
    - intros s' Hs' Hid'. apply list_elem_of_lookup in Hs' as [j Hj].
      assert (j = i) as -> by (eapply NoDup_ids_unique; eauto; congruence).
      rewrite Hs in Hj. by inversion Hj; subst. }
  clearbody l2. clear Hnd1. revert l2 Hl2.
  induction ds2 as [|d' ds2 IH]; intros l2 [Hex Hall]; simpl; [done|].
  apply IH.
  - intros d'' Hd''. apply Hlast. by right.
  - assert (Hne : shopId d' <> shopId d) by (apply Hlast; left). split.
    + destruct Hex as (s & Hs & Hid).
      destruct (putShop_step l2 prod d') as (idx & shop & Heq & Hcov & _).
      destruct (Hcov s Hs) as (s' & Hs' & Hid' & _). exists s'.
      unfold mergeListing. rewrite Heq. split; [done | congruence].
    + apply (mergeListing_other_shop l2 prod d' (shopId d)
               (fun s => Js.get (ext_productName prod) (products s)
                         = Some (productEntry d))); done.
Qed.
End StageB.

(** ** The whole run, stage by stage *)

Lemma filterProdDetail_length `{ListingHeuristics} (sle : list ProductRequestExtended)
    (data : list RutenProductDetail) (productName : string) :
  (length (filterProdDetail sle data productName) <= 10)%nat.
Proof. rewrite filterProdDetail_stages, length_firstn. lia. Qed.

Lemma mergeListing_length (prod : ProductRequestExtended) (l : list Shop) (d : ProdDetail) :
  (length l <= length (mergeListing prod l d) <= S (length l))%nat.
Proof.
  destruct (mergeListing_spec l prod d) as [[_ ->]|(i & s & _ & _ & _ & ->)].
  - rewrite length_app. simpl. lia.
  - rewrite length_insert. lia.
Qed.

Lemma mergeListings_length (prod : ProductRequestExtended) (ds : list ProdDetail)
    (l : list Shop) :
  (length l <= length (mergeListings prod ds l) <= length l + length ds)%nat.
Proof.
  unfold mergeListings. revert l. induction ds as [|d ds IH]; intros l; simpl; [lia|].
  pose proof (mergeListing_length prod l d). specialize (IH (mergeListing prod l d)).
  lia.
Qed.

Lemma keys_set_inv {V : Type} (k k0 : string) (v : V) (o : list (string * V)) :
  k ∈ Js.keys (Js.set k0 v o) -> k = k0 \/ k ∈ Js.keys o.
Proof.
  intros Hk. destruct (String.eqb_spec k0 k) as [->|Hne]; [by left|]. right.
  apply get_Some_keys. apply get_Some_keys in Hk. by rewrite get_set_ne in Hk.
Qed.

Lemma keys_set_all_inv {V : Type} (k : string) (added o : list (string * V)) :
  k ∈ Js.keys (Js.set_all added o) -> k ∈ Js.keys added \/ k ∈ Js.keys o.
Proof.
  revert o. induction added as [|[k0 v0] added IH]; intros o Hk; simpl in *; [by right|].
  destruct (IH _ Hk) as [Hin|Hin]; [left; by right|].
  destruct (keys_set_inv _ _ _ _ Hin) as [->|Hin']; [left; left | by right].
Qed.

(** The product names of a shop list all lie in a list of names. *)
Lemma mergeListing_names (names : list string) (prod : ProductRequestExtended)
    (l : list Shop) (d : ProdDetail) :
  ext_productName prod ∈ names ->
  (forall s, s ∈ l -> forall k, k ∈ Js.keys (products s) -> k ∈ names) ->
  forall s, s ∈ mergeListing prod l d -> forall k, k ∈ Js.keys (products s) -> k ∈ names.
Proof.
  intros Hname Hl s Hs k Hk.
  destruct (mergeListing_spec l prod d) as [[_ Heq]|(i & s0 & Hs0 & _ & _ & Heq)];
    rewrite Heq in Hs.
  - apply elem_of_app in Hs as [Hs|Hs]; [by eapply Hl|].
    apply list_elem_of_singleton in Hs. subst s. simpl in Hk.
    apply list_elem_of_singleton in Hk. by subst.
  - apply list_elem_of_lookup in Hs as [j Hj].
    destruct (decide (j = i)) as [->|Hji].
    + rewrite list_lookup_insert_eq in Hj by (eapply lookup_lt_Some; eauto).
      inversion Hj; subst s. simpl in Hk.
      destruct (keys_set_inv _ _ _ _ Hk) as [->|Hk']; [done|].
      eapply Hl; [|done]. apply list_elem_of_lookup. eauto.
    + rewrite list_lookup_insert_ne in Hj by done.
      eapply Hl; [|done]. apply list_elem_of_lookup. eauto.
Qed.

Section Stages.
Context `{Remote} `{ListingHeuristics}.

Lemma findProductList_length (prod : ProductRequestExtended) (st : St)
    (ds : list ProdDetail) (st' : St) :
  findProductList prod st = (Ok ds, st') -> (length ds <= 10)%nat.
Proof.
  unfold findProductList. unfold_m. destruct st as [w t]. simpl. intros Hrun.
  repeat (break_match; unfold_m; simpl in *; try inv_pair; try discriminate);
    [lia | apply filterProdDetail_length].
Qed.

Lemma discoverOffers_exact (prod : ProductRequestExtended) (st : St) :
  discoverOffers prod st
  = match findProductList prod st with
    | (Ok ds, st1) =>
        (Ok tt,
         (fst st1, set_shopList (mergeListings prod ds (shopList (snd st))) (snd st)))
    | (Throw e, st1) => (Ok tt, (fst st1, push_error (LogExn e) (snd st)))
    end.
Proof.
  unfold discoverOffers, try_catch, bind.
  destruct (findProductList prod st) as [[ds|e] st1] eqn:Hfind;
    destruct (findProductList_frame _ _ _ _ Hfind) as [Hframe _].
  - rewrite mergeAll_exact. by rewrite Hframe.
  - unfold update. simpl. by rewrite Hframe.
Qed.

(** What holds of the shop list before the loop of Stage B and is kept by
    the merge of a listing of any of the items holds after the loop. *)
Lemma discoverAll_invariant (P : list Shop -> Prop) (exts : list ProductRequestExtended)
    (st st' : St) :
  (forall prod l d, prod ∈ exts -> P l -> P (mergeListing prod l d)) ->
  P (shopList (snd st)) ->
  for_each exts discoverOffers st = (Ok tt, st') ->
  P (shopList (snd st')).
Proof.
  revert st. induction exts as [|prod exts IH]; intros st Hstep HP Hrun; simpl in Hrun.
  - unfold ret in Hrun. by inversion Hrun; subst.
  - unfold bind in Hrun. rewrite discoverOffers_exact in Hrun.
    destruct (findProductList prod st) as [[ds|e] st1].
    + eapply IH; [| |exact Hrun].
      * intros prod' l d Hin. apply Hstep. by right.
      * simpl. clear Hrun. revert HP. generalize (shopList (snd st)).
        induction ds as [|d ds IHds]; intros l HP; simpl; [done|].
        apply IHds. apply Hstep; [left | done].
    + eapply IH; [| |exact Hrun].
      * intros prod' l d Hin. apply Hstep. by right.
      * done.
Qed.

Lemma discoverAll_length (exts : list ProductRequestExtended) (st st' : St) :
  for_each exts discoverOffers st = (Ok tt, st') ->
  (length (shopList (snd st')) <= length (shopList (snd st)) + 10 * length exts)%nat.
Proof.
  revert st. induction exts as [|prod exts IH]; intros st Hrun; simpl in Hrun.
  - unfold ret in Hrun. inversion Hrun; subst. lia.
  - unfold bind in Hrun. rewrite discoverOffers_exact in Hrun.
    destruct (findProductList prod st) as [[ds|e] st1] eqn:Hfind.
    + apply IH in Hrun. simpl in Hrun.
      pose proof (findProductList_length _ _ _ _ Hfind).
      pose proof (mergeListings_length prod ds (shopList (snd st))). simpl. lia.
    + apply IH in Hrun. simpl in *. lia.
Qed.

(** The run of getShopList as its four stages. *)
Lemma getShopList_stages (st : St) :
  match getProductRequestExtended st with
  | (Throw e, stA) =>
      getShopList st = (Ok [], (fst stA, push_error (LogExn e) (snd st)))
  | (Ok exts, stA) =>
      exists stB stC stD,
        Forall2 extends_request (shoppingList (snd st)) exts
        /\ for_each exts discoverOffers (fst stA, set_shoppingListExtended exts (snd st))
           = (Ok tt, stB)
        /\ crossSell stB = (Ok tt, stC)
        /\ shippingIncentives stC = (Ok tt, stD)
        /\ getShopList st = (Ok (shopList (snd stD)), stD)
  end.
Proof.
  destruct (getProductRequestExtended_run st) as (r & stA & HA & Hframe & Hok).
  unfold getShopList. rewrite HA. destruct r as [exts|e].
  - destruct (discoverAll_grows exts (fst stA, set_shoppingListExtended exts (snd st)))
      as (stB & HB & _).
    destruct (crossSell_run stB) as (stC & HC & _).
    destruct (shippingIncentives_run stC) as (stD & HD & _).
    exists stB, stC, stD. split; [by apply Hok|]. split; [done|]. split; [done|].
    split; [done|].
    unfold bind at 1. unfold update at 1. cbn [fst snd].
    unfold bind at 1. unfold this at 1. cbn [fst snd].
    unfold bind at 1. cbn [shoppingListExtended set_shoppingListExtended].
    rewrite Hframe, HB. unfold bind at 1. rewrite HC. unfold bind at 1. rewrite HD.
    by unfold bind, this, ret.
  - unfold_m. simpl. by rewrite Hframe.
Qed.

(** X3: getShopList never throws, whatever the data layer and the
    marketplace answer.  It returns the empty list or the shop list it
    leaves in the service, it leaves the shopping list as it was, and the
    error accumulator only grows at its end. *)
Theorem getShopList_never_throws (st : St) :
  exists shops stF,
    getShopList st = (Ok shops, stF)
    /\ (shops = [] \/ shops = shopList (snd stF))
    /\ shoppingList (snd stF) = shoppingList (snd st)
    /\ exists more, errorHandler (snd stF) = errorHandler (snd st) ++ more.
Proof.
  pose proof (getShopList_run st) as Hrun.
  destruct (getProductRequestExtended_run st) as (r & stA & HA & Hframe & _).
  rewrite HA in Hrun. destruct r as [exts|e].
  - destruct Hrun as (stB & stF & _ & Hrun & (HslB & _ & [m1 HeB] & _)
                      & (HslF & _ & [m2 HeF] & _) & _).
    exists (shopList (snd stF)), stF. split; [done|]. split; [by right|].
    simpl in *. split; [congruence|]. exists (m1 ++ m2).
    by rewrite HeF, HeB, Hframe, app_assoc.
  - eexists _, _. split; [exact Hrun|]. split; [by left|]. split; [done|].
    simpl. eauto.
Qed.

(** X4: every item adds at most ten shops: the list that getShopList
    returns has at most ten shops per item of the shopping list beyond
    those the service held before. *)
Theorem getShopList_size (st : St) :
  exists shops stF,
    getShopList st = (Ok shops, stF)
    /\ (length shops
        <= length (shopList (snd st)) + 10 * length (shoppingList (snd st)))%nat.
Proof.
  pose proof (getShopList_stages st) as Hrun.
  destruct (getProductRequestExtended st) as [[exts|e] stA].
  - destruct Hrun as (stB & stC & stD & Hexts & HB & HC & HD & Hrun).
    exists (shopList (snd stD)), stD. split; [done|].
    apply discoverAll_length in HB. simpl in HB.
    destruct (crossSell_run stB) as (stC' & HC' & _ & _ & _ & HprobedC).
    rewrite HC in HC'. inversion HC'; subst stC'.
    destruct (shippingIncentives_run stC) as (stD' & HD' & _ & _ & _ & HsameD & _).
    rewrite HD in HD'. inversion HD'; subst stD'.
    rewrite <- (Forall2_length _ _ _ HsameD), <- (Forall2_length _ _ _ HprobedC).
    by rewrite (Forall2_length _ _ _ Hexts).
  - eexists _, _. split; [exact Hrun|]. simpl. lia.
Qed.

(** X5: getShopList files products under requested names only: when the
    products of the shops the service holds are items of the shopping
    list, so are the products of every shop it returns. *)
Theorem getShopList_products_requested (st : St)
    (Hinit : forall s, s ∈ shopList (snd st) -> forall k, k ∈ Js.keys (products s) ->
               k ∈ map productName (shoppingList (snd st))) :
  exists shops stF,
    getShopList st = (Ok shops, stF)
    /\ forall s, s ∈ shops -> forall k, k ∈ Js.keys (products s) ->
         k ∈ map productName (shoppingList (snd st)).
Proof.
  pose proof (getShopList_stages st) as Hrun.
  destruct (getProductRequestExtended st) as [[exts|e] stA].
  - destruct Hrun as (stB & stC & stD & Hexts & HB & HC & HD & Hrun).
    exists (shopList (snd stD)), stD. split; [done|].
    set (names := map productName (shoppingList (snd st))) in *.
    assert (HPB : forall s, s ∈ shopList (snd stB) -> forall k,
                k ∈ Js.keys (products s) -> k ∈ names).
    { eapply (discoverAll_invariant
                (fun l => forall s, s ∈ l -> forall k, k ∈ Js.keys (products s) -> k ∈ names));
        [| |exact HB]; [|exact Hinit].
      intros prod l d Hprod HP. apply mergeListing_names; [|done].
      apply list_elem_of_lookup in Hprod as [i Hi].
      destruct (Forall2_lookup_r _ _ _ _ _ Hexts Hi) as (x & Hx & Hname & _).
      rewrite Hname. apply (list_elem_of_fmap_2 productName).
      apply list_elem_of_lookup. eauto. }
    destruct (discoverAll_grows exts (fst stA, set_shoppingListExtended exts (snd st)))
      as (stB' & HB' & (HslB & _)).
    rewrite HB in HB'. inversion HB'; subst stB'. simpl in HslB.
    destruct (crossSell_run stB) as (stC' & HC' & _ & _ & _ & HprobedC).
    rewrite HC in HC'. inversion HC'; subst stC'.
    destruct (shippingIncentives_run stC) as (stD' & HD' & _ & _ & _ & HsameD & _).
    rewrite HD in HD'. inversion HD'; subst stD'.
    intros s Hs k Hk. apply list_elem_of_lookup in Hs as [i Hi].
    destruct (Forall2_lookup_r _ _ _ _ _ HsameD Hi) as (sC & HsC & _ & Hprod & _).
    rewrite Hprod in Hk.
    destruct (Forall2_lookup_r _ _ _ _ _ HprobedC HsC)
      as (sB & HsB & _ & _ & _ & added & Hp & Hadded).
    rewrite Hp in Hk. destruct (keys_set_all_inv _ _ _ Hk) as [Hin|Hin].
    + unfold Js.keys in Hin. apply (list_elem_of_fmap fst) in Hin as (e & -> & He).
      rewrite Forall_forall in Hadded. apply Hadded in He.
      unfold targetProducts in He. apply elem_of_bool_filter in He as [He _].
      unfold names. by rewrite <- HslB.
    + eapply HPB; [|done]. apply list_elem_of_lookup. eauto.
  - eexists _, _. split; [exact Hrun|]. intros s Hs. inversion Hs.
Qed.

(** X6: Stage D never throws and changes nothing but the thresholds: the
    shops keep their order, ids, products and fees, and every shop ends
    with a non-empty freeShip, which is the one-entry fallback or holds
    recognised carriers only. *)
Theorem shippingIncentives_sets_freeShip (st : St) :
  exists st',
    shippingIncentives st = (Ok tt, st')
    /\ shoppingList (snd st') = shoppingList (snd st)
    /\ Forall2 same_offers (shopList (snd st)) (shopList (snd st'))
    /\ Forall (fun s' => freeShip s' <> []
                         /\ (freeShip s' = defaultFreeShip s'
                             \/ Forall (fun k => is_freeShip_carrier k = true)
                                  (Js.keys (freeShip s'))))
         (shopList (snd st')).
Proof.
  destruct (shippingIncentives_run st) as (st' & Hrun & Hsl & _ & _ & Hsame & Hset).
  exists st'. split; [done|]. split; [done|]. split; [done|].
  eapply Forall_impl; [exact Hset|]. intros s' [Hdef|[Hne Hrec]]; simpl in *.
  - split; [by rewrite Hdef | by left].
  - split; [done | by right].
Qed.
End Stages.

(** ** The requests of the stages *)

Lemma set_all_filter_distinct {V : Type} (kept : list (string * V)) :
  NoDup (Js.keys kept) -> Js.set_all kept [] = kept.
Proof. intros Hnd. by rewrite set_all_distinct. Qed.

Lemma extractFreeShip_set_all (conditions : list (string * Z)) :
  extractFreeShip conditions
  = Js.set_all (List.filter (fun e => is_freeShip_carrier (fst e)) conditions) [].
Proof.
  unfold extractFreeShip. generalize (@nil (string * Z)) as acc.
  induction conditions as [|[k v] dc IH]; intros acc; simpl; [done|].
  destruct (is_freeShip_carrier k); simpl; apply IH.
Qed.

Lemma NoDup_keys_filter {V : Type} (p : string * V -> bool) (o : list (string * V)) :
  NoDup (Js.keys o) -> NoDup (Js.keys (List.filter p o)).
Proof.
  unfold Js.keys. intros Hnd. eapply sublist_NoDup; [exact Hnd|].
  apply (fmap_sublist fst), filter_sublist.
Qed.

Section Requests.
Context `{Remote} `{ListingHeuristics}.

(** X7: findProductList leaves the service as it is and returns at most
    ten listings; what it throws is its own error, naming the item; and
    when the search has no row it returns no listing after that one
    request. *)
Theorem findProductList_outcome (prod : ProductRequestExtended) (st : St) :
  exists r st',
    findProductList prod st = (r, st')
    /\ snd st' = snd st
    /\ match r with
       | Ok ds => (length ds <= 10)%nat
       | Throw e =>
           e = Error ("Error while getting product list for " +:+ ext_productName prod)
       end
    /\ (snd (axios_get (fst st) (getRutenApis (PROD_LIST (ext_productName prod))))
        = Some (RutenShipListResponse []) ->
        r = Ok []
        /\ fst st'
           = fst (axios_get (fst st) (getRutenApis (PROD_LIST (ext_productName prod))))).
Proof.
  destruct (findProductList prod st) as [r st'] eqn:Hrun. exists r, st'.
  split; [done|]. destruct (findProductList_frame _ _ _ _ Hrun) as [Hframe Herr].
  split; [done|]. split.
  - destruct r as [ds|e]; [by eapply findProductList_length | by apply Herr].
  - intros Hempty. unfold findProductList in Hrun. unfold_m.
    destruct (axios_get _ _) as [w r1]. simpl in Hempty. subst r1. simpl in Hrun.
    by inversion Hrun.
Qed.

(** X8: a shop that has no row for a product, or whose first row has no
    id, is not an error: getShopOtherProductInfo answers the entry without
    id after that one request, and the loop of Stage C leaves the copy of
    the shop list as it is and pushes nothing. *)
Theorem addOtherProduct_not_stocked (idx : nat) (seller prod : string)
    (copy : list Shop) (st : St) (w : World) (rows : list string)
    (Hrows : axios_get (fst st) (getRutenApis (SHOP_PROD_LIST seller 50 prod))
             = (w, Some (RutenShipListResponse rows)))
    (Hnone : rows = [] \/ head rows = Some "") :
  getShopOtherProductInfo seller prod st
  = (Ok {| pe_id := ""; pe_price := 0; pe_qtl := 0 |}, (w, snd st))
  /\ addOtherProduct idx seller copy prod st = (Ok copy, (w, snd st)).
Proof.
  assert (Hget : getShopOtherProductInfo seller prod st
                 = (Ok {| pe_id := ""; pe_price := 0; pe_qtl := 0 |}, (w, snd st))).
  { unfold getShopOtherProductInfo. unfold_m. rewrite Hrows. simpl.
    destruct Hnone as [->|Hhead]; [done|].
    destruct rows as [|row rows]; [done|]. simpl in Hhead. by inversion Hhead. }
  split; [done|]. unfold addOtherProduct, try_catch, bind. by rewrite Hget.
Qed.

(** X9: a product the shop has is added to the shop at its index of the
    copy under the product's name; the other products of the shop and the
    other shops of the copy are as they were, and nothing is pushed. *)
Theorem addOtherProduct_adds (idx : nat) (seller prod : string) (copy : list Shop)
    (shop : Shop) (st st1 : St) (prodDetail : ProductEntry)
    (Hget : getShopOtherProductInfo seller prod st = (Ok prodDetail, st1))
    (Hid : pe_id prodDetail <> "")
    (Hshop : copy !! idx = Some shop) :
  exists copy' shop',
    addOtherProduct idx seller copy prod st = (Ok copy', (fst st1, snd st))
    /\ copy' !! idx = Some shop'
    /\ shop_id shop' = shop_id shop /\ shipPrices shop' = shipPrices shop
    /\ Js.get prod (products shop') = Some prodDetail
    /\ (forall k, k <> prod -> Js.get k (products shop') = Js.get k (products shop))
    /\ (forall j, j <> idx -> copy' !! j = copy !! j)
    /\ length copy' = length copy.
Proof.
  destruct (getShopOtherProductInfo_frame _ _ _ _ _ Hget) as [Hframe _].
  exists (<[idx := set_products (Js.set prod prodDetail (products shop)) shop]> copy),
    (set_products (Js.set prod prodDetail (products shop)) shop). split.
  - unfold addOtherProduct, try_catch, bind. rewrite Hget.
    destruct (String.eqb_spec (pe_id prodDetail) "") as [?|_]; [done|]. simpl.
    rewrite Hshop. unfold ret. destruct st1. simpl in *. by subst.
  - assert (Hlt : (idx < length copy)%nat) by (eapply lookup_lt_Some; eauto).
    split; [by apply list_lookup_insert_eq|]. simpl.
    split; [done|]. split; [done|]. split; [apply get_set_eq|].
    split; [intros k Hk; by apply get_set_ne|].
    split; [intros j Hj; by rewrite list_lookup_insert_ne | by rewrite length_insert].
Qed.

(** X10: a shop that has every item of the shopping list is asked for its
    seller id and for nothing else: the copy of the shop list is as it
    was and nothing is pushed. *)
Theorem probeShop_fully_stocked (copy : list Shop) (idx : nat) (e : SopIdList)
    (s : Shop) (seller : string) (st st1 : St)
    (Hfind : List.find (fun x => String.eqb (shop_id x) (sop_name e)) (shopList (snd st))
             = Some s)
    (Hall : forall x, x ∈ shoppingList (snd st) ->
              productName x ∈ Js.keys (products s))
    (Hseller : getShopId (sop_name e) st = (Ok seller, st1)) :
  targetProducts (snd st) (sop_name e) = []
  /\ probeShop copy (idx, e) st = (Ok copy, (fst st1, snd st)).
Proof.
  destruct (getShopId_frame _ _ _ _ Hseller) as [Hframe _].
  assert (Hnone : targetProducts (snd st) (sop_name e) = []).
  { unfold targetProducts. rewrite Hfind.
    induction (shoppingList (snd st)) as [|x l IH]; simpl; [done|].
    assert (Hx : Js.mem (productName x) (Js.keys (products s)) = true).
    { apply mem_elem_of, Hall. left. }
    rewrite Hx. simpl. apply IH. intros y Hy. apply Hall. by right. }
  split; [done|]. unfold probeShop. rewrite Hseller. unfold bind, this. cbn [snd].
  rewrite Hframe, Hnone. simpl. unfold ret. destruct st1. simpl in *. by subst.
Qed.

(** X11: when the shipping information names each discount condition once
    and at least one of them is of a recognised carrier, getShipInfo
    returns exactly the conditions whose name contains SEVEN, FAMILY or
    HILIFE, in their order and with their amounts, and pushes nothing. *)
Theorem getShipInfo_thresholds (shop s : Shop) (idx : nat) (st : St) (w : World)
    (conditions : list (string * Z))
    (Hidx : shopList (snd st) !! idx = Some s)
    (Hres : axios_get (fst st) (getRutenApis (SHOP_SHIP_INFO (shop_id shop)))
            = (w, Some (ShipInfoResponse conditions)))
    (Hnames : NoDup (Js.keys conditions))
    (Hsome : List.filter (fun e => is_freeShip_carrier (fst e)) conditions <> []) :
  getShipInfo shop idx st
  = (Ok (List.filter (fun e => is_freeShip_carrier (fst e)) conditions), (w, snd st)).
Proof.
  rewrite (getShipInfo_run shop s idx st Hidx), Hres. simpl.
  rewrite extractFreeShip_set_all, set_all_filter_distinct by by apply NoDup_keys_filter.
  by destruct (List.filter _ conditions).
Qed.

(** X12: called with an index that holds no shop, getShipInfo fulfills
    only when the endpoint gives a threshold of a recognised carrier;
    otherwise the fallback cannot be built, the descriptive string is
    pushed and the call rejects with a TypeError. *)
Theorem getShipInfo_out_of_range (shop : Shop) (idx : nat) (st : St)
    (Hout : shopList (snd st) !! idx = None) :
  getShipInfo shop idx st
  = let (w, r) := axios_get (fst st) (getRutenApis (SHOP_SHIP_INFO (shop_id shop))) in
    match recognizedFreeShip r with
    | [] =>
        (Throw (TypeError "Cannot read properties of undefined (reading 'shipPrices')"),
         (w, push_error (LogStr ("Error while getting ships info for " +:+ shop_id shop))
               (snd st)))
    | v => (Ok v, (w, snd st))
    end.
Proof.
  unfold getShipInfo, setDefaultFreeShip. unfold_m. simpl.
  destruct (axios_get _ _) as [w [[rows|d|u|dc]|]]; simpl; rewrite ?Hout; try done.
  destruct (extractFreeShip dc) as [|e v]; simpl; by rewrite ?Hout.
Qed.
End Requests.

(** X13: extractShipPrices returns no fee exactly when no key of the
    mapping contains SEVEN, FAMI or HILIFE; the shop then has no carrier
    for the fallback of Stage D. *)
Theorem extractShipPrices_empty (deliverWay : list (string * Z)) :
  extractShipPrices deliverWay = []
  <-> Forall (fun e => is_store_carrier (fst e) = false) deliverWay.
Proof.
  rewrite extractShipPrices_set_all. unfold keptShipPrices. split.
  - intros Hempty. apply Forall_forall. intros [way fee] Hin. simpl.
    destruct (is_store_carrier way) eqn:Hway; [|done]. exfalso.
    assert (Hkey : carrier_key way ∈ Js.keys (Js.set_all
              (map (fun e => (carrier_key (fst e), snd e))
                 (List.filter (fun e => is_store_carrier (fst e)) deliverWay)) [])).
    { apply get_Some_keys. rewrite get_set_all.
      destruct (Js.get (carrier_key way) (rev _)) as [v|] eqn:Hget; [eauto|].
      exfalso. apply get_None_keys in Hget. apply Hget. unfold Js.keys.
      apply (list_elem_of_fmap_2' fst _ (carrier_key way, fee)); [|done].
      apply list_elem_of_In. apply (proj1 (in_rev _ _)). apply list_elem_of_In.
      apply (list_elem_of_fmap_2' _ _ (way, fee)); [|done].
      apply elem_of_bool_filter. by split. }
    rewrite Hempty in Hkey. inversion Hkey.
  - intros Hall. replace (List.filter _ deliverWay) with (@nil (string * Z)); [done|].
    induction Hall as [|[way fee] dw Hway _ IH]; simpl in *; [done|]. by rewrite Hway.
Qed.

(** ** Strings: searching and replacing *)

Lemma prefix_nil (s : string) : String.prefix "" s = true.
Proof. by destruct s. Qed.

Lemma append_cons (a : ascii) (p s : string) : String a p +:+ s = String a (p +:+ s).
Proof. reflexivity. Qed.

Lemma append_nil (s : string) : "" +:+ s = s.
Proof. reflexivity. Qed.

Lemma prefix_cons (a b : ascii) (p s : string) :
  String.prefix (String a p) (String b s) = Ascii.eqb a b && String.prefix p s.
Proof.
  simpl. destruct (ascii_dec a b) as [->|Hne].
  - by rewrite Ascii.eqb_refl.
  - apply Ascii.eqb_neq in Hne. by rewrite Hne.
Qed.

Lemma prefix_app (p s : string) : String.prefix p (p +:+ s) = true.
Proof.
  induction p as [|a p IH]; [apply prefix_nil|].
  change (String a p +:+ s) with (String a (p +:+ s)).
  by rewrite prefix_cons, Ascii.eqb_refl, IH.
Qed.

Lemma prefix_split (p s : string) :
  String.prefix p s = true -> s = p +:+ Js.drop (String.length p) s.
Proof.
  revert s. induction p as [|a p IH]; intros s Hp; [done|].
  destruct s as [|b s]; [done|]. rewrite prefix_cons in Hp.
  apply andb_true_iff in Hp as [Hab Hp]. apply Ascii.eqb_eq in Hab. subst b.
  simpl. rewrite append_cons. f_equal. by apply IH.
Qed.

Lemma prefix_agrees (pat q rest : string) :
  String.prefix pat (q +:+ rest) = true -> agrees pat q = true.
Proof.
  revert q. induction pat as [|a pat IH]; intros q Hp; [done|].
  destruct q as [|b q]; [done|].
  change (String b q +:+ rest) with (String b (q +:+ rest)) in Hp.
  rewrite prefix_cons in Hp. apply andb_true_iff in Hp as [Hab Hp].
  simpl. rewrite Hab. by eapply IH.
Qed.

Lemma includes_cons (p : string) (c : ascii) (s : string) :
  Js.includes p (String c s) = String.prefix p (String c s) || Js.includes p s.
Proof. simpl. by destruct (String.prefix p (String c s)). Qed.

Lemma includes_prefix (p s : string) : String.prefix p s = true -> Js.includes p s = true.
Proof. intros Hp. destruct s; simpl in *; by rewrite Hp. Qed.

Lemma includes_app_r (p a s : string) :
  Js.includes p s = true -> Js.includes p (a +:+ s) = true.
Proof.
  intros Hs. induction a as [|c a IH]; [done|].
  change (String c a +:+ s) with (String c (a +:+ s)).
  rewrite includes_cons, IH. apply orb_true_r.
Qed.

Lemma apart_cons (pat : string) (c : ascii) (a : string) :
  apart pat (String c a) = true ->
  agrees pat (String c a) = false /\ apart pat a = true.
Proof.
  unfold apart. simpl. intros Hap. apply andb_true_iff in Hap as [Hc Ha].
  split; [by apply negb_true_iff | done].
Qed.

(** No occurrence of [p] starts inside a leading [a] that is apart from it. *)
Lemma includes_app_skip (p a s : string) :
  apart p a = true -> Js.includes p (a +:+ s) = Js.includes p s.
Proof.
  induction a as [|c a IH]; intros Hap; [done|].
  apply apart_cons in Hap as [Hc Ha].
  change (String c a +:+ s) with (String c (a +:+ s)). rewrite includes_cons, IH by done.
  destruct (String.prefix p (String c (a +:+ s))) eqn:Hp; [|done].
  apply (prefix_agrees p (String c a) s) in Hp. congruence.
Qed.

Lemma replace_cons (pat rep : string) (c : ascii) (s : string) :
  String.prefix pat (String c s) = false ->
  Js.replace pat rep (String c s) = String c (Js.replace pat rep s).
Proof. intros Hp. simpl in *. by rewrite Hp. Qed.

(** A leading [a] that is apart from the pattern is not replaced. *)
Lemma replace_app_skip (pat rep a s : string) :
  apart pat a = true -> Js.replace pat rep (a +:+ s) = a +:+ Js.replace pat rep s.
Proof.
  induction a as [|c a IH]; intros Hap; [done|].
  apply apart_cons in Hap as [Hc Ha].
  change (String c a +:+ s) with (String c (a +:+ s)).
  rewrite replace_cons, IH; [done | done |].
  destruct (String.prefix pat (String c (a +:+ s))) eqn:Hp; [|done].
  apply (prefix_agrees pat (String c a) s) in Hp. congruence.
Qed.

(** Replacing a pattern keeps the occurrences of another one that cannot
    overlap it. *)
Lemma includes_replace (p pat rep s : string) :
  apart pat p = true -> apart p pat = true ->
  Js.includes p s = true -> Js.includes p (Js.replace pat rep s) = true.
Proof.
  intros Hpat Hp. induction s as [|c s IH]; intros Hs.
  - destruct p as [|a p]; [|by destruct pat].
    apply includes_prefix, prefix_nil.
  - destruct (String.prefix p (String c s)) eqn:Hhere.
    + rewrite (prefix_split _ _ Hhere), replace_app_skip by done.
      apply includes_prefix, prefix_app.
    + rewrite includes_cons, Hhere in Hs. simpl in Hs.
      destruct (String.prefix pat (String c s)) eqn:Hrep.
      * assert (Hrest : Js.includes p (Js.drop (String.length pat) (String c s)) = true).
        { rewrite <- (includes_app_skip p pat) by done.
          rewrite <- (prefix_split _ _ Hrep), includes_cons, Hhere. done. }
        simpl in Hrep. simpl. rewrite Hrep. by apply includes_app_r.
      * rewrite replace_cons by done. rewrite includes_cons, IH by done.
        apply orb_true_r.
Qed.

Lemma includes_FAMILY (s : string) :
  Js.includes "FAMI" s = true ->
  Js.includes "FAMILY" (Js.replace "FAMI" "FAMILY" s) = true.
Proof.
  induction s as [|c s IH]; intros Hs; [done|].
  destruct (String.prefix "FAMI" (String c s)) eqn:Hhere.
  - simpl in Hhere. simpl Js.replace. rewrite Hhere.
    apply includes_prefix, (prefix_app "FAMILY").
  - rewrite includes_cons, Hhere in Hs. simpl in Hs.
    rewrite replace_cons by done. rewrite includes_cons, IH by done. apply orb_true_r.
Qed.

(** X14: every key that extractShipPrices keeps is a carrier that Stage D
    recognises: a key that contains SEVEN, FAMI or HILIFE contains SEVEN,
    FAMILY or HILIFE once it is normalised, so the fees and the thresholds
    of a shop are filed under the same names. *)
Theorem shipPrices_keys_recognised (deliverWay : list (string * Z)) :
  (forall way, is_store_carrier way = true -> is_freeShip_carrier (carrier_key way) = true)
  /\ Forall (fun k => is_freeShip_carrier k = true) (Js.keys (extractShipPrices deliverWay)).
Proof.
  assert (Hkey : forall way, is_store_carrier way = true ->
                   is_freeShip_carrier (carrier_key way) = true).
  { intros way Hway. unfold is_store_carrier in Hway. unfold is_freeShip_carrier, carrier_key.
    apply orb_true_iff in Hway as [Hway|Hway]; [apply orb_true_iff in Hway as [Hway|Hway]|].
    - rewrite (includes_replace "SEVEN" "FAMI" "FAMILY"); [done | done | done |].
      by apply includes_replace.
    - rewrite (includes_FAMILY (Js.replace "_COD" "" way)); [by rewrite orb_true_r|].
      by apply includes_replace.
    - rewrite (includes_replace "HILIFE" "FAMI" "FAMILY"); [by rewrite orb_true_r | done | done |].
      by apply includes_replace. }
  split; [exact Hkey|]. rewrite extractShipPrices_set_all. apply Forall_forall.
  intros k Hk. destruct (keys_set_all_inv _ _ _ Hk) as [Hin|Hin]; [|inversion Hin].
  unfold Js.keys, keptShipPrices in Hin.
  apply (list_elem_of_fmap fst) in Hin as ([k' fee] & -> & Hin).
  apply (list_elem_of_fmap (fun e : string * Z => (carrier_key (fst e), snd e))) in Hin
    as ([way fee'] & Heq & Hin).
  inversion Heq; subst. apply elem_of_bool_filter in Hin as [_ Hway]. by apply Hkey.
Qed.

(** ** Product names *)

Lemma split_nonempty (sep : ascii) (s : string) : Js.split sep s <> [].
Proof.
  induction s as [|c s IH]; simpl; [done|].
  destruct (Ascii.eqb c sep); [done|]. by destruct (Js.split sep s).
Qed.

Lemma concat_cons (sep x : string) (xs : list string) :
  xs <> [] -> String.concat sep (x :: xs) = x +:+ sep +:+ String.concat sep xs.
Proof. by destruct xs. Qed.

Lemma split_concat (s : string) : String.concat "+" (Js.split "+" s) = s.
Proof.
  induction s as [|c s IH]; [done|]. simpl Js.split.
  destruct (Ascii.eqb_spec c "+") as [->|Hne].
  - rewrite concat_cons by apply split_nonempty. by rewrite IH.
  - pose proof (split_nonempty "+" s) as Hnil.
    destruct (Js.split "+" s) as [|h t]; [done|].
    destruct t as [|h' t]; simpl in *; [by rewrite IH|].
    by rewrite <- IH.
Qed.

Lemma prefix_plus (c : ascii) (s : string) :
  String.prefix "+" (String c s) = Ascii.eqb c "+".
Proof. by rewrite prefix_cons, prefix_nil, andb_true_r, Ascii.eqb_sym. Qed.

Lemma split_head_no_sep (s h : string) :
  head (Js.split "+" s) = Some h -> Js.includes "+" h = false.
Proof.
  revert h. induction s as [|c s IH]; intros h Hh; simpl in Hh.
  - by inversion Hh.
  - destruct (Ascii.eqb c "+") eqn:Hc; [by inversion Hh|].
    destruct (Js.split "+" s) as [|h' t] eqn:Hs; simpl in Hh; inversion Hh; subst.
    + by rewrite includes_cons, prefix_plus, Hc.
    + by rewrite includes_cons, prefix_plus, Hc, (IH h' eq_refl).
Qed.

Lemma split_no_sep (s : string) : Js.includes "+" s = false -> Js.split "+" s = [s].
Proof.
  induction s as [|c s IH]; intros Hs; [done|].
  rewrite includes_cons, prefix_plus in Hs.
  apply orb_false_iff in Hs as [Hc Hs]. simpl. by rewrite Hc, (IH Hs).
Qed.

(** X15: the parts that Stage A reads off a product name: joined by "+"
    they give the name back, the card id is the first of them and holds no
    "+", and a name without "+" has no rarity. *)
Theorem productName_parts (x : ProductRequest) :
  String.concat "+" (Js.split "+" (productName x)) = productName x
  /\ head (Js.split "+" (productName x)) = Some (card_id (extend x))
  /\ Js.includes "+" (card_id (extend x)) = false
  /\ (Js.includes "+" (productName x) = false ->
      card_id (extend x) = productName x
      /\ nth_error (Js.split "+" (productName x)) 1 = None).
Proof.
  split; [apply split_concat|].
  assert (Hhead : head (Js.split "+" (productName x)) = Some (card_id (extend x))).
  { simpl. pose proof (split_nonempty "+" (productName x)).
    by destruct (Js.split "+" (productName x)). }
  split; [done|]. split; [by eapply split_head_no_sep|].
  intros Hno. simpl. by rewrite (split_no_sep _ Hno).
Qed.

(** ** getRutenApis *)

Lemma length_append (s1 s2 : string) :
  String.length (s1 +:+ s2) = (String.length s1 + String.length s2)%nat.
Proof.
  induction s1 as [|c s1 IH]; [done|]. rewrite append_cons. simpl. by rewrite IH.
Qed.

Lemma append_inj_r (s1 s2 r : string) : s1 +:+ r = s2 +:+ r -> s1 = s2.
Proof.
  revert s2. induction s1 as [|c s1 IH]; intros [|d s2] Heq.
  - done.
  - apply (f_equal String.length) in Heq. rewrite append_nil, length_append in Heq.
    simpl in Heq. lia.
  - apply (f_equal String.length) in Heq. rewrite append_nil, length_append in Heq.
    simpl in Heq. lia.
  - rewrite !append_cons in Heq. inversion Heq; subst. f_equal. by apply IH.
Qed.

(** X16: the address of a request tells its endpoint: two requests with
    the same address are for the same endpoint, and none has the address
    of the default case.  The limit written in the address of a shop
    search is the limit asked for when that is at most 50, and 50 when it
    is more: two shop searches for the same seller and product have the
    same address exactly when their limits, cut at 50, are the same, so
    limits up to 50 are told apart and every limit above 50 reads as
    50. *)
Theorem getRutenApis_endpoints (a b : RutenApisType) :
  (getRutenApis a = getRutenApis b -> sameEndpoint a b = true)
  /\ getRutenApis a <> "error"
  /\ (forall shopId limit targetProduct,
        getRutenApis (SHOP_PROD_LIST shopId limit targetProduct)
        = getRutenApis (SHOP_PROD_LIST shopId (Z.min limit 50) targetProduct))
  /\ (forall shopId limit targetProduct,
        getRutenApis (SHOP_PROD_LIST shopId limit targetProduct)
        = "https://rtapi.ruten.com.tw/api/search/v3/index.php/core/seller/" +:+ shopId
            +:+ "/prod?sort=prc/ac&limit="
            +:+ pretty (if limit <=? 50 then limit else 50)
            +:+ "&q=" +:+ targetProduct)
  /\ (forall shopId targetProduct limit1 limit2,
        getRutenApis (SHOP_PROD_LIST shopId limit1 targetProduct)
        = getRutenApis (SHOP_PROD_LIST shopId limit2 targetProduct)
        <-> (if limit1 <=? 50 then limit1 else 50)
            = (if limit2 <=? 50 then limit2 else 50)).
Proof.
  assert (Hmin : forall limit, Z.min limit 50 = if limit <=? 50 then limit else 50).
  { intros limit. destruct (Z.leb_spec limit 50); lia. }
  split; [|split; [|split; [|split]]].
  - destruct a, b; simpl; try done; intros Heq; discriminate Heq.
  - destruct a; simpl; discriminate.
  - intros shopId limit targetProduct. simpl.
    by replace (Z.min (Z.min limit 50) 50) with (Z.min limit 50) by lia.
  - intros shopId limit targetProduct. simpl. by rewrite Hmin.
  - intros shopId targetProduct limit1 limit2. rewrite <- !Hmin. split.
    + unfold getRutenApis. intros Heq.
      do 4 apply String.app_inj in Heq.
      apply append_inj_r in Heq. by apply pretty_Z_inj in Heq.
    + intros Heq. simpl. by rewrite Heq.
Qed.

(** ** The rarity stage when there is nothing to tell apart *)

(** X17: filterProdDetail applies the four title filters only, and keeps
    the first ten, when the product is not one of the extended requests,
    when its name has no "+" or an empty rarity after it, or when every
    known rarity is the requested one. *)
Theorem filterProdDetail_without_rarity_stage `{ListingHeuristics}
    (sle : list ProductRequestExtended) (data : list RutenProductDetail)
    (productName : string)
    (Hskip :
       List.find (fun x => String.eqb (ext_productName x) productName) sle = None
       \/ Js.includes "+" productName = false
       \/ nth_error (Js.split "+" productName) 1 = Some ""
       \/ exists item nowRarity,
            List.find (fun x => String.eqb (ext_productName x) productName) sle = Some item
            /\ nth_error (Js.split "+" productName) 1 = Some nowRarity
            /\ Forall (fun rar => rar = nowRarity) (rarities item)) :
  filterProdDetail sle data productName
  = firstn 10 (map toProdDetail (filterTitle productName data)).
Proof.
  rewrite filterProdDetail_stages. f_equal. f_equal. unfold disambiguate.
  destruct Hskip as [Hnone|[Hplus|[Hempty|(item & now & Hitem & Hnow & Hall)]]].
  - by rewrite Hnone.
  - rewrite (split_no_sep _ Hplus). simpl. by destruct (option_map _ _).
  - rewrite Hempty. simpl. by destruct (option_map _ _).
  - rewrite Hitem, Hnow. simpl.
    assert (Hsame : filterRarity (rarities item) now (filterTitle productName data)
                    = filterTitle productName data); [|by destruct (_ && _)].
    unfold filterRarity.
    replace (otherRarities (rarities item) now) with (@nil string); [done|].
    unfold otherRarities. induction Hall as [|rar rs -> _ IH]; simpl; [done|].
    by rewrite String.eqb_refl.
Qed.

(** ** The entries of the error accumulator *)

Lemma appends_refl (t : Service) : appends t t.
Proof. exists []. split; [by rewrite app_nil_r | constructor]. Qed.

Lemma appends_trans (t1 t2 t3 : Service) : appends t1 t2 -> appends t2 t3 -> appends t1 t3.
Proof.
  intros (m1 & H1 & Hm1) (m2 & H2 & Hm2). exists (m1 ++ m2).
  split; [by rewrite H2, H1, app_assoc | by apply Forall_app].
Qed.

Lemma appends_push (e : Logged) (t : Service) : stageError e -> appends t (push_error e t).
Proof. intros He. exists [e]. split; [done | by constructor]. Qed.

Lemma appends_same (t t' : Service) : errorHandler t' = errorHandler t -> appends t t'.
Proof. intros Heq. exists []. split; [by rewrite app_nil_r | constructor]. Qed.

Section Errors.
Context `{Remote} `{ListingHeuristics}.

Lemma discoverAll_appends (exts : list ProductRequestExtended) (st st' : St) :
  for_each exts discoverOffers st = (Ok tt, st') -> appends (snd st) (snd st').
Proof.
  revert st. induction exts as [|prod exts IH]; intros st Hrun; simpl in Hrun.
  - unfold ret in Hrun. inversion Hrun; subst. apply appends_refl.
  - unfold bind in Hrun. rewrite discoverOffers_exact in Hrun.
    destruct (findProductList prod st) as [[ds|e] st1] eqn:Hfind;
      destruct (findProductList_frame _ _ _ _ Hfind) as [_ Herr];
      apply IH in Hrun; (eapply appends_trans; [|exact Hrun]); simpl.
    + by apply appends_same.
    + apply appends_push. left. rewrite (Herr e eq_refl). eauto.
Qed.

Lemma addOtherProduct_appends (idx : nat) (seller prod : string) (copy : list Shop)
    (st : St) :
  (idx < length copy)%nat ->
  exists copy' st',
    addOtherProduct idx seller copy prod st = (Ok copy', st')
    /\ length copy' = length copy
    /\ appends (snd st) (snd st').
Proof.
  intros Hidx. destruct (lookup_lt_is_Some_2 copy idx Hidx) as [shop Hshop].
  unfold addOtherProduct, try_catch, bind.
  destruct (getShopOtherProductInfo seller prod st) as [[pd|e] st1] eqn:Hget;
    destruct (getShopOtherProductInfo_frame _ _ _ _ _ Hget) as [Hframe Herr].
  - destruct (negb (String.eqb (pe_id pd) "")).
    + rewrite Hshop. unfold ret. eexists _, _. split; [done|].
      split; [by rewrite length_insert | apply appends_same; simpl; by rewrite Hframe].
    + unfold ret. eexists _, _. split; [done|].
      split; [done | apply appends_same; simpl; by rewrite Hframe].
  - unfold_m. simpl. eexists _, _. split; [done|]. split; [done|]. simpl.
    rewrite Hframe. apply appends_push. right. left. rewrite (Herr e eq_refl). eauto.
Qed.

Lemma addOthers_appends (idx : nat) (seller : string) (targets : list string)
    (copy : list Shop) (st : St) :
  (idx < length copy)%nat ->
  exists copy' st',
    for_fold targets copy (addOtherProduct idx seller) st = (Ok copy', st')
    /\ length copy' = length copy
    /\ appends (snd st) (snd st').
Proof.
  revert copy st. induction targets as [|prod targets IH]; intros copy st Hidx; simpl.
  - exists copy, st. split; [done|]. split; [done | apply appends_refl].
  - destruct (addOtherProduct_appends idx seller prod copy st Hidx)
      as (copy1 & st1 & Hrun & Hlen & Happ).
    destruct (IH copy1 st1) as (copy2 & st2 & Hrun2 & Hlen2 & Happ2); [lia|].
    exists copy2, st2. unfold bind. rewrite Hrun. split; [done|].
    split; [lia | by eapply appends_trans].
Qed.

Lemma probeShop_appends (copy : list Shop) (idx : nat) (e : SopIdList) (st : St) :
  (idx < length copy)%nat ->
  exists copy' st',
    probeShop copy (idx, e) st = (Ok copy', st')
    /\ length copy' = length copy
    /\ appends (snd st) (snd st').
Proof.
  intros Hidx. unfold probeShop.
  destruct (getShopId (sop_name e) st) as [[seller|err] st1] eqn:Hget;
    destruct (getShopId_frame _ _ _ _ Hget) as [Hframe Herr].
  - unfold bind at 1. unfold this at 1. cbn [snd]. destruct (negb _).
    + destruct (addOthers_appends idx seller (targetProducts (snd st1) (sop_name e))
                  copy st1 Hidx) as (copy' & st' & Hrun & Hlen & Happ).
      exists copy', st'. split; [done|]. split; [done|]. by rewrite <- Hframe.
    + unfold ret. exists copy, st1. split; [done|]. split; [done|].
      rewrite Hframe. apply appends_refl.
  - unfold_m. simpl. eexists _, _. split; [done|]. split; [done|]. simpl.
    rewrite Hframe. apply appends_push. left. rewrite (Herr err eq_refl). eauto.
Qed.

Lemma probeAll_appends (es : list (nat * SopIdList)) (copy : list Shop) (st : St) :
  Forall (fun e => (fst e < length copy)%nat) es ->
  exists copy' st',
    for_fold es copy probeShop st = (Ok copy', st')
    /\ appends (snd st) (snd st').
Proof.
  revert copy st. induction es as [|[idx e] es IH]; intros copy st Hes; cbn [for_fold].
  - exists copy, st. split; [done | apply appends_refl].
  - inversion Hes as [|? ? Hidx Hes']; subst. cbn [fst] in Hidx.
    destruct (probeShop_appends copy idx e st Hidx) as (copy1 & st1 & Hrun & Hlen & Happ).
    destruct (IH copy1 st1) as (copy2 & st2 & Hrun2 & Happ2).
    { rewrite Hlen. done. }
    exists copy2, st2. unfold bind. rewrite Hrun. split; [done|].
    by eapply appends_trans.
Qed.

Lemma crossSell_appends (st st' : St) :
  crossSell st = (Ok tt, st') -> appends (snd st) (snd st').
Proof.
  unfold crossSell, findShopHasAnotherProduct. unfold bind at 1. unfold this at 1.
  cbn [snd]. unfold bind at 1. unfold bind at 1. unfold this at 1. cbn [snd].
  destruct (probeAll_appends
              (entries (map (fun x => {| sop_name := shop_id x; sop_id := "" |})
                          (shopList (snd st))))
              (shopList (snd st)) st) as (copy' & st1 & Hrun & Happ).
  - apply Forall_forall. intros [idx e] Hin. apply elem_of_entries in Hin.
    apply lookup_lt_Some in Hin. by rewrite length_map in Hin.
  - rewrite Hrun. unfold update. intros Heq. inversion Heq; subst. exact Happ.
Qed.

Lemma allSettled_ships_appends (es : list (nat * Shop)) (st : St)
    (rs : result (list (result (list (string * Z))))) (st' : St) :
  Forall (fun e => shopList (snd st) !! fst e = Some (snd e)) es ->
  allSettled (map (fun '(idx, shop) => getShipInfo shop idx) es) st = (rs, st') ->
  appends (snd st) (snd st') /\ shopList (snd st') = shopList (snd st).
Proof.
  revert st rs st'. induction es as [|[idx shop] es IH]; intros st rs st' Hes Hrun;
    cbn [map allSettled] in Hrun.
  - unfold ret in Hrun. inversion Hrun; subst. split; [apply appends_refl | done].
  - inversion Hes as [|? ? Hhere Hes']; subst. cbn [fst snd] in *.
    rewrite (getShipInfo_run shop shop idx st Hhere) in Hrun.
    destruct (axios_get _ _) as [w r].
    set (t1 := if fetched r then snd st else push_error _ (snd st)) in Hrun.
    assert (Ht1 : appends (snd st) t1 /\ shopList t1 = shopList (snd st)).
    { unfold t1. destruct (fetched r); [split; [apply appends_refl | done]|].
      split; [|done]. apply appends_push. right. right. eauto. }
    destruct Ht1 as [Happ Hl]. unfold bind in Hrun.
    destruct (allSettled _ (w, t1)) as [rs1 st1] eqn:Hrest.
    apply IH in Hrest as [Happ1 Hl1]; [|cbn [snd]; by rewrite Hl].
    assert (st' = st1) as -> by (destruct rs1; unfold ret in Hrun; by inversion Hrun).
    cbn [snd] in *. split; [by eapply appends_trans | congruence].
Qed.

Lemma shippingIncentives_appends (st st' : St) :
  shippingIncentives st = (Ok tt, st') -> appends (snd st) (snd st').
Proof.
  destruct (allSettled_ships (entries (shopList (snd st))) st)
    as (vs & [w1 t1] & Hrun & _ & Hvs).
  { apply Forall_forall. intros [i s] Hin. by apply elem_of_entries in Hin. }
  destruct (allSettled_ships_appends _ _ _ _
              ltac:(apply Forall_forall; intros [i s] Hin; by apply elem_of_entries in Hin)
              Hrun) as [Happ Hl].
  rewrite map_snd_entries in Hvs. cbn [snd] in *.
  unfold shippingIncentives. unfold bind at 1. unfold this at 1. cbn [snd].
  unfold bind at 1. rewrite Hrun. unfold entries.
  pose proof (Forall2_length _ _ _ Hvs) as Hlen.
  pose proof (settleAll_run vs [] (shopList t1) w1 t1) as Hsettle.
  cbn [length app] in Hsettle. rewrite Hsettle by (rewrite ?Hl; done).
  intros Heq. inversion Heq; subst. simpl. exact Happ.
Qed.

(** X18: what getShopList pushes on the error accumulator.  When Stage A
    fails it is the one error of Stage A.  Otherwise every entry is of one
    of three kinds: the error of a search, of a cross-sell fetch, or the
    string of a shipping fetch; the reason of a rejected shipping task is
    never among them. *)
Theorem getShopList_errors (st : St) :
  exists shops stF more,
    getShopList st = (Ok shops, stF)
    /\ errorHandler (snd stF) = errorHandler (snd st) ++ more
    /\ match getProductRequestExtended st with
       | (Throw e, _) => more = [LogExn e] /\ shops = []
       | (Ok _, _) => Forall stageError more
       end.
Proof.
  pose proof (getShopList_stages st) as Hrun.
  destruct (getProductRequestExtended st) as [[exts|e] stA].
  - destruct Hrun as (stB & stC & stD & _ & HB & HC & HD & Hrun).
    apply discoverAll_appends in HB. apply crossSell_appends in HC.
    apply shippingIncentives_appends in HD.
    destruct (appends_trans _ _ _ HB (appends_trans _ _ _ HC HD)) as (more & Hmore & Hall).
    exists (shopList (snd stD)), stD, more. split; [done|]. split; [exact Hmore | done].
  - exists [], (fst stA, push_error (LogExn e) (snd st)), [LogExn e].
    split; [done|]. split; [done | by split].
Qed.
End Errors.

(** ** Invariants of the shop list *)

Lemma mergeListing_wellKeyed (prod : ProductRequestExtended) (l : list Shop)
    (d : ProdDetail) :
  Forall wellKeyed l -> Forall wellKeyed (mergeListing prod l d).
Proof.
  intros Hl.
  destruct (mergeListing_spec l prod d) as [[_ ->]|(i & s & Hs & _ & _ & ->)].
  - apply Forall_app. split; [done|]. constructor; [|done]. split; simpl.
    + apply NoDup_singleton.
    + rewrite extractShipPrices_set_all. apply NoDup_keys_set_all. constructor.
  - apply Forall_insert; [done|].
    rewrite Forall_forall in Hl. destruct (Hl s) as [Hp Hf].
    { apply list_elem_of_lookup. eauto. }
    split; simpl; [by apply NoDup_keys_set | done].
Qed.

Lemma mergeListing_prefix (ids : list string) (prod : ProductRequestExtended)
    (l : list Shop) (d : ProdDetail) :
  ids `prefix_of` map shop_id l -> ids `prefix_of` map shop_id (mergeListing prod l d).
Proof.
  intros Hpre.
  destruct (mergeListing_spec l prod d) as [[_ ->]|(i & s & Hs & Hid & _ & ->)].
  - rewrite map_app. by apply prefix_app_r.
  - replace (map shop_id (<[i:=_]> l)) with (map shop_id l); [done|].
    change (shop_id <$> l = shop_id <$> <[i:=set_products
      (Js.set (ext_productName prod) (productEntry d) (products s)) s]> l).
    rewrite list_fmap_insert. symmetry. apply list_insert_id.
    by rewrite list_lookup_fmap, Hs.
Qed.

Section Invariants.
Context `{Remote} `{ListingHeuristics}.

Lemma resolveAll_resolved (rest xs : list ProductRequest)
    (resolvedSoFar : list ProductRequestExtended) (st : St)
    (acc : list ProductRequestExtended) (st' : St) :
  Forall2 (fun x e => exists cardData, e = resolved (extend x) cardData) xs resolvedSoFar ->
  for_fold (combine (seq (length resolvedSoFar) (length (map extend rest)))
              (map extend rest))
    (resolvedSoFar ++ map extend rest) resolveProduct st = (Ok acc, st') ->
  Forall2 (fun x e => exists cardData, e = resolved (extend x) cardData) (xs ++ rest) acc.
Proof.
  revert xs resolvedSoFar st. induction rest as [|x rest IH];
    intros xs sofar st Hsofar Hrun.
  - simpl in Hrun. unfold ret in Hrun. inversion Hrun; subst.
    by rewrite !app_nil_r.
  - cbn [map length seq combine for_fold] in Hrun. unfold bind in Hrun.
    rewrite resolveProduct_run in Hrun.
    destruct (dataAccess_find _ _ _) as [w [[|cd found]|e]]; [done| |done].
    replace (<[length sofar:=resolved (extend x) cd]> (sofar ++ extend x :: map extend rest))
      with ((sofar ++ [resolved (extend x) cd]) ++ map extend rest) in Hrun.
    2:{ rewrite insert_app_r_alt by done. rewrite Nat.sub_diag. simpl.
        by rewrite <- app_assoc. }
    specialize (IH (xs ++ [x]) (sofar ++ [resolved (extend x) cd]) (w, snd st)).
    rewrite length_app, Nat.add_1_r in IH.
    replace (xs ++ x :: rest) with ((xs ++ [x]) ++ rest) by by rewrite <- app_assoc.
    apply IH; [|done].
    apply Forall2_app; [done|]. constructor; [eauto | constructor].
Qed.

Lemma resolveAll_other (es : list (nat * ProductRequestExtended))
    (acc acc' : list ProductRequestExtended) (st st' : St) :
  for_fold es acc resolveProduct st = (Ok acc', st') ->
  length acc' = length acc
  /\ forall j, Forall (fun e => fst e <> j) es -> acc' !! j = acc !! j.
Proof.
  revert acc st. induction es as [|[p prod] es IH]; intros acc st Hrun;
    cbn [for_fold] in Hrun.
  - inversion Hrun; subst. done.
  - unfold bind in Hrun. rewrite resolveProduct_run in Hrun.
    destruct (dataAccess_find _ _ _) as [w [[|cd found]|e]]; [done| |done].
    destruct (IH _ _ Hrun) as [Hlen Hother]. rewrite Hlen, length_insert.
    split; [done|]. intros j Hj. inversion Hj as [|? ? Hne Hj']; subst.
    simpl in Hne. rewrite (Hother j Hj'). by apply list_lookup_insert_ne.
Qed.

(** The turn of one item in a run of the loop that succeeds. *)
Lemma resolveAll_turn (pre post : list (nat * ProductRequestExtended)) (p : nat)
    (prod : ProductRequestExtended) (acc exts : list ProductRequestExtended)
    (st stA : St) :
  for_fold (pre ++ (p, prod) :: post) acc resolveProduct st = (Ok exts, stA) ->
  exists acc1 st1 w cardData found,
    for_fold pre acc resolveProduct st = (Ok acc1, st1)
    /\ dataAccess_find (fst st1) (card_id prod)
         (nth_error (Js.split "+" (ext_productName prod)) 1)
       = (w, Ok (cardData :: found))
    /\ for_fold post (<[p := resolved prod cardData]> acc1) resolveProduct (w, snd st1)
       = (Ok exts, stA).
Proof.
  intros Hrun. rewrite for_fold_app in Hrun.
  destruct (for_fold pre acc resolveProduct st) as [[acc1|e] st1] eqn:Hpre; [|done].
  cbn [for_fold] in Hrun. unfold bind in Hrun. rewrite resolveProduct_run in Hrun.
  destruct (dataAccess_find _ _ _) as [w [[|cd found]|e]] eqn:Hfind; [done| |done].
  by exists acc1, st1, w, cd, found.
Qed.

(** X19: Stage A leaves the service as it is, and when it succeeds every
    extended request is its request with the data of a card.  At the turn
    of an item the loop has succeeded on the items before it; the data
    layer, asked then for the part of the name before the first "+" and
    the part after it, answers with a list that has a first card; and the
    extended request at the index of the item has the name and the count
    of the item, the part before the first "+" as card id, and the name,
    the number and the rarities of that first card. *)
Theorem getProductRequestExtended_resolved (st stA : St)
    (exts : list ProductRequestExtended)
    (HA : getProductRequestExtended st = (Ok exts, stA)) :
  snd stA = snd st
  /\ Forall2 (fun x e => exists cardData, e = resolved (extend x) cardData)
       (shoppingList (snd st)) exts
  /\ (forall pre p prod post,
        entries (map extend (shoppingList (snd st))) = pre ++ (p, prod) :: post ->
        exists x acc1 st1 w cardData found e,
          shoppingList (snd st) !! p = Some x
          /\ for_fold pre (map extend (shoppingList (snd st))) resolveProduct st
             = (Ok acc1, st1)
          /\ dataAccess_find (fst st1) (default "" (head (Js.split "+" (productName x))))
               (nth_error (Js.split "+" (productName x)) 1)
             = (w, Ok (cardData :: found))
          /\ exts !! p = Some e
          /\ ext_productName e = productName x
          /\ ext_count e = count x
          /\ card_id e = default "" (head (Js.split "+" (productName x)))
          /\ card_name e = cd_name cardData
          /\ card_number e = cd_number cardData
          /\ rarities e = cd_rarity cardData).
Proof.
  destruct (getProductRequestExtended_run st) as (r & stA' & HA' & Hframe & _).
  rewrite HA in HA'. inversion HA'; subst. split; [done|].
  unfold getProductRequestExtended in HA. unfold bind, this in HA. cbn [snd] in HA.
  split.
  - apply (resolveAll_resolved (shoppingList (snd st)) [] [] st exts stA');
      [constructor | exact HA].
  - intros pre p prod post Hsplit.
    destruct (entries_split _ _ _ _ _ Hsplit) as (Hp & Hprod & _ & Hpost).
    change (map extend (shoppingList (snd st))) with (extend <$> shoppingList (snd st))
      in Hprod.
    rewrite list_lookup_fmap in Hprod.
    destruct (shoppingList (snd st) !! p) as [x|] eqn:Hx; [|done].
    simpl in Hprod. inversion Hprod; subst prod. rewrite Hsplit in HA.
    destruct (resolveAll_turn _ _ _ _ _ _ _ _ HA)
      as (acc1 & st1 & w & cd & found & Hpre & Hfind & Hrest).
    destruct (resolveAll_other _ _ _ _ _ Hpre) as [Hlen1 _].
    destruct (resolveAll_other _ _ _ _ _ Hrest) as [_ Hother].
    exists x, acc1, st1, w, cd, found, (resolved (extend x) cd).
    split; [done|]. split; [done|]. split; [exact Hfind|]. split; [|done].
    rewrite (Hother p Hpost). apply list_lookup_insert_eq.
    rewrite Hlen1, length_map. by eapply lookup_lt_Some.
Qed.

(** X20: the products and the fees of a shop stay mappings: when no shop of
    the service holds a name twice, no shop that getShopList returns does. *)
Theorem getShopList_wellKeyed (st : St)
    (Hinit : Forall wellKeyed (shopList (snd st))) :
  exists shops stF,
    getShopList st = (Ok shops, stF) /\ Forall wellKeyed shops.
Proof.
  pose proof (getShopList_stages st) as Hrun.
  destruct (getProductRequestExtended st) as [[exts|e] stA].
  - destruct Hrun as (stB & stC & stD & _ & HB & HC & HD & Hrun).
    exists (shopList (snd stD)), stD. split; [done|].
    assert (HPB : Forall wellKeyed (shopList (snd stB))).
    { eapply (discoverAll_invariant (Forall wellKeyed)); [| |exact HB]; [|exact Hinit].
      intros prod l d _. apply mergeListing_wellKeyed. }
    destruct (crossSell_run stB) as (stC' & HC' & _ & _ & _ & HprobedC).
    rewrite HC in HC'. inversion HC'; subst stC'.
    destruct (shippingIncentives_run stC) as (stD' & HD' & _ & _ & _ & HsameD & _).
    rewrite HD in HD'. inversion HD'; subst stD'.
    apply Forall_lookup. intros i s Hi.
    destruct (Forall2_lookup_r _ _ _ _ _ HsameD Hi) as (sC & HsC & _ & Hprod & Hfees).
    destruct (Forall2_lookup_r _ _ _ _ _ HprobedC HsC)
      as (sB & HsB & _ & HfeesC & _ & added & Hp & _).
    rewrite Forall_lookup in HPB. destruct (HPB i sB HsB) as [HpB HfB].
    split; [rewrite Hprod, Hp; by apply NoDup_keys_set_all | by rewrite Hfees, HfeesC].
  - eexists _, _. split; [exact Hrun | constructor].
Qed.

(** X21: getShopList keeps the shops that the service held at their
    indices: the ids of the shop list before the run are a prefix of the
    ids of the shop list after it, in the same order. *)
Theorem getShopList_keeps_order (st : St) :
  exists shops stF,
    getShopList st = (Ok shops, stF)
    /\ map shop_id (shopList (snd st)) `prefix_of` map shop_id (shopList (snd stF)).
Proof.
  pose proof (getShopList_stages st) as Hrun.
  destruct (getProductRequestExtended st) as [[exts|e] stA].
  - destruct Hrun as (stB & stC & stD & _ & HB & HC & HD & Hrun).
    exists (shopList (snd stD)), stD. split; [done|].
    assert (HPB : map shop_id (shopList (snd st)) `prefix_of` map shop_id (shopList (snd stB))).
    { eapply (discoverAll_invariant
                (fun l => map shop_id (shopList (snd st)) `prefix_of` map shop_id l));
        [| |exact HB]; [|done].
      intros prod l d _. apply mergeListing_prefix. }
    destruct (crossSell_run stB) as (stC' & HC' & _ & _ & _ & HprobedC).
    rewrite HC in HC'. inversion HC'; subst stC'.
    destruct (shippingIncentives_run stC) as (stD' & HD' & _ & _ & _ & HsameD & _).
    rewrite HD in HD'. inversion HD'; subst stD'.
    assert (HidsC : map shop_id (shopList (snd stC)) = map shop_id (shopList (snd stB))).
    { apply Forall2_shop_le_ids. eapply Forall2_impl; [exact HprobedC|].
      intros s s'. apply probed_shop_le. }
    assert (HidsD : map shop_id (shopList (snd stD)) = map shop_id (shopList (snd stC))).
    { apply Forall2_shop_le_ids. eapply Forall2_impl; [exact HsameD|].
      intros s s'. apply same_offers_shop_le. }
    by rewrite HidsD, HidsC.
  - eexists _, _. split; [exact Hrun|]. done.
Qed.
End Invariants.

(** ** The further properties on the tables *)

Lemma last_listing_wins_witness :
  exists l',
    for_each ([toProdDetail Tables.L1] ++ Samples.again :: [Samples.other])
      (@mergeProdDetail Samples.remote Tables.extendedUR)
      (tt, GetShopListByRutenService [])
    = (Ok tt, (tt, set_shopList l' (GetShopListByRutenService [])))
    /\ (exists s, s ∈ l' /\ shop_id s = "shopA")
    /\ forall s, s ∈ l' -> shop_id s = "shopA" ->
         Js.get "12345+UR" (products s) = Some (productEntry Samples.again).
Proof.
  refine (@last_listing_wins Samples.remote Tables.extendedUR [toProdDetail Tables.L1]
            [Samples.other] Samples.again (tt, GetShopListByRutenService [])
            (NoDup_nil_2 (A:=string)) _).
  intros d' Hd'. apply list_elem_of_singleton in Hd'. subst d'. discriminate.
Defined.

Lemma getShopList_products_requested_witness :
  exists shops stF,
    @getShopList (Tables.remote Tables.cards Tables.pages) Tables.heuristics
      (tt, Tables.discovered) = (Ok shops, stF)
    /\ forall s, s ∈ shops -> forall k, k ∈ Js.keys (products s) ->
         k ∈ ["12345+UR"; "999+N"].
Proof.
  refine (@getShopList_products_requested (Tables.remote Tables.cards Tables.pages)
            Tables.heuristics (tt, Tables.discovered) _).
  intros s Hs k Hk. apply list_elem_of_singleton in Hs. subst s. simpl in Hk.
  apply list_elem_of_singleton in Hk. subst k. left.
Defined.

Lemma addOtherProduct_not_stocked_witness :
  @addOtherProduct Samples.remote 0 "1001" [Tables.shopA] "999+N" (tt, Tables.discovered)
  = (Ok [Tables.shopA], (tt, Tables.discovered)).
Proof.
  exact (proj2 (@addOtherProduct_not_stocked Samples.remote 0 "1001" "999+N"
                  [Tables.shopA] (tt, Tables.discovered) tt [] eq_refl
                  (or_introl eq_refl))).
Defined.

Lemma addOtherProduct_adds_witness :
  exists copy' shop',
    @addOtherProduct Samples.remote 0 "1001" [Tables.shopA] "777+N" (tt, Tables.discovered)
    = (Ok copy', (tt, Tables.discovered))
    /\ copy' !! 0%nat = Some shop'
    /\ Js.get "777+N" (products shop')
       = Some {| pe_id := "L4"; pe_price := 12; pe_qtl := 3 |}
    /\ Js.get "12345+UR" (products shop') = Js.get "12345+UR" (products Tables.shopA).
Proof.
  destruct (@addOtherProduct_adds Samples.remote 0 "1001" "777+N" [Tables.shopA]
              Tables.shopA (tt, Tables.discovered) (tt, Tables.discovered)
              {| pe_id := "L4"; pe_price := 12; pe_qtl := 3 |} eq_refl
              ltac:(discriminate) eq_refl)
    as (copy' & shop' & Hrun & Hat & _ & _ & Hget & Hother & _).
  exists copy', shop'. split; [exact Hrun|]. split; [exact Hat|]. split; [exact Hget|].
  apply Hother. discriminate.
Defined.

Lemma probeShop_fully_stocked_witness :
  @probeShop Samples.remote [Tables.shopA] (0%nat, {| sop_name := "shopA"; sop_id := "" |})
    (tt, Samples.stocked)
  = (Ok [Tables.shopA], (tt, Samples.stocked)).
Proof.
  refine (proj2 (@probeShop_fully_stocked Samples.remote [Tables.shopA] 0
                   {| sop_name := "shopA"; sop_id := "" |} Tables.shopA "1001"
                   (tt, Samples.stocked) (tt, Samples.stocked) eq_refl _ eq_refl)).
  intros x Hx. apply list_elem_of_singleton in Hx. subst x. left.
Defined.

Lemma getShipInfo_thresholds_witness :
  @getShipInfo Samples.remote Tables.shopA 0 (tt, Tables.discovered)
  = (Ok [("SEVEN", 1500); ("FAMILY", 1200)], (tt, Tables.discovered)).
Proof.
  refine (@getShipInfo_thresholds Samples.remote Tables.shopA Tables.shopA 0
            (tt, Tables.discovered) tt
            [("SEVEN", 1500); ("POST", 3000); ("FAMILY", 1200)] eq_refl eq_refl _ _).
  - apply (bool_decide_unpack _). vm_compute. exact I.
  - discriminate.
Defined.

Lemma getShipInfo_out_of_range_witness :
  @getShipInfo (Tables.remote Tables.cards Tables.pages) Tables.shopA 5
    (tt, Tables.discovered)
  = (Ok [("SEVEN", 1500)], (tt, Tables.discovered))
  /\ @getShipInfo (Tables.remote Tables.cards []) Tables.shopA 5 (tt, Tables.discovered)
     = (Throw (TypeError "Cannot read properties of undefined (reading 'shipPrices')"),
        (tt, push_error (LogStr "Error while getting ships info for shopA")
               Tables.discovered)).
Proof.
  split.
  - exact (@getShipInfo_out_of_range (Tables.remote Tables.cards Tables.pages)
             Tables.shopA 5 (tt, Tables.discovered) eq_refl).
  - exact (@getShipInfo_out_of_range (Tables.remote Tables.cards [])
             Tables.shopA 5 (tt, Tables.discovered) eq_refl).
Defined.

Lemma filterProdDetail_without_rarity_stage_witness :
  @filterProdDetail Tables.heuristics [] [Tables.L1; Tables.L2] "12345+UR"
  = [toProdDetail Tables.L1; toProdDetail Tables.L2].
Proof.
  exact (@filterProdDetail_without_rarity_stage Tables.heuristics []
           [Tables.L1; Tables.L2] "12345+UR" (or_introl eq_refl)).
Defined.

Lemma getProductRequestExtended_resolved_witness :
  Forall2 (fun x e => exists cardData, e = resolved (extend x) cardData)
    (constructor_shoppingList Tables.partial)
    [resolved (extend {| productName := "12345+UR"; count := 3 |})
       {| cd_name := "X"; cd_number := "001"; cd_rarity := ["UR"; "SR"] |};
     resolved (extend {| productName := "999+N"; count := 1 |})
       {| cd_name := "Z"; cd_number := "003"; cd_rarity := ["N"] |}]
  /\ exists x cardData found e,
       constructor_shoppingList Tables.partial !! 1%nat = Some x
       /\ Tables.find_card Tables.cards
            (default "" (head (Js.split "+" (productName x))))
            (nth_error (Js.split "+" (productName x)) 1)
          = Ok (cardData :: found)
       /\ [resolved (extend {| productName := "12345+UR"; count := 3 |})
             {| cd_name := "X"; cd_number := "001"; cd_rarity := ["UR"; "SR"] |};
           resolved (extend {| productName := "999+N"; count := 1 |})
             {| cd_name := "Z"; cd_number := "003"; cd_rarity := ["N"] |}] !! 1%nat
          = Some e
       /\ card_name e = cd_name cardData
       /\ card_number e = cd_number cardData
       /\ rarities e = cd_rarity cardData.
Proof.
  destruct (@getProductRequestExtended_resolved (Tables.remote Tables.cards Tables.pages)
              (tt, GetShopListByRutenService Tables.partial)
              (tt, GetShopListByRutenService Tables.partial) _ eq_refl)
    as (_ & Hall & Hturn).
  split; [exact Hall|].
  destruct (Hturn [(0%nat, extend {| productName := "12345+UR"; count := 3 |})] 1%nat
              (extend {| productName := "999+N"; count := 1 |}) [] eq_refl)
    as (x & acc1 & st1 & w & cardData & found & e & Hx & Hpre & Hfind & He & _ & _ & _
        & Hname & Hnumber & Hrar).
  exists x, cardData, found, e. split; [exact Hx|].
  split; [exact (f_equal snd Hfind)|]. split; [exact He|].
  split; [exact Hname|]. split; [exact Hnumber | exact Hrar].
Defined.

Lemma getShopList_wellKeyed_witness :
  exists shops stF,
    @getShopList (Tables.remote Tables.cards Tables.pages) Tables.heuristics
      (tt, Tables.discovered) = (Ok shops, stF)
    /\ Forall wellKeyed shops.
Proof.
  refine (@getShopList_wellKeyed (Tables.remote Tables.cards Tables.pages)
            Tables.heuristics (tt, Tables.discovered) _).
  constructor; [|constructor]. split; apply NoDup_singleton.
Defined.
